(** * GitHub user insights: scraper scheduler, enrichment queue, response parser

    A shallow embedding of [services/ai-processor.js] (class [AIProcessor])
    and [services/scraper.js] (class [GitHubScraper]), with the properties
    of the extraction-and-enrichment pipeline stated over it.

    Conventions.
    - JavaScript strings are Rocq [string]s; a character is a code unit
      below 256.
    - Milliseconds, counters and indices are [nat].
    - A promise handed to a submitter is named by a number (its [sink]);
      settling it is recorded in a history.
    - Suspended [async] activations are explicit frames of an event loop
      whose inputs (responses of the network, timers, the clock) are the
      environment's moves. *)

From Stdlib Require Import String Ascii List Arith Bool Lia.
From stdpp Require Import gmap strings list pretty.
Import ListNotations.
Open Scope string_scope.
Open Scope list_scope.
Open Scope nat_scope.

(* ===================================================================== *)
(** ** Strings of the host language *)
(* ===================================================================== *)

Module JS.

(** [String.prototype.includes]. *)
Fixpoint includes (s sub : string) : bool :=
  String.prefix sub s ||
  match s with
  | EmptyString => false
  | String _ s' => includes s' sub
  end.

(** [String.prototype.split] with a separator of one character. *)
Fixpoint split (sep : ascii) (s : string) : list string :=
  match s with
  | EmptyString => [EmptyString]
  | String c s' =>
      if Ascii.eqb c sep then EmptyString :: split sep s'
      else
        match split sep s' with
        | piece :: pieces => String c piece :: pieces
        | [] => [String c EmptyString]
        end
  end.

(** White space and line terminators among the code units below 256. *)
Definition isWhite (c : ascii) : bool :=
  let n := nat_of_ascii c in
  ((9 <=? n) && (n <=? 13)) || (n =? 32) || (n =? 160).

Fixpoint trimStart (s : string) : string :=
  match s with
  | EmptyString => EmptyString
  | String c s' => if isWhite c then trimStart s' else s
  end.

Fixpoint trimEnd (s : string) : string :=
  match s with
  | EmptyString => EmptyString
  | String c s' =>
      match trimEnd s' with
      | EmptyString => if isWhite c then EmptyString else String c EmptyString
      | t => String c t
      end
  end.

(** [String.prototype.trim]. *)
Definition trim (s : string) : string := trimEnd (trimStart s).

(** A string as a condition: empty is falsy. *)
Definition truthy (s : string) : bool :=
  match s with EmptyString => false | _ => true end.

(** [a || b] on strings. *)
Definition orElse (a b : string) : string := if truthy a then a else b.

Definition LF : ascii := ascii_of_nat 10.

(** Whether the character [c] occurs in [s]. *)
Fixpoint occurs (c : ascii) (s : string) : bool :=
  match s with
  | EmptyString => false
  | String a s' => Ascii.eqb a c || occurs c s'
  end.

(** The double quote, for selectors that contain one. *)
Definition dq : string := String (ascii_of_nat 34) EmptyString.

(** [\d]. *)
Definition isDigit (c : ascii) : bool :=
  let n := nat_of_ascii c in (48 <=? n) && (n <=? 57).

(** [s.replace(/\D/g, '')]. *)
Fixpoint stripNonDigits (s : string) : string :=
  match s with
  | EmptyString => EmptyString
  | String c s' =>
      if isDigit c then String c (stripNonDigits s') else stripNonDigits s'
  end.

(** Whether some, or every, character of [s] satisfies [p]. *)
Fixpoint anyChar (p : ascii -> bool) (s : string) : bool :=
  match s with
  | EmptyString => false
  | String c s' => p c || anyChar p s'
  end.

Fixpoint allChars (p : ascii -> bool) (s : string) : bool :=
  match s with
  | EmptyString => true
  | String c s' => p c && allChars p s'
  end.

Definition isDigitOrComma (c : ascii) : bool := isDigit c || Ascii.eqb c ",".

(** [x || null]. *)
Definition orNull (s : string) : option string :=
  if truthy s then Some s else None.

End JS.

(* ===================================================================== *)
(** ** Enrichment queue: [AIProcessor] *)
(* ===================================================================== *)

Module AIProcessor.
Import JS.

(** What [await this.sendToGemini(prompt)] gives back: the generated text,
    or a thrown error (transport error, timeout, empty content). *)
Inductive outcome :=
  | Fulfilled (response : string)
  | Failed (error : string).

(** [{ prompt, resolve, reject }]: the pair [resolve]/[reject] is the
    submitter's promise, named by [sink]. *)
Record QueueItem := { prompt : string; sink : nat }.

(** [const maxAttempts = 3]. *)
Definition maxAttempts : nat := 3.

(** The body of the [while] loop after the awaited call has come back:
    [resolve(response); break], or the [catch] block
    [attempts++; if (attempts >= maxAttempts) throw error;
     retryDelay = this.rateLimitDelay * attempts; await this.sleep(retryDelay)]. *)
Inductive after_attempt :=
  | Break (response : string)
  | Throw (error : string)
  | Retry (attempts retryDelay : nat).

Definition onAttempt (rateLimitDelay attempts : nat) (o : outcome) : after_attempt :=
  match o with
  | Fulfilled response => Break response
  | Failed error =>
      let attempts := S attempts in
      if maxAttempts <=? attempts then Throw error
      else Retry attempts (rateLimitDelay * attempts)
  end.

(** *** One item, start to end

    The [try { while ... } catch { reject } ] part of [processQueue] for
    one item, as the list of things it does.  [api n] is the outcome of the
    [n]-th call (from 0) of [sendToGemini] made for this item. *)
Inductive action :=
  | Call (p : string)
  | Sleep (ms : nat)
  | DoResolve (response : string)
  | DoReject (error : string).

Fixpoint attemptLoop (fuel rateLimitDelay attempts : nat) (p : string)
    (api : nat -> outcome) (calls : nat) : option (list action) :=
  match fuel with
  | O => None
  | S fuel =>
      if attempts <? maxAttempts then
        match onAttempt rateLimitDelay attempts (api calls) with
        | Break response => Some [Call p; DoResolve response]
        | Throw error => Some [Call p; DoReject error]
        | Retry attempts retryDelay =>
            match attemptLoop fuel rateLimitDelay attempts p api (S calls) with
            | Some rest => Some (Call p :: Sleep retryDelay :: rest)
            | None => None
            end
        end
      else Some []
  end.

Definition handleItem (fuel rateLimitDelay : nat) (item : QueueItem)
    (api : nat -> outcome) : option (list action) :=
  attemptLoop fuel rateLimitDelay 0 (prompt item) api 0.

Definition isCall (a : action) : bool :=
  match a with Call _ => true | _ => false end.

Definition isSettle (a : action) : bool :=
  match a with DoResolve _ | DoReject _ => true | _ => false end.

Definition calls (l : list action) : nat := length (filter isCall l).

Definition settlements (l : list action) : list action := filter isSettle l.

Fixpoint sleeps (l : list action) : list nat :=
  match l with
  | [] => []
  | Sleep ms :: l => ms :: sleeps l
  | _ :: l => sleeps l
  end.

(** *** The event loop around the queue *)

(** A suspended activation of [processQueue]: at
    [await this.sendToGemini(prompt)] (an outbound call is in flight) or
    at [await this.sleep(retryDelay)]. *)
Inductive frame :=
  | AwaitSend (item : QueueItem) (attempts : nat)
  | AwaitSleep (item : QueueItem) (attempts : nat) (wake : nat).

Inductive settlement :=
  | Resolved (response : string)
  | Rejected (error : string).

(** What has happened, with the time at which it did. *)
Inductive event :=
  | Dispatched (item : QueueItem) (t : nat)
  | Sent (item : QueueItem) (t : nat)
  | Settled (sink : nat) (s : settlement) (t : nat)
  | Backoff (item : QueueItem) (retryDelay : nat) (t : nat)
  | Finished (item : QueueItem) (t : nat).

(** The object's fields ([requestQueue], [processingQueue],
    [rateLimitDelay]) and the event loop's ([frames], the pending
    [setTimeout(() => this.processQueue(), ...)] callbacks with their due
    times, the clock, the history with the newest event first). *)
Record loop := Loop {
  requestQueue : list QueueItem;
  processingQueue : bool;
  rateLimitDelay : nat;
  frames : list frame;
  timers : list nat;
  clock : nat;
  history : list event
}.

(** [new AIProcessor()]. *)
Definition init : loop :=
  Loop [] false 1000 [] [] 0 [].

Definition isAwaitSend (f : frame) : bool :=
  match f with AwaitSend _ _ => true | AwaitSleep _ _ _ => false end.

(** Outbound calls to the generation API that are in flight. *)
Definition inflight (s : loop) : nat := length (filter isAwaitSend (frames s)).

(** [processQueue], up to its first [await]. *)
Definition processQueue (s : loop) : loop :=
  if processingQueue s || (length (requestQueue s) =? 0) then s
  else
    match requestQueue s with
    | [] => s
    | item :: rest =>
        Loop rest true (rateLimitDelay s)
             (frames s ++ [AwaitSend item 0])
             (timers s) (clock s)
             (Sent item (clock s) :: Dispatched item (clock s) :: history s)
    end.

(** [queueAIRequest]: push, then call [processQueue]. *)
Definition queueAIRequest (p : string) (k : nat) (s : loop) : loop :=
  processQueue
    (Loop (requestQueue s ++ [Build_QueueItem p k]) (processingQueue s)
          (rateLimitDelay s) (frames s) (timers s) (clock s) (history s)).

(** The [finally] block of the activation in frame [i], which ends there. *)
Definition finally (i : nat) (item : QueueItem) (s : loop) : loop :=
  Loop (requestQueue s) false (rateLimitDelay s)
       (delete i (frames s))
       (timers s ++ [clock s + rateLimitDelay s]) (clock s)
       (Finished item (clock s) :: history s).

(** One more event in the history. *)
Definition record (e : event) (s : loop) : loop :=
  Loop (requestQueue s) (processingQueue s) (rateLimitDelay s) (frames s)
       (timers s) (clock s) (e :: history s).

(** [resolve(response)] or [reject(error)] of the promise [k]. *)
Definition settle (k : nat) (r : settlement) (s : loop) : loop :=
  record (Settled k r (clock s)) s.

Definition setFrame (i : nat) (f : frame) (s : loop) : loop :=
  Loop (requestQueue s) (processingQueue s) (rateLimitDelay s)
       (<[i := f]> (frames s)) (timers s) (clock s) (history s).

(** The environment's moves. *)
Inductive input :=
  | Submit (p : string) (k : nat)
  | Respond (i : nat) (o : outcome)
  | Wake (i : nat)
  | Fire (i : nat)
  | Tick (dt : nat).

Definition step (a : input) (s : loop) : option loop :=
  match a with
  | Submit p k => Some (queueAIRequest p k s)
  | Respond i o =>
      match frames s !! i with
      | Some (AwaitSend item attempts) =>
          match onAttempt (rateLimitDelay s) attempts o with
          | Break response =>
              Some (finally i item (settle (sink item) (Resolved response) s))
          | Throw error =>
              Some (finally i item (settle (sink item) (Rejected error) s))
          | Retry attempts retryDelay =>
              Some (setFrame i (AwaitSleep item attempts (clock s + retryDelay))
                             (record (Backoff item retryDelay (clock s)) s))
          end
      | _ => None
      end
  | Wake i =>
      match frames s !! i with
      | Some (AwaitSleep item attempts wake) =>
          if wake <=? clock s then
            if attempts <? maxAttempts then
              Some (Loop (requestQueue s) (processingQueue s) (rateLimitDelay s)
                         (<[i := AwaitSend item attempts]> (frames s))
                         (timers s) (clock s)
                         (Sent item (clock s) :: history s))
            else Some (finally i item s)
          else None
      | _ => None
      end
  | Fire i =>
      match timers s !! i with
      | Some due =>
          if due <=? clock s then
            Some (processQueue
                    (Loop (requestQueue s) (processingQueue s) (rateLimitDelay s)
                          (frames s) (delete i (timers s)) (clock s) (history s)))
          else None
      | None => None
      end
  | Tick dt =>
      Some (Loop (requestQueue s) (processingQueue s) (rateLimitDelay s)
                 (frames s) (timers s) (clock s + dt) (history s))
  end.

Fixpoint run (ins : list input) (s : loop) : option loop :=
  match ins with
  | [] => Some s
  | a :: ins =>
      match step a s with
      | Some s' => run ins s'
      | None => None
      end
  end.

(** The minimum delay between the end of one dispatch and the start of
    the next, checked over a history in the order of time: [last] is the
    time of the latest [Finished], if any. *)
Fixpoint spaced (d : nat) (last : option nat) (h : list event) : bool :=
  match h with
  | [] => true
  | Dispatched _ t :: h =>
      match last with
      | Some e => (e + d <=? t) && spaced d last h
      | None => spaced d last h
      end
  | Finished _ t :: h => spaced d (Some t) h
  | _ :: h => spaced d last h
  end.

Definition minDelayRespected (s : loop) : bool :=
  spaced (rateLimitDelay s) None (rev (history s)).

(** *** Descriptions used by the statements *)

(** At most one activation of [processQueue] is past its guard, and none
    while the flag is down. *)
Definition singleFlight (s : loop) : Prop :=
  length (frames s) <= 1 /\ (processingQueue s = false -> frames s = []).

(** [n] failed attempts, each followed by its backoff. *)
Definition retries (d : nat) (p : string) (n : nat) : list action :=
  flat_map (fun k => [Call p; Sleep (d * k)]) (seq 1 n).

Definition submitAll (items : list QueueItem) : list input :=
  map (fun item => Submit (prompt item) (sink item)) items.

Fixpoint increasing (l : list nat) : Prop :=
  match l with
  | a :: (b :: _) as l' => a < b /\ increasing l'
  | _ => True
  end.

Definition isSettled (e : event) : bool :=
  match e with Settled _ _ _ => true | _ => false end.

(** The moves of the environment that carry the dispatched item to its
    end when [api] answers its calls: each answer and, after a failure
    that is not the last, the wait for the backoff and the wake-up. *)
Fixpoint script (fuel d attempts : nat) (api : nat -> outcome) (calls : nat)
    : list input :=
  match fuel with
  | O => []
  | S fuel =>
      match onAttempt d attempts (api calls) with
      | Retry attempts retryDelay =>
          Respond 0 (api calls) :: Tick retryDelay :: Wake 0
            :: script fuel d attempts api (S calls)
      | _ => [Respond 0 (api calls)]
      end
  end.

(** A history, oldest event first, read as the actions of
    [handleItem]. *)
Fixpoint actionsOf (h : list event) : list action :=
  match h with
  | [] => []
  | Sent item _ :: h => Call (prompt item) :: actionsOf h
  | Backoff _ retryDelay _ :: h => Sleep retryDelay :: actionsOf h
  | Settled _ (Resolved response) _ :: h => DoResolve response :: actionsOf h
  | Settled _ (Rejected error) _ :: h => DoReject error :: actionsOf h
  | _ :: h => actionsOf h
  end.

(** The promises settled in a history. *)
Fixpoint settledSinks (h : list event) : list nat :=
  match h with
  | [] => []
  | Settled k _ _ :: h => k :: settledSinks h
  | _ :: h => settledSinks h
  end.

(** *** Response parser *)

(** The suffix of [s] that starts at the first [c]. *)
Fixpoint fromFirst (c : ascii) (s : string) : option string :=
  match s with
  | EmptyString => None
  | String a s' => if Ascii.eqb a c then Some s else fromFirst c s'
  end.

(** The prefix of [s] that ends at the last [c]. *)
Fixpoint upToLast (c : ascii) (s : string) : option string :=
  match s with
  | EmptyString => None
  | String a s' =>
      match upToLast c s' with
      | Some t => Some (String a t)
      | None => if Ascii.eqb a c then Some (String a EmptyString) else None
      end
  end.

(** [aiResponse.match(/\{[\s\S]*\}/)]: the match, from the first opening
    brace to the last closing brace after it. *)
Definition jsonMatch (aiResponse : string) : option string :=
  match fromFirst "{" aiResponse with
  | Some t => upToLast "}" t
  | None => None
  end.

(** [JSON.parse] of the host: [None] when it throws. *)
Class JSON := {
  object : Type;
  JSON_parse : string -> option object
}.

(** The [while] loop of [extractSection]: the lines after the label's
    line that have no colon and are not blank. *)
Fixpoint continuation (rest : list string) : string :=
  match rest with
  | [] => EmptyString
  | l :: rest =>
      if negb (includes l ":") && truthy (trim l)
      then " " +:+ trim l +:+ continuation rest
      else EmptyString
  end.

(** [lines[i].split(':')[1]?.trim() || '']. *)
Definition afterColon (l : string) : string :=
  match split ":" l with
  | _ :: piece :: _ => trim piece
  | _ => EmptyString
  end.

Fixpoint extractSection (lines : list string) (sectionName : string) : string :=
  match lines with
  | [] => EmptyString
  | l :: rest =>
      if includes l sectionName then afterColon l +:+ continuation rest
      else extractSection rest sectionName
  end.

Section Parser.
Context {J : JSON}.

(** What [parseAIResponse] returns: the parsed object with [raw_response]
    and [timestamp] set, the five sections, or the error variant. *)
Inductive Insight :=
  | Structured (insights : object) (raw_response timestamp : string)
  | Sections (primary_skills tech_stack experience_level
              notable_contributions professional_summary
              raw_response timestamp : string)
  | ParseError (error raw_response timestamp : string).

(** The body of the outer [try]: [None] when it throws. [now] is
    [new Date().toISOString()]. *)
Definition parseBody (aiResponse now : string) : option Insight :=
  match jsonMatch aiResponse with
  | Some jsonString =>
      match JSON_parse jsonString with
      | Some insights => Some (Structured insights aiResponse now)
      | None => None
      end
  | None =>
      let lines := split LF aiResponse in
      Some (Sections (extractSection lines "Primary skills")
                     (extractSection lines "Tech stack")
                     (extractSection lines "Experience level")
                     (extractSection lines "Notable contributions")
                     (extractSection lines "Brief professional summary")
                     aiResponse now)
  end.

Definition parseAIResponse (aiResponse now : string) : Insight :=
  match parseBody aiResponse now with
  | Some insights => insights
  | None => ParseError "Failed to parse AI response" aiResponse now
  end.

Definition isSections (i : Insight) : bool :=
  match i with Sections _ _ _ _ _ _ _ => true | _ => false end.

End Parser.

Arguments Insight : clear implicits.

End AIProcessor.

(* ===================================================================== *)
(** ** Fetch scheduler and structural extractor: [GitHubScraper] *)
(* ===================================================================== *)

Module GitHubScraper.
Import JS.

(** What [await this.client.get(url)] gives back: the document, or a
    thrown error (network failure, timeout, status that is not a success). *)
Inductive response :=
  | NetError (message : string)
  | Body (data : string).

(** The host: [get n url] is the answer to the [n]-th request issued
    (from 0) when it asks for [url], and [arrival n] is the time at which
    that answer comes. *)
Class Host := {
  get : nat -> string -> response;
  arrival : nat -> nat;
  encodeURIComponent : string -> string
}.

(** The part of cheerio that the scraper uses. [query n sel] is [$(sel)]
    when [n] is the root and [n.find(sel)] otherwise, in document order;
    [text] is [.text()] of a selection, [attr] is [.attr(name)] of an
    element, [next] is [.next()]. *)
Class Cheerio := {
  node : Type;
  load : string -> node;
  query : node -> string -> list node;
  text : list node -> string;
  attr : node -> string -> option string;
  next : list node -> list node
}.

Record Repo := {
  name : string;
  description : option string;
  language : option string
}.

(** [raw_data]: [{}] on a candidate, the profile's facts after a scrape,
    or [{ error }]. *)
Inductive RawData :=
  | NoRaw
  | Facts (followers following : string) (organizations : list string)
          (profile_readme : option string)
  | ErrorMarker (error : string).

(** A candidate, and the same object once its profile has been read
    ([contribution_count] and [pinned_repositories] are absent before).
    The placeholder [ai_insights: {}], which only [app.js] fills, is left
    out. *)
Record User := {
  username : string;
  display_name : option string;
  profile_url : string;
  bio : option string;
  raw_data : RawData;
  contribution_count : option string;
  pinned_repositories : option (list Repo)
}.

(** [{ ...user, raw_data: { error: err.message } }]. *)
Definition withError (user : User) (message : string) : User :=
  Build_User (username user) (display_name user) (profile_url user) (bio user)
             (ErrorMarker message)
             (contribution_count user) (pinned_repositories user).

Inductive effect :=
  | Get (url : string)
  | Sleep (ms : nat).

(** The object's fields and the world around it. The one [Map] of the
    source holds candidate lists under keys [users:...] and profiles under
    keys [profile:...]; the two kinds of key never meet, and the cache is
    kept as one map for each. [issued] counts the requests sent, [trace]
    lists requests and sleeps, oldest first. *)
Record scraper := Scraper {
  rateLimitDelay : nat;
  batchSize : nat;
  searchCache : gmap string (list User);
  profileCache : gmap string User;
  issued : nat;
  trace : list effect
}.

(** [new GitHubScraper()]. *)
Definition init : scraper := Scraper 3000 3 ∅ ∅ 0 [].

Definition sleep (ms : nat) (s : scraper) : scraper :=
  Scraper (rateLimitDelay s) (batchSize s) (searchCache s) (profileCache s)
          (issued s) (trace s ++ [Sleep ms]).

Definition setProfile (key : string) (u : User) (s : scraper) : scraper :=
  Scraper (rateLimitDelay s) (batchSize s) (searchCache s)
          (<[key := u]> (profileCache s)) (issued s) (trace s).

Definition setSearch (key : string) (l : list User) (s : scraper) : scraper :=
  Scraper (rateLimitDelay s) (batchSize s) (<[key := l]> (searchCache s))
          (profileCache s) (issued s) (trace s).

(** [clearCache]. *)
Definition clearCache (s : scraper) : scraper :=
  Scraper (rateLimitDelay s) (batchSize s) ∅ ∅ (issued s) (trace s).

(** Running [f] over a list, left to right, threading the state. *)
Fixpoint forEach {A B : Type} (f : A -> scraper -> B * scraper) (l : list A)
    (s : scraper) : list B * scraper :=
  match l with
  | [] => ([], s)
  | a :: l =>
      let (b, s1) := f a s in
      let (bs, s2) := forEach f l s1 in
      (b :: bs, s2)
  end.

(** *** Counts *)

(** The pattern of a count is one or more digits, then any number of
    groups made of a comma and one or more digits. This is the rest of its
    match once the first digit has been read: digits, and commas that a
    digit follows. *)
Fixpoint countTail (s : string) : string :=
  match s with
  | EmptyString => EmptyString
  | String c s' =>
      if isDigit c then String c (countTail s')
      else if Ascii.eqb c "," then
        match s' with
        | String d _ => if isDigit d then String c (countTail s') else EmptyString
        | EmptyString => EmptyString
        end
      else EmptyString
  end.

(** [t.match] of the pattern of a count: element 0 of the match, if there
    is one. *)
Fixpoint firstCount (t : string) : option string :=
  match t with
  | EmptyString => None
  | String c t' => if isDigit c then Some (String c (countTail t')) else firstCount t'
  end.

(** The pattern of a count read as a recogniser of whole texts: after a
    digit the text may end, go on with a digit, or go on with a comma,
    and after a comma a digit must follow. *)
Inductive countState :=
  | NeedDigit
  | InDigits.

Fixpoint accepts (st : countState) (m : string) : bool :=
  match m with
  | EmptyString =>
      match st with
      | InDigits => true
      | NeedDigit => false
      end
  | String c m' =>
      if isDigit c then accepts InDigits m'
      else if Ascii.eqb c "," then
        match st with
        | InDigits => accepts NeedDigit m'
        | NeedDigit => false
        end
      else false
  end.

(** [m] is one or more digits, then any number of groups made of a comma
    and one or more digits. *)
Definition isCount (m : string) : bool := accepts NeedDigit m.

(** A match that ends before [post] could be made longer: [post] starts
    with a digit, or with a comma that a digit follows. *)
Definition extends (post : string) : bool :=
  match post with
  | EmptyString => false
  | String c rest =>
      isDigit c
      || (Ascii.eqb c ","
          && match rest with
             | String d _ => isDigit d
             | EmptyString => false
             end)
  end.

(** [t.replace(/\D/g, '') || '0']. *)
Definition digitsOrZero (t : string) : string := orElse (stripNonDigits t) "0".

(** *** Descriptions used by the statements *)

Definition isGet (e : effect) : bool :=
  match e with Get _ => true | Sleep _ => false end.

Definition isSleep (e : effect) : bool :=
  match e with Sleep _ => true | Get _ => false end.

(** Requests and sleeps in a trace. *)
Definition fetches (t : list effect) : nat := length (filter isGet t).
Definition pauses (t : list effect) : nat := length (filter isSleep t).

(** The lists [ls] one after the other with [sep] between neighbours. *)
Fixpoint joinWith {A : Type} (sep : list A) (ls : list (list A)) : list A :=
  match ls with
  | [] => []
  | l :: ls' =>
      match ls' with
      | [] => l
      | _ :: _ => l ++ sep ++ joinWith sep ls'
      end
  end.

(** [l] cut into pieces of [B] elements, the last one shorter if need be. *)
Fixpoint chunks {A : Type} (fuel B : nat) (l : list A) : list (list A) :=
  match fuel with
  | O => []
  | S fuel =>
      match l with
      | [] => []
      | _ :: _ => firstn B l :: chunks fuel B (skipn B l)
      end
  end.

Definition batches {A : Type} (B : nat) (l : list A) : list (list A) :=
  chunks (length l) B l.

(** [M / B] rounded up. *)
Definition ceilDiv (M B : nat) : nat := (M + B - 1) / B.

(** The requests for the profiles of the users of [chunk] that the cache
    [c] does not hold. *)
Definition requestsFor (c : gmap string User) (chunk : list User) : list effect :=
  map (fun u => Get (profile_url u))
      (filter (fun u => c !! ("profile:" +:+ username u) = None) chunk).

(** An [async] call between its start and the answer it waits for. *)
Inductive pending (A : Type) :=
  | Ready (a : A)
  | Awaiting (r : response).
Arguments Ready {A} a.
Arguments Awaiting {A} r.

(** How a call ends. *)
Inductive completion (A : Type) :=
  | Returned (a : A)
  | Thrown (message : string).
Arguments Returned {A} a.
Arguments Thrown {A} message.

(** The [query] argument: a string, or another value. Of a value that
    is not a string two things matter: its truth as a condition, and what
    the template literal of the first log line does with it, [Some message]
    when turning it into text throws an error of that message (a Symbol,
    an object without a usable [toString]) and [None] when it gives a
    text. *)
Inductive arg :=
  | Str (q : string)
  | NotAString (asCondition : bool) (conversion : option string).

(** A call of a batch that has run to its [await] or to its cache hit:
    its place in the batch, the time at which it goes on, and the call
    with what it waits for. *)
Record waiting := {
  place : nat;
  due : nat;
  task : User * pending User
}.

Fixpoint insertByDue (w : waiting) (l : list waiting) : list waiting :=
  match l with
  | [] => [w]
  | v :: l' => if due w <=? due v then w :: v :: l' else v :: insertByDue w l'
  end.

(** The calls in the order in which they go on: by time, and by place in
    the batch when the times are equal. *)
Definition byArrival (l : list waiting) : list waiting :=
  fold_right insertByDue [] l.

(** The value settled for the call of place [k]. *)
Fixpoint valueAt (k : nat) (settled : list (nat * User)) : option User :=
  match settled with
  | [] => None
  | (p, r) :: settled => if p =? k then Some r else valueAt k settled
  end.

(** What [Promise.all] resolves with: the values of the [n] calls in the
    order of the batch, whatever the order in which they were settled. *)
Definition inBatchOrder (n : nat) (settled : list (nat * User)) : list User :=
  omap (fun k => valueAt k settled) (seq 0 n).

Section WithHost.
Context {H : Host} {C : Cheerio}.

Definition send (url : string) (s : scraper) : response * scraper :=
  (get (issued s) url,
   Scraper (rateLimitDelay s) (batchSize s) (searchCache s) (profileCache s)
           (S (issued s)) (trace s ++ [Get url])).

(** The first selection that is not empty; the last one tried otherwise. *)
Fixpoint firstMatch (root : node) (selectors : list string) (current : list node)
    : list node :=
  match selectors with
  | [] => current
  | selector :: selectors =>
      let elements := query root selector in
      if 0 <? length elements then elements
      else firstMatch root selectors current
  end.

(** *** Profile page *)

Definition contributionCount (root : node) : string :=
  let contribText :=
    text (query root ("h2:contains(" +:+ dq +:+ "contributions" +:+ dq +:+ ")")) in
  match firstCount contribText with
  | Some m => m
  | None =>
      let altContribElem := query root ".js-yearly-contributions" in
      if 0 <? length altContribElem then
        match firstCount (text altContribElem) with
        | Some m => m
        | None => "0"
        end
      else "0"
  end.

Definition pinnedSelectors : list string :=
  ["div.pinned-item-list-item"; "div.js-pinned-item-list-item"; "ol.d-flex > li"].

(** The loop over [pinnedSelectors]: each selection replaces the one
    before, and the loop stops at the first that is not empty. *)
Fixpoint pinnedElements (root : node) (selectors : list string) (current : list node)
    : list node :=
  match selectors with
  | [] => current
  | selector :: selectors =>
      let elements := query root selector in
      if 0 <? length elements then elements
      else pinnedElements root selectors elements
  end.

Definition pinnedRepo (repoElement : node) : Repo :=
  let repoName := trim (text (query repoElement "span.repo")) in
  let repoName :=
    if truthy repoName then repoName
    else trim (text (query repoElement
                 ("a[itemprop=" +:+ dq +:+ "name codeRepository" +:+ dq +:+ "]"))) in
  let repoName :=
    if truthy repoName then repoName
    else trim (text (query repoElement ".repo")) in
  let description := trim (text (query repoElement "p.pinned-item-desc")) in
  let description :=
    if truthy description then description
    else hd EmptyString
           (split LF (trim (text (query repoElement ".color-fg-muted")))) in
  let language :=
    trim (text (query repoElement
            ("span[itemprop=" +:+ dq +:+ "programmingLanguage" +:+ dq +:+ "]"))) in
  let language :=
    if truthy language then language
    else trim (text (next (query repoElement ".repo-language-color"))) in
  Build_Repo (orElse repoName "Unknown Repository")
             (orNull description) (orNull language).

Definition followersSelector : string :=
  "a[href$=" +:+ dq +:+ "?tab=followers" +:+ dq +:+ "], a[href*="
    +:+ dq +:+ "followers" +:+ dq +:+ "]".

Definition followingSelector : string :=
  "a[href$=" +:+ dq +:+ "?tab=following" +:+ dq +:+ "], a[href*="
    +:+ dq +:+ "following" +:+ dq +:+ "]".

Definition organizationName (el : node) : string :=
  match attr el "aria-label" with
  | Some label => orElse label (trim (text [el]))
  | None => trim (text [el])
  end.

Definition profileReadme (root : node) : string :=
  let r := trim (text (query root "div.js-user-profile-bio")) in
  let r := if truthy r then r else trim (text (query root ".user-profile-bio")) in
  if truthy r then r
  else trim (text (query root ("div[itemprop=" +:+ dq +:+ "description" +:+ dq +:+ "]"))).

(** The body of the [try] of [scrapeUserProfile] from [cheerio.load(data)]
    on: [enhancedUser]. *)
Definition extractProfile (user : User) (data : string) : User :=
  let root := load data in
  let pinnedRepos := map pinnedRepo (pinnedElements root pinnedSelectors []) in
  let followers := digitsOrZero (text (firstn 1 (query root followersSelector))) in
  let following := digitsOrZero (text (firstn 1 (query root followingSelector))) in
  let organizations :=
    filter (fun orgName => truthy orgName = true)
      (map organizationName
         (query root ("a[data-hovercard-type=" +:+ dq +:+ "organization" +:+ dq
                        +:+ "], .avatar-group-item"))) in
  Build_User (username user) (display_name user) (profile_url user) (bio user)
             (Facts followers following organizations (orNull (profileReadme root)))
             (Some (contributionCount root))
             (Some pinnedRepos).

Definition profileKey (user : User) : string := "profile:" +:+ username user.

(** [scrapeUserProfile] up to [await this.client.get(user.profile_url)]. *)
Definition scrapeUserProfile_begin (user : User) (s : scraper)
    : pending User * scraper :=
  match profileCache s !! profileKey user with
  | Some cached => (Ready cached, s)
  | None =>
      let (r, s1) := send (profile_url user) s in
      (Awaiting r, s1)
  end.

(** [scrapeUserProfile] from the answer on. *)
Definition scrapeUserProfile_end (job : User * pending User) (s : scraper)
    : User * scraper :=
  let (user, p) := job in
  match p with
  | Ready cached => (cached, s)
  | Awaiting (NetError message) => (withError user message, s)
  | Awaiting (Body data) =>
      if negb (truthy data) || (String.length data =? 0) then (user, s)
      else
        let enhancedUser := extractProfile user data in
        (enhancedUser, setProfile (profileKey user) enhancedUser s)
  end.

(** One call, awaited. *)
Definition scrapeUserProfile (user : User) (s : scraper) : User * scraper :=
  let (p, s1) := scrapeUserProfile_begin user s in
  scrapeUserProfile_end (user, p) s1.

(** The calls of a batch once the batch is mapped, from place [k] on: a
    cache hit has returned and waits for nothing; the other calls wait
    for the answers to the requests of number [n] and the following. *)
Fixpoint inFlight (k n : nat) (jobs : list (User * pending User)) : list waiting :=
  match jobs with
  | [] => []
  | (user, Ready cached) :: jobs =>
      Build_waiting k 0 (user, Ready cached) :: inFlight (S k) n jobs
  | (user, Awaiting r) :: jobs =>
      Build_waiting k (arrival n) (user, Awaiting r) :: inFlight (S k) (S n) jobs
  end.

(** A call goes on from its [await] and settles its promise. *)
Definition resume (w : waiting) (s : scraper) : (nat * User) * scraper :=
  let (r, s1) := scrapeUserProfile_end (task w) s in
  ((place w, r), s1).

(** [await Promise.all(batch.map(user => this.scrapeUserProfile(user)))]:
    every call runs to its [await] while the batch is mapped; each one
    then goes on when its own answer comes, and [Promise.all] gives the
    values in the order of the batch. *)
Definition scrapeBatch (batch : list User) (s : scraper) : list User * scraper :=
  let (ps, s1) := forEach scrapeUserProfile_begin batch s in
  let (settled, s2) :=
    forEach resume (byArrival (inFlight 0 (issued s) (combine batch ps))) s1 in
  (inBatchOrder (length batch) settled, s2).

(** The [for] loop of [processUserProfilesInBatches], from index [i]
    with [detailedUsers] collected so far. *)
Fixpoint batchLoop (fuel i : nat) (users detailedUsers : list User) (s : scraper)
    : option (list User * scraper) :=
  match fuel with
  | O => None
  | S fuel =>
      if i <? length users then
        let batch := firstn (batchSize s) (skipn i users) in
        let (batchResults, s1) := scrapeBatch batch s in
        let detailedUsers := detailedUsers ++ batchResults in
        let s2 :=
          if i + batchSize s1 <? length users then sleep (rateLimitDelay s1) s1
          else s1 in
        batchLoop fuel (i + batchSize s2) users detailedUsers s2
      else Some (detailedUsers, s)
  end.

Definition processUserProfilesInBatches (fuel : nat) (users : list User)
    (s : scraper) : option (list User * scraper) :=
  batchLoop fuel 0 users [] s.

(** *** Search page *)

Definition potentialSelectors : list string :=
  [ "div.ldRxiI";
    ("div[data-testid=" +:+ dq +:+ "results-list" +:+ dq +:+ "] > div");
    ".user-list-item";
    ".Box-row";
    ".search-result-item";
    ".user-list > li";
    ".list-item";
    ("[data-hovercard-type=" +:+ dq +:+ "user" +:+ dq +:+ "]");
    ".repo-list > div";
    ".codesearch-results .hx_hit-user";
    ".flex-auto d-flex" ].

Definition userElements (root : node) : list node :=
  let primary := query root "div.iwUbcA" in
  if length primary =? 0 then firstMatch root potentialSelectors primary
  else primary.

(** The callback of [allLinks.each]: a link whose [href] starts with a
    slash and holds no slash gives the username, while none is set. *)
Definition tryLink (acc : string * list node) (link : node) : string * list node :=
  let (username, usernameLink) := acc in
  match attr link "href" with
  | Some href =>
      if truthy href && String.prefix "/" href && negb (includes href "/")
         && String.eqb username EmptyString
      then (trim (text [link]), [link])
      else acc
  | None => acc
  end.

(** [.last()] of a selection. *)
Definition lastOf (l : list node) : list node :=
  match last l with
  | Some n => [n]
  | None => []
  end.

(** The callback of [userElements.each]: the candidate read from one
    element, or nothing when no username is found. *)
Definition candidate (userElement : node) : option User :=
  let username := trim (text (query userElement "span.gbmbF")) in
  let usernameLink := lastOf (query userElement "a.prc-Link-Link-85e08") in
  let (username, usernameLink) :=
    if truthy username then (username, usernameLink)
    else fold_left tryLink (query userElement "a") (username, usernameLink) in
  let (username, usernameLink) :=
    if truthy username then (username, usernameLink)
    else
      let l := query userElement ("a[href*=" +:+ dq +:+ "/" +:+ dq +:+ "].text-bold") in
      let l := if length l =? 0 then query userElement "a.mr-1" else l in
      let l :=
        if length l =? 0
        then query userElement
               ("a[data-hovercard-type=" +:+ dq +:+ "user" +:+ dq +:+ "]")
        else l in
      (trim (text l), l) in
  if truthy username then
    let profileUrl :=
      match usernameLink with
      | n :: _ => attr n "href"
      | [] => None
      end in
    let fullProfileUrl :=
      match profileUrl with
      | Some u =>
          if truthy u && String.prefix "http" u then u
          else "https://github.com" +:+ u
      | None => "https://github.com" +:+ "undefined"
      end in
    let displayName := trim (text (query userElement "span.hYFqef")) in
    let displayName :=
      if truthy displayName then displayName
      else trim (text (query userElement "p.text-gray")) in
    let displayName :=
      if truthy displayName then displayName
      else trim (text (query userElement ".color-fg-muted")) in
    let bio := trim (text (query userElement "span.gKFdvh")) in
    Some (Build_User username (orNull displayName) fullProfileUrl (orNull bio)
                     NoRaw None None)
  else None.

(** The body of the [try] of [scrapeUsersPage] from [cheerio.load(data)]
    on: [users]. *)
Definition extractUsers (data : string) : list User :=
  omap candidate (userElements (load data)).

Definition usersKey (query : string) (page : nat) : string :=
  "users:" +:+ query +:+ ":page:" +:+ pretty page.

Definition usersUrl (query : string) (page : nat) : string :=
  "https://github.com/search?q=" +:+ encodeURIComponent query
    +:+ "&type=users&p=" +:+ pretty page.

(** [scrapeUsersPage] up to [await this.client.get(url)]. *)
Definition scrapeUsersPage_begin (job : string * nat) (s : scraper)
    : pending (list User) * scraper :=
  let (query, page) := job in
  match searchCache s !! usersKey query page with
  | Some cached => (Ready cached, s)
  | None =>
      let (r, s1) := send (usersUrl query page) s in
      (Awaiting r, s1)
  end.

(** [scrapeUsersPage] from the answer on. *)
Definition scrapeUsersPage_end (job : (string * nat) * pending (list User))
    (s : scraper) : list User * scraper :=
  let '((query, page), p) := job in
  match p with
  | Ready cached => (cached, s)
  | Awaiting (NetError _) => ([], s)
  | Awaiting (Body data) =>
      if negb (truthy data) || (String.length data =? 0) then ([], s)
      else
        let users := extractUsers data in
        let s1 := setSearch (usersKey query page) users s in
        (users, sleep (rateLimitDelay s1) s1)
  end.

(** One call, awaited. *)
Definition scrapeUsersPage (query : string) (page : nat) (s : scraper)
    : list User * scraper :=
  let (p, s1) := scrapeUsersPage_begin (query, page) s in
  scrapeUsersPage_end ((query, page), p) s1.

(** [fetchAllUsers]: pages 1 to [pages] are started in turn, their
    answers taken in the order of the pages and flattened. The answers
    may come in any order: the pages have distinct cache keys and equal
    sleeps, so the state they leave is the same in every order. *)
Definition fetchAllUsers (query : string) (pages : nat) (s : scraper)
    : list User * scraper :=
  let jobs := map (fun page => (query, page)) (seq 1 pages) in
  let (ps, s1) := forEach scrapeUsersPage_begin jobs s in
  let (pageResults, s2) := forEach scrapeUsersPage_end (combine jobs ps) s1 in
  (concat pageResults, s2).

Definition testGitHubConnectivity (s : scraper) : completion bool * scraper :=
  let (r, s1) := send "https://github.com/" s in
  match r with
  | NetError message => (Thrown ("Cannot access GitHub: " +:+ message), s1)
  | Body data =>
      if negb (truthy data) || (String.length data =? 0)
      then (Thrown ("Cannot access GitHub: " +:+ "Received empty response from GitHub"), s1)
      else (Returned true, s1)
  end.

(** [!query || typeof query !== 'string' || query.trim().length === 0]. *)
Definition invalid (query : arg) : bool :=
  match query with
  | Str q => negb (truthy q) || false || (String.length (trim q) =? 0)
  | NotAString c _ => negb c || true
  end.

(** The template literal of the first [console.info], which stands
    before the guard and outside the [try]: the error it throws, if it
    throws. *)
Definition interpolate (query : arg) : option string :=
  match query with
  | Str _ => None
  | NotAString _ conversion => conversion
  end.

(** [searchUsers]. [pages] is a number, which the template literal
    always turns into text. An error thrown by the template literal
    rejects the promise of the call; after it, every path resolves with a
    list. *)
Definition searchUsers (fuel : nat) (query : arg) (pages : nat) (s : scraper)
    : option (completion (list User) * scraper) :=
  match interpolate query with
  | Some message => Some (Thrown message, s)
  | None =>
      if invalid query then Some (Returned [], s)
      else
        match query with
        | NotAString _ _ => Some (Returned [], s)
        | Str q =>
            let (c, s1) := testGitHubConnectivity s in
            match c with
            | Thrown _ => Some (Returned [], s1)
            | Returned _ =>
                let (users, s2) := fetchAllUsers q pages s1 in
                if length users =? 0 then Some (Returned [], s2)
                else
                  match processUserProfilesInBatches fuel users s2 with
                  | Some (detailedUsers, s3) => Some (Returned detailedUsers, s3)
                  | None => None
                  end
            end
        end
  end.

(** *** Descriptions used by the statements, with a host *)

(** The record that [scrapeUserProfile] gives for [user] when its
    request is answered by [r]. *)
Definition fetchedRecord (user : User) (r : response) : User :=
  fst (scrapeUserProfile_end (user, Awaiting r) init).

(** The records of [users] when none is cached and their requests are
    number [n] and the following. *)
Fixpoint fetchedFrom (n : nat) (users : list User) : list User :=
  match users with
  | [] => []
  | u :: users => fetchedRecord u (get n (profile_url u)) :: fetchedFrom (S n) users
  end.

(** The records of a batch that starts with the cache [c] and whose
    first request is number [n]: a cached candidate gives its cached
    record and sends nothing. *)
Fixpoint batchRecords (c : gmap string User) (n : nat) (chunk : list User)
    : list User :=
  match chunk with
  | [] => []
  | u :: chunk =>
      match c !! profileKey u with
      | Some cached => cached :: batchRecords c n chunk
      | None =>
          fetchedRecord u (get n (profile_url u)) :: batchRecords c (S n) chunk
      end
  end.

(** [r] is made of the fields of [user], with the error marker of
    [message] in the place of the raw profile data. *)
Definition errorRecord (user : User) (message : string) (r : User) : Prop :=
  raw_data r = ErrorMarker message /\
  username r = username user /\ display_name r = display_name user /\
  profile_url r = profile_url user /\ bio r = bio user /\
  contribution_count r = contribution_count user /\
  pinned_repositories r = pinned_repositories user.

(** [r] is what the call for the candidate [u] returns when [u] has the
    place [j] in the batch [chunk] and the batch starts in the state [w]:
    the cached record if there is one; otherwise its request has the
    number that follows those of the uncached candidates before it in the
    batch, and [r] is read from the answer. *)
Definition recordFor (w : scraper) (chunk : list User) (j : nat) (u r : User) : Prop :=
  match profileCache w !! profileKey u with
  | Some cached => r = cached
  | None =>
      match get (issued w + length (requestsFor (profileCache w) (take j chunk)))
                (profile_url u) with
      | NetError message => errorRecord u message r
      | Body data => r = if truthy data then extractProfile u data else u
      end
  end.

(** The state in which each batch of [chunks] starts when the first one
    starts in [s]: a batch starts in the state that the batch before it
    left, after the sleep between the two. *)
Fixpoint batchStarts (chunks : list (list User)) (s : scraper) : list scraper :=
  match chunks with
  | [] => []
  | chunk :: chunks =>
      let s1 := (scrapeBatch chunk s).2 in
      s :: batchStarts chunks (sleep (rateLimitDelay s1) s1)
  end.

(** The candidates that page [page] gives when its request is answered
    by [r]. *)
Definition fetchedPage (query : string) (page : nat) (r : response) : list User :=
  fst (scrapeUsersPage_end ((query, page), Awaiting r) init).

(** What each of [pages] brings to [fetchAllUsers], where [c] is the
    cache and [n] the number of the next request: a cached page brings
    its cached list and sends nothing. *)
Fixpoint pageContributions (c : gmap string (list User)) (query : string)
    (n : nat) (pages : list nat) : list (list User) :=
  match pages with
  | [] => []
  | page :: pages =>
      match c !! usersKey query page with
      | Some cached => cached :: pageContributions c query n pages
      | None =>
          fetchedPage query page (get n (usersUrl query page))
            :: pageContributions c query (S n) pages
      end
  end.

(** The pages of [pages] that are not cached. *)
Definition uncachedPages (c : gmap string (list User)) (query : string)
    (pages : list nat) : list nat :=
  filter (fun page => c !! usersKey query page = None) pages.

End WithHost.
End GitHubScraper.

(* ===================================================================== *)
(** ** Sample hosts and pages *)
(* ===================================================================== *)

Module Samples.
Import JS GitHubScraper.

(** A small document model: an element lists the selectors it answers
    to, its own text, its attributes and its children. *)
#[warnings="-register-all"] Inductive el :=
  | El (selectors : list string) (txt : string)
       (attrs : list (string * string)) (children : list el).

Definition elSelectors (e : el) : list string :=
  match e with El sels _ _ _ => sels end.
Definition elText (e : el) : string :=
  match e with El _ t _ _ => t end.
Definition elAttrs (e : el) : list (string * string) :=
  match e with El _ _ a _ => a end.

Fixpoint descendants (e : el) : list el :=
  match e with
  | El _ _ _ children =>
      flat_map (fun c => c :: descendants c) children
  end.

Definition elQuery (e : el) (selector : string) : list el :=
  filter (fun d => existsb (String.eqb selector) (elSelectors d) = true)
         (descendants e).

Fixpoint assoc (k : string) (l : list (string * string)) : option string :=
  match l with
  | [] => None
  | (k', v) :: l => if String.eqb k k' then Some v else assoc k l
  end.

(** A result page with three candidates. *)
Definition resultItem (login : string) : el :=
  El ["div.iwUbcA"] EmptyString []
     [ El ["span.gbmbF"] login [] [];
       El ["a.prc-Link-Link-85e08"; "a"] login [("href", "/" +:+ login)] [] ].

Definition resultsPage : el :=
  El [] EmptyString [] [resultItem "ann"; resultItem "bob"; resultItem "cyd"].

(** A profile page: a contributions heading, a followers link and a
    following link. *)
Definition profilePage : el :=
  El [] EmptyString []
     [ El ["h2:contains(" +:+ dq +:+ "contributions" +:+ dq +:+ ")"]
          "1,234 contributions in the last year" [] [];
       El [followersSelector] "1.2k followers" [] [];
       El [followingSelector] "following" [] [] ].

Definition emptyPage : el := El [] EmptyString [] [].

Definition sampleLoad (data : string) : el :=
  if String.eqb data "results" then resultsPage
  else if String.eqb data "profile" then profilePage
  else emptyPage.

#[export] Instance sampleCheerio : Cheerio := {|
  node := el;
  load := sampleLoad;
  query := elQuery;
  text := fun l => String.concat EmptyString (map elText l);
  attr := fun e k => assoc k (elAttrs e);
  next := fun _ => []
|}.

(** Every request is answered with the profile page. *)
Definition steadyHost : Host := {|
  get := fun _ _ => Body "profile";
  arrival := fun n => n;
  encodeURIComponent := fun q => q
|}.

(** No request is answered. *)
Definition downHost : Host := {|
  get := fun _ _ => NetError "ECONNRESET";
  arrival := fun n => n;
  encodeURIComponent := fun q => q
|}.

(** The site answers, page 1 of the search fails, page 2 holds three
    candidates, and the profile of the second candidate fails; of the
    first ten answers a later one comes before an earlier one. *)
Definition flakyHost : Host := {|
  get := fun n url =>
    if String.eqb url "https://github.com/" then Body "home"
    else if String.eqb url "https://github.com/search?q=rust developer&type=users&p=1"
    then NetError "ETIMEDOUT"
    else if String.eqb url "https://github.com/search?q=rust developer&type=users&p=2"
    then Body "results"
    else if String.eqb url "https://github.com/bob" then NetError "ETIMEDOUT"
    else Body "profile";
  arrival := fun n => 10 - n;
  encodeURIComponent := fun q => q
|}.

Definition ann : User :=
  Build_User "ann" None "https://github.com/ann" None NoRaw None None.
Definition bob : User :=
  Build_User "bob" None "https://github.com/bob" None NoRaw None None.
Definition cyd : User :=
  Build_User "cyd" None "https://github.com/cyd" None NoRaw None None.

End Samples.

(* ===================================================================== *)
(** ** Reading the history of the queue *)
(* ===================================================================== *)

Module QueueHistory.
Import AIProcessor.

(** The items submitted by a list of moves, in order. *)
Fixpoint submitted (ins : list input) : list QueueItem :=
  match ins with
  | [] => []
  | Submit p k :: ins => Build_QueueItem p k :: submitted ins
  | _ :: ins => submitted ins
  end.

(** The timers fired by a list of moves. *)
Fixpoint fired (ins : list input) : nat :=
  match ins with
  | [] => 0
  | Fire _ :: ins => S (fired ins)
  | _ :: ins => fired ins
  end.

(** The items dispatched, and those whose handling has ended, in a
    history (newest first, as the history is). *)
Fixpoint dispatchedOf (h : list event) : list QueueItem :=
  match h with
  | [] => []
  | Dispatched item _ :: h => item :: dispatchedOf h
  | _ :: h => dispatchedOf h
  end.

Fixpoint finishedOf (h : list event) : list QueueItem :=
  match h with
  | [] => []
  | Finished item _ :: h => item :: finishedOf h
  | _ :: h => finishedOf h
  end.

(** The calls of [sendToGemini] in a history. *)
Fixpoint sentCount (h : list event) : nat :=
  match h with
  | [] => 0
  | Sent _ _ :: h => S (sentCount h)
  | _ :: h => sentCount h
  end.

Definition frameItem (f : frame) : QueueItem :=
  match f with
  | AwaitSend item _ => item
  | AwaitSleep item _ _ => item
  end.

(** The calls made so far for the item of a frame. *)
Definition callsMade (f : frame) : nat :=
  match f with
  | AwaitSend _ attempts => S attempts
  | AwaitSleep _ attempts _ => attempts
  end.

(** The attempt counter of a frame is below the maximum while the loop
    is suspended. *)
Definition attemptsInRange (f : frame) : Prop :=
  match f with
  | AwaitSend _ attempts => attempts < maxAttempts
  | AwaitSleep _ attempts _ => attempts < maxAttempts
  end.

(** What every reachable state of the loop satisfies. *)
Definition consistent (s : loop) : Prop :=
  singleFlight s /\
  Forall attemptsInRange (frames s) /\
  settledSinks (history s) = map sink (finishedOf (history s)) /\
  dispatchedOf (history s) = map frameItem (frames s) ++ finishedOf (history s) /\
  sentCount (history s)
    <= list_sum (map callsMade (frames s)) + maxAttempts * length (finishedOf (history s)).

End QueueHistory.

(* ===================================================================== *)
(** ** From a profile to its insights: [processUser] *)
(* ===================================================================== *)

Module Prompt.
Import JS AIProcessor GitHubScraper.

Definition nl : string := String LF EmptyString.

(** The callback of [user.pinned_repositories.forEach], from the
    repository of index [index] on. *)
Fixpoint repoLines (index : nat) (repos : list Repo) (content : string) : string :=
  match repos with
  | [] => content
  | repo :: repos =>
      let content :=
        content +:+ pretty (index + 1) +:+ ". " +:+ name repo
          +:+ match language repo with
              | Some l => if truthy l then " (" +:+ l +:+ ")" else EmptyString
              | None => EmptyString
              end
          +:+ nl in
      let content :=
        match description repo with
        | Some d =>
            if truthy d then content +:+ "   Description: " +:+ d +:+ nl
            else content
        | None => content
        end in
      repoLines (S index) repos content
  end.

(** [organizations.join(', ')]. *)
Definition joinComma (l : list string) : string := String.concat ", " l.

(** [prepareUserContent]. The records made by the scraper have no
    [location], so that line is never written. With [raw_data] equal to
    [{}] or to [{ error }] every fact read from it is undefined. *)
Definition prepareUserContent (user : User) : string :=
  let content := "GitHub Username: " +:+ username user +:+ nl in
  let content :=
    match display_name user with
    | Some d => if truthy d then content +:+ "Display Name: " +:+ d +:+ nl else content
    | None => content
    end in
  let content :=
    match bio user with
    | Some b => if truthy b then content +:+ "Bio: " +:+ b +:+ nl else content
    | None => content
    end in
  let content :=
    match contribution_count user with
    | Some c =>
        if truthy c then content +:+ "Contribution Count: " +:+ c +:+ nl else content
    | None => content
    end in
  let content :=
    match pinned_repositories user with
    | Some repos =>
        if 0 <? length repos
        then repoLines 0 repos (content +:+ nl +:+ "Pinned Repositories:" +:+ nl)
        else content
    | None => content
    end in
  match raw_data user with
  | Facts followers following organizations profile_readme =>
      let content :=
        if truthy followers then content +:+ nl +:+ "Followers: " +:+ followers +:+ nl
        else content in
      let content :=
        if truthy following then content +:+ "Following: " +:+ following +:+ nl
        else content in
      let content :=
        if 0 <? length organizations
        then content +:+ "Organizations: " +:+ joinComma organizations +:+ nl
        else content in
      match profile_readme with
      | Some r =>
          if truthy r then content +:+ nl +:+ "Profile README:" +:+ nl +:+ r +:+ nl
          else content
      | None => content
      end
  | _ => content
  end.

(** The fixed text of [createPrompt] before and after the content; the
    key names of the last sentence are written between double quotes. *)
Definition promptHead : string :=
  nl +:+ "Analyze the following GitHub user profile and provide structured insights:"
     +:+ nl +:+ nl.

Definition promptTail : string :=
  nl +:+ nl
  +:+ "Based on the information above, please provide a structured analysis with the following:"
  +:+ nl +:+ nl
  +:+ "1. Primary skills (as a comma-separated list)" +:+ nl
  +:+ "2. Tech stack (specific technologies and frameworks they seem familiar with)" +:+ nl
  +:+ "3. Experience level (beginner, intermediate, advanced, or expert)" +:+ nl
  +:+ "4. Notable contributions or focus areas" +:+ nl
  +:+ "5. Brief professional summary (2-3 sentences)" +:+ nl +:+ nl
  +:+ "Format the response as a JSON object with keys: "
  +:+ dq +:+ "primary_skills" +:+ dq +:+ ", "
  +:+ dq +:+ "tech_stack" +:+ dq +:+ ", "
  +:+ dq +:+ "experience_level" +:+ dq +:+ ", "
  +:+ dq +:+ "notable_contributions" +:+ dq +:+ ", and "
  +:+ dq +:+ "professional_summary" +:+ dq +:+ "." +:+ nl +:+ "    ".

Definition createPrompt (userContent : string) : string :=
  promptHead +:+ userContent +:+ promptTail.

(** What [axios.post] gives [sendToGemini]: an error, or a response
    whose [data?.candidates?.[0]?.content?.parts?.[0]?.text] is
    [content] ([None] when a link of the chain is missing). *)
Inductive reply :=
  | AxiosError (message : string)
  | Reply (content : option string).

(** [sendToGemini], from the answer of [axios.post] on. *)
Definition sendToGemini (r : reply) : outcome :=
  match r with
  | AxiosError message => Failed message
  | Reply None => Failed "Empty response from Gemini"
  | Reply (Some content) =>
      if truthy content then Fulfilled content
      else Failed "Empty response from Gemini"
  end.

Section WithJSON.
Context {J : JSON}.

(** What [processUser] returns: the insights, or
    [{ error, status: 'error', timestamp }]. *)
Inductive UserInsight :=
  | Insights (i : Insight J)
  | Failure (error status timestamp : string).

(** [processUser], for an item that the queue handles with [replies]
    as the answers of [axios.post], call after call. [None] when the
    promise of [queueAIRequest] is never settled. *)
Definition processUser (fuel rateLimitDelay : nat) (user : User)
    (replies : nat -> reply) (now : string) : option UserInsight :=
  let userContent := prepareUserContent user in
  let p := createPrompt userContent in
  match handleItem fuel rateLimitDelay (Build_QueueItem p 0)
          (fun n => sendToGemini (replies n)) with
  | Some acts =>
      match settlements acts with
      | [DoResolve aiResponse] => Some (Insights (parseAIResponse aiResponse now))
      | [DoReject error] => Some (Failure error "error" now)
      | _ => None
      end
  | None => None
  end.

End WithJSON.

Arguments UserInsight : clear implicits.

End Prompt.

(* ===================================================================== *)
(** ** Request and result history: [DataStore] *)
(* ===================================================================== *)

Module DataStore.

(** An entry of the request history. *)
Record Request := {
  id : string;
  query : string;
  pages : nat;
  timestamp : string;
  status : string;
  completed_at : option string;
  result_count : option nat
}.

(** [JSON.stringify(data, null, 2)] and [JSON.parse] on the two lists
    the store keeps ([None] when [JSON.parse] throws). [Result] is the
    kind of object [app.js] saves. A file whose text parses to something
    that is not a list of such entries is outside the model. *)
Class Codec (Result : Type) := {
  stringifyRequests : list Request -> string;
  parseRequests : string -> option (list Request);
  stringifyResults : list Result -> string;
  parseResults : string -> option (list Result)
}.

Section WithCodec.
Context {Result : Type} {K : Codec Result}.

(** The two files, relative to the directory of the application. *)
Definition requestsFile : string := "data/requests.json".
Definition resultsFile : string := "data/results.json".

(** The object's lists and the files of the disk. *)
Record store := Store {
  requests : list Request;
  results : list Result;
  files : gmap string string
}.

(** [loadFromFile]: the default when the file is missing or cannot be
    parsed. *)
Definition loadFromFile {A : Type} (parse : string -> option A)
    (disk : gmap string string) (file : string) (defaultValue : A) : A :=
  match disk !! file with
  | Some data =>
      match parse data with
      | Some v => v
      | None => defaultValue
      end
  | None => defaultValue
  end.

(** [new DataStore()] on a disk. *)
Definition construct (disk : gmap string string) : store :=
  Store (loadFromFile parseRequests disk requestsFile [])
        (loadFromFile parseResults disk resultsFile [])
        disk.

(** [saveToFile]: [written] tells whether [fs.writeFileSync] succeeds;
    its error is caught and logged. *)
Definition saveToFile (file data : string) (written : bool)
    (disk : gmap string string) : gmap string string :=
  if written then <[file := data]> disk else disk.

(** [logRequest]: [requestId] is [crypto.randomBytes(16).toString('hex')]
    and [now] is [new Date().toISOString()]. *)
Definition logRequest (requestId now q : string) (n : nat) (written : bool)
    (s : store) : string * store :=
  let request := Build_Request requestId q n now "pending" None None in
  let requests' := requests s ++ [request] in
  (requestId,
   Store requests' (results s)
         (saveToFile requestsFile (stringifyRequests requests') written (files s))).

(** [saveResults]: the push and the save; the log line that follows
    them throws, and the empty [catch] swallows it. *)
Definition saveResults (result : Result) (written : bool) (s : store) : store :=
  let results' := results s ++ [result] in
  Store (requests s) results'
        (saveToFile resultsFile (stringifyResults results') written (files s)).

Definition getRequestHistory (s : store) : list Request := requests s.

(** The calls made on a store. *)
Inductive call :=
  | LogRequest (requestId now q : string) (n : nat) (written : bool)
  | SaveResults (result : Result) (written : bool).

Definition perform (c : call) (s : store) : store :=
  match c with
  | LogRequest requestId now q n written =>
      (logRequest requestId now q n written s).2
  | SaveResults result written => saveResults result written s
  end.

(** Each file holds the list of the object as it was last written, or
    is as the constructor read it. *)
Definition saved (s : store) : Prop :=
  (files s !! requestsFile = Some (stringifyRequests (requests s)) \/
   loadFromFile parseRequests (files s) requestsFile [] = requests s) /\
  (files s !! resultsFile = Some (stringifyResults (results s)) \/
   loadFromFile parseResults (files s) resultsFile [] = results s).

(** The store after a list of calls. *)
Definition performAll (cs : list call) (s : store) : store :=
  fold_left (fun s c => perform c s) cs s.

(** The entries that a list of calls adds to the request history. *)
Fixpoint logged (cs : list call) : list Request :=
  match cs with
  | [] => []
  | LogRequest requestId now q n _ :: cs =>
      Build_Request requestId q n now "pending" None None :: logged cs
  | SaveResults _ _ :: cs => logged cs
  end.

(** Every write of a list of calls succeeds. *)
Definition allWritten (cs : list call) : Prop :=
  Forall (fun c => match c with
                   | LogRequest _ _ _ _ written => written = true
                   | SaveResults _ written => written = true
                   end) cs.

End WithCodec.
End DataStore.

(* ===================================================================== *)
(** ** More samples *)
(* ===================================================================== *)

Module MoreSamples.
Import AIProcessor.

(** A parser that knows one block. *)
Definition oneJSON : JSON := {|
  object := nat;
  JSON_parse := fun b => if String.eqb b "{1}" then Some 1 else None
|}.

(** A codec of lines for the store: one entry on each line, its fields
    between bars, numbers in unary. It gives back the lists whose texts
    hold neither a bar nor a line feed. *)
Definition unary (n : nat) : string := string_of_list_ascii (repeat "i"%char n).

Definition field (o : option string) : string :=
  match o with
  | None => "-"
  | Some s => "+" +:+ s
  end.

Definition unfield (s : string) : option (option string) :=
  match s with
  | String "-"%char EmptyString => Some None
  | String "+"%char r => Some (Some r)
  | _ => None
  end.

Definition line (r : DataStore.Request) : string :=
  DataStore.id r +:+ "|" +:+ DataStore.query r +:+ "|"
    +:+ unary (DataStore.pages r) +:+ "|" +:+ DataStore.timestamp r +:+ "|"
    +:+ DataStore.status r +:+ "|" +:+ field (DataStore.completed_at r) +:+ "|"
    +:+ field (option_map unary (DataStore.result_count r)).

Definition unline (s : string) : option DataStore.Request :=
  match JS.split "|"%char s with
  | [i; q; p; t; st; c; n] =>
      match unfield c, unfield n with
      | Some c, Some n =>
          Some (DataStore.Build_Request i q (String.length p) t st c
                  (option_map String.length n))
      | _, _ => None
      end
  | _ => None
  end.

Definition lines (l : list string) : string := String.concat (String JS.LF EmptyString) l.

Definition unlines {A : Type} (f : string -> option A) (s : string) : option (list A) :=
  if String.eqb s EmptyString then Some [] else mapM f (JS.split JS.LF s).

Definition lineCodec : DataStore.Codec nat := {|
  DataStore.stringifyRequests := fun l => lines (map line l);
  DataStore.parseRequests := unlines unline;
  DataStore.stringifyResults := fun l => lines (map unary l);
  DataStore.parseResults := unlines (fun s => Some (String.length s))
|}.

(** Three answers without content. *)
Definition emptyReplies (n : nat) : Prompt.reply := Prompt.Reply None.

End MoreSamples.

(* ===================================================================== *)
(** ** Properties of the enrichment queue *)
(* ===================================================================== *)

Section QueueProperties.
Import AIProcessor.

Lemma processQueue_guard (s : loop) :
  processingQueue s = true -> processQueue s = s.
Proof. intros Hflag. unfold processQueue. now rewrite Hflag. Qed.

Lemma processQueue_singleFlight (s : loop) :
  singleFlight s -> singleFlight (processQueue s).
Proof.
  intros Inv. pose proof Inv as [Hlen Hidle]. unfold processQueue.
  destruct (processingQueue s) eqn:Hflag; simpl; [exact Inv|].
  destruct (requestQueue s) as [|item rest]; simpl; [exact Inv|].
  rewrite (Hidle eq_refl). split; simpl; [lia | discriminate].
Qed.

Lemma singleFlight_lookup (s : loop) (i : nat) (f : frame) :
  singleFlight s -> frames s !! i = Some f ->
  i = 0 /\ frames s = [f] /\ processingQueue s = true.
Proof.
  intros [Hlen Hidle] Hi.
  destruct (frames s) as [|f0 [|f1 l]] eqn:Hfr.
  - now rewrite lookup_nil in Hi.
  - destruct i as [|i]; [|now rewrite lookup_cons, lookup_nil in Hi].
    injection Hi as ->. repeat split.
    destruct (processingQueue s); [done|]. now specialize (Hidle eq_refl).
  - simpl in Hlen. lia.
Qed.

Lemma step_singleFlight (a : input) (s s' : loop) :
  singleFlight s -> step a s = Some s' -> singleFlight s'.
Proof.
  intros Inv Hstep. destruct a as [p k|i o|i|i|dt]; simpl in Hstep.
  - injection Hstep as <-. apply processQueue_singleFlight. exact Inv.
  - destruct (frames s !! i) as [[item attempts|? ? ?]|] eqn:Hi; try discriminate.
    destruct (singleFlight_lookup _ _ _ Inv Hi) as (-> & Hfr & Hflag).
    destruct (onAttempt _ _ _); injection Hstep as <-;
      unfold finally, settle, setFrame, singleFlight; simpl;
      rewrite ?Hfr, ?Hflag; simpl; split; (lia || done).
  - destruct (frames s !! i) as [[? ?|item attempts wake]|] eqn:Hi; try discriminate.
    destruct (singleFlight_lookup _ _ _ Inv Hi) as (-> & Hfr & Hflag).
    destruct (wake <=? clock s); [|discriminate].
    destruct (attempts <? maxAttempts); injection Hstep as <-;
      unfold finally, singleFlight; simpl;
      rewrite ?Hfr, ?Hflag; simpl; split; (lia || done).
  - destruct (timers s !! i) as [due|]; [|discriminate].
    destruct (due <=? clock s); [|discriminate].
    injection Hstep as <-. apply processQueue_singleFlight. exact Inv.
  - injection Hstep as <-. exact Inv.
Qed.

Lemma run_singleFlight (ins : list input) (s s' : loop) :
  singleFlight s -> run ins s = Some s' -> singleFlight s'.
Proof.
  revert s. induction ins as [|a ins IH]; intros s Inv Hrun; simpl in Hrun.
  - now injection Hrun as <-.
  - destruct (step a s) as [s1|] eqn:Hstep; [|discriminate].
    eapply IH; [|exact Hrun]. eapply step_singleFlight; eauto.
Qed.

Lemma init_singleFlight : singleFlight init.
Proof. split; simpl; [lia | done]. Qed.

Lemma inflight_le_frames (s : loop) : inflight s <= length (frames s).
Proof. unfold inflight. apply length_filter. Qed.

Lemma submitAll_while_busy (items : list QueueItem) (s : loop) :
  processingQueue s = true ->
  run (submitAll items) s =
    Some (Loop (requestQueue s ++ items) true (rateLimitDelay s) (frames s)
               (timers s) (clock s) (history s)).
Proof.
  revert s. induction items as [|[p k] items IH]; intros s Hflag; simpl.
  - rewrite app_nil_r, <- Hflag. now destruct s.
  - unfold queueAIRequest. rewrite processQueue_guard by exact Hflag.
    rewrite IH by exact Hflag. simpl. now rewrite <- app_assoc.
Qed.

(** C1. Whatever has been submitted, answered, woken, fired or waited
    for since the processor was made, at most one call to the generation
    API is in flight; [processQueue] called while the flag is up changes
    nothing; and any number of items submitted while an item is being
    handled only lengthen the queue: the frames, and so the call in
    flight, stay as they are and nothing is dispatched. *)
Theorem C1_single_flight (ins : list input) (s : loop) :
  run ins init = Some s ->
  inflight s <= 1 /\
  length (frames s) <= 1 /\
  (processingQueue s = true -> processQueue s = s) /\
  (forall items : list QueueItem,
      frames s <> [] ->
      exists s',
        run (submitAll items) s = Some s' /\
        requestQueue s' = requestQueue s ++ items /\
        frames s' = frames s /\
        inflight s' = inflight s /\
        history s' = history s).
Proof.
  intros Hrun.
  pose proof (run_singleFlight _ _ _ init_singleFlight Hrun) as Inv.
  split; [|split; [|split]].
  - pose proof (inflight_le_frames s). destruct Inv. lia.
  - now destruct Inv.
  - apply processQueue_guard.
  - intros items Hbusy.
    assert (Hflag : processingQueue s = true).
    { destruct (processingQueue s) eqn:Hflag; [done|].
      destruct Inv as [_ Hidle]. now specialize (Hidle Hflag). }
    eexists. split; [apply submitAll_while_busy; exact Hflag|].
    simpl. repeat split.
Qed.

(** C1 at work: three items submitted one after the other; the first is
    in flight, two wait. *)
Lemma C1_single_flight_witness :
  exists s,
    run (submitAll [Build_QueueItem "a" 0; Build_QueueItem "b" 1;
                    Build_QueueItem "c" 2]) init = Some s /\
    inflight s <= 1.
Proof.
  eexists. split; [reflexivity|].
  apply (C1_single_flight
           (submitAll [Build_QueueItem "a" 0; Build_QueueItem "b" 1;
                       Build_QueueItem "c" 2]) _ eq_refl).
Defined.

Lemma submit_settles_nothing (p : string) (k : nat) (s : loop) :
  filter isSettled (history (queueAIRequest p k s)) = filter isSettled (history s).
Proof.
  unfold queueAIRequest, processQueue. simpl.
  destruct (processingQueue s); simpl; [done|].
  destruct (requestQueue s ++ [Build_QueueItem p k]) as [|item rest]; simpl; done.
Qed.

Lemma step_respond (s : loop) (item : QueueItem) (attempts : nat) (o : outcome) :
  frames s = [AwaitSend item attempts] ->
  step (Respond 0 o) s =
    match onAttempt (rateLimitDelay s) attempts o with
    | Break response =>
        Some (finally 0 item (settle (sink item) (Resolved response) s))
    | Throw error =>
        Some (finally 0 item (settle (sink item) (Rejected error) s))
    | Retry attempts retryDelay =>
        Some (setFrame 0 (AwaitSleep item attempts (clock s + retryDelay))
                       (record (Backoff item retryDelay (clock s)) s))
    end.
Proof. intros Hfr. unfold step. now rewrite Hfr. Qed.

(** From a call in flight to the end of the item. The call itself has
    been recorded when it was sent; [tail] is what follows it. *)
Lemma script_runs (item : QueueItem) (api : nat -> outcome) (d : nat) :
  forall fuel attempts calls s,
    attempts < maxAttempts -> maxAttempts - attempts <= fuel ->
    frames s = [AwaitSend item attempts] -> rateLimitDelay s = d ->
    exists s' tail new,
      attemptLoop fuel d attempts (prompt item) api calls
        = Some (Call (prompt item) :: tail) /\
      run (script fuel d attempts api calls) s = Some s' /\
      history s' = new ++ history s /\
      actionsOf (rev new) = tail /\
      settledSinks new = [sink item] /\
      frames s' = [] /\ processingQueue s' = false /\
      requestQueue s' = requestQueue s.
Proof.
  induction fuel as [|fuel IH]; intros attempts calls s Hlt Hfuel Hfr Hd; [lia|].
  cbn [attemptLoop script].
  apply Nat.ltb_lt in Hlt as Hltb. rewrite Hltb.
  pose proof (step_respond s item attempts (api calls) Hfr) as Hstep.
  rewrite Hd in Hstep.
  destruct (onAttempt d attempts (api calls)) as [response|error|attempts' retryDelay]
    eqn:Hon; cbn [run]; rewrite Hstep.
  - do 2 eexists.
    exists [Finished item (clock s); Settled (sink item) (Resolved response) (clock s)].
    unfold finally, settle, record; cbn. rewrite Hfr. now repeat split.
  - do 2 eexists.
    exists [Finished item (clock s); Settled (sink item) (Rejected error) (clock s)].
    unfold finally, settle, record; cbn. rewrite Hfr. now repeat split.
  - assert (Hnext : attempts' = S attempts /\ attempts' < maxAttempts).
    { unfold onAttempt in Hon. destruct (api calls); [discriminate|].
      destruct (maxAttempts <=? S attempts) eqn:Hmax; [discriminate|].
      injection Hon as <- _. apply Nat.leb_gt in Hmax. split; [reflexivity|lia]. }
    destruct Hnext as [-> Hlt'].
    set (s3 := Loop (requestQueue s) (processingQueue s) d
                    [AwaitSend item (S attempts)] (timers s)
                    (clock s + retryDelay)
                    (Sent item (clock s + retryDelay)
                       :: Backoff item retryDelay (clock s) :: history s)).
    assert (Hsteps : run [Tick retryDelay; Wake 0]
                         (setFrame 0 (AwaitSleep item (S attempts) (clock s + retryDelay))
                                   (record (Backoff item retryDelay (clock s)) s))
                     = Some s3).
    { unfold setFrame, record. cbn [run step frames clock]. rewrite Hfr.
      cbn. rewrite Nat.leb_refl. apply Nat.ltb_lt in Hlt'. cbn in Hlt'.
      rewrite Hlt'. now rewrite Hd. }
    destruct (IH (S attempts) (S calls) s3) as
      (s' & tail & new & Hloop & Hrun & Hhist & Hacts & Hsinks & Hfr' & Hflag' & Hq');
      [exact Hlt' | lia | reflexivity | reflexivity |].
    rewrite Hloop.
    exists s', (Sleep retryDelay :: Call (prompt item) :: tail),
      (new ++ [Sent item (clock s + retryDelay); Backoff item retryDelay (clock s)]).
    split; [reflexivity|]. split.
    { change (Tick retryDelay :: Wake 0 :: script fuel d (S attempts) api (S calls))
        with ([Tick retryDelay; Wake 0] ++ script fuel d (S attempts) api (S calls)).
      cbn [run app] in Hsteps |- *.
      destruct (step (Tick retryDelay) _) as [s1|]; [|discriminate].
      destruct (step (Wake 0) s1) as [s2|]; [|discriminate].
      now injection Hsteps as ->. }
    split; [rewrite Hhist; cbn; now rewrite <- app_assoc|].
    split; [rewrite rev_app_distr; cbn; now rewrite Hacts|].
    split; [|now repeat split].
    clear -Hsinks. induction new as [|e new IHn]; [discriminate|].
    destruct e; cbn in *; auto.
    injection Hsinks as -> Hnil. f_equal.
    clear -Hnil. induction new as [|e new IHn]; [reflexivity|].
    destruct e; cbn in *; auto; discriminate.
Qed.

(** The event loop and [handleItem] agree: an item at the head of an
    idle queue is dispatched by [processQueue], and the moves of [script]
    carry it to its end with the actions of [handleItem], settling its
    promise and no other, and leaving the queue idle again. *)
Lemma loop_runs_handleItem (s : loop) (item : QueueItem) (rest : list QueueItem)
    (api : nat -> outcome) (fuel : nat) :
  maxAttempts <= fuel ->
  processingQueue s = false -> frames s = [] -> requestQueue s = item :: rest ->
  exists s' acts new,
    run (script fuel (rateLimitDelay s) 0 api 0) (processQueue s) = Some s' /\
    handleItem fuel (rateLimitDelay s) item api = Some acts /\
    history s' = new ++ history s /\
    actionsOf (rev new) = acts /\
    settledSinks new = [sink item] /\
    frames s' = [] /\ processingQueue s' = false /\ requestQueue s' = rest.
Proof.
  intros Hfuel Hflag Hfr Hq.
  assert (Hdispatch : processQueue s =
            Loop rest true (rateLimitDelay s) [AwaitSend item 0] (timers s) (clock s)
                 (Sent item (clock s) :: Dispatched item (clock s) :: history s)).
  { unfold processQueue. now rewrite Hflag, Hq, Hfr. }
  rewrite Hdispatch.
  destruct (script_runs item api (rateLimitDelay s) fuel 0 0
              (Loop rest true (rateLimitDelay s) [AwaitSend item 0] (timers s)
                    (clock s)
                    (Sent item (clock s) :: Dispatched item (clock s) :: history s)))
    as (s' & tail & new & Hloop & Hrun & Hhist & Hacts & Hsinks & Hfr' & Hflag' & Hq');
    [unfold maxAttempts; lia | lia | reflexivity | reflexivity |].
  exists s', (Call (prompt item) :: tail),
    (new ++ [Sent item (clock s); Dispatched item (clock s)]).
  split; [exact Hrun|]. split; [exact Hloop|].
  split; [rewrite Hhist; cbn; now rewrite <- app_assoc|].
  split; [rewrite rev_app_distr; cbn; now rewrite Hacts|].
  split; [|now repeat split].
  clear -Hsinks. revert Hsinks. generalize [sink item].
  induction new as [|e new IHn]; intros l Hl; [now subst l|].
  destruct e; cbn in *; auto.
  destruct l as [|k l]; [discriminate|]. injection Hl as -> Hl. f_equal. now apply IHn.
Qed.

Ltac api_cases api :=
  repeat match goal with
  | H : forall k, k < _ -> exists e, api k = Failed e |- _ =>
      let H0 := fresh in let H1 := fresh in
      try (assert (H0 : exists e, api 0 = Failed e) by (apply H; lia));
      try (assert (H1 : exists e, api 1 = Failed e) by (apply H; lia));
      clear H
  | H : exists e, api _ = Failed e |- _ => destruct H as [? H]
  end.



(** C6, evaluated. The first item is answered at time 250, and its
    submitter sends the next one at once, as the loop over the users in
    [app.js] does: [processQueue] finds the flag already down and
    dispatches at time 250 too, with no delay at all after the end of
    the first dispatch. *)
Theorem C6_redispatch_without_delay :
  exists s,
    run [Submit "first" 0; Tick 250; Respond 0 (Fulfilled "text");
         Submit "second" 1] init = Some s /\
    history s =
      [ Sent (Build_QueueItem "second" 1) 250;
        Dispatched (Build_QueueItem "second" 1) 250;
        Finished (Build_QueueItem "first" 0) 250;
        Settled 0 (Resolved "text") 250;
        Sent (Build_QueueItem "first" 0) 0;
        Dispatched (Build_QueueItem "first" 0) 0 ] /\
    rateLimitDelay s = 1000 /\
    minDelayRespected s = false.
Proof. eexists. repeat split. Qed.

(** C10. When the call in flight comes back with a response, or fails
    on the last attempt, the activation ends: the promise is settled, the
    flag is down, no frame is left and a timer for [processQueue] is set
    [rateLimitDelay] ahead. The queue is not stalled: an item submitted
    next is queued and the head of the queue is dispatched at once, and
    if nothing is submitted the timer, once due, dispatches the head of
    the queue. *)
Theorem C10_exit_rearms (ins : list input) (s : loop) (i : nat)
    (item : QueueItem) (attempts : nat) (o : outcome) :
  run ins init = Some s ->
  frames s !! i = Some (AwaitSend item attempts) ->
  (forall e, o = Failed e -> maxAttempts <= S attempts) ->
  exists s',
    step (Respond i o) s = Some s' /\
    processingQueue s' = false /\
    frames s' = [] /\
    timers s' = timers s ++ [clock s + rateLimitDelay s] /\
    requestQueue s' = requestQueue s /\
    (exists r,
        history s' =
          Finished item (clock s) :: Settled (sink item) r (clock s) :: history s /\
        match o with
        | Fulfilled response => r = Resolved response
        | Failed error => r = Rejected error
        end) /\
    (forall p k, exists next rest,
        requestQueue s ++ [Build_QueueItem p k] = next :: rest /\
        frames (queueAIRequest p k s') = [AwaitSend next 0] /\
        requestQueue (queueAIRequest p k s') = rest) /\
    (forall next rest dt,
        requestQueue s = next :: rest -> rateLimitDelay s <= dt ->
        exists s'',
          run [Tick dt; Fire (length (timers s))] s' = Some s'' /\
          frames s'' = [AwaitSend next 0] /\
          requestQueue s'' = rest).
Proof.
  intros Hrun Hi Hlast.
  pose proof (run_singleFlight _ _ _ init_singleFlight Hrun) as Inv.
  destruct (singleFlight_lookup _ _ _ Inv Hi) as (-> & Hfr & Hflag).
  assert (Hstep : exists r,
             step (Respond 0 o) s = Some (finally 0 item (settle (sink item) r s)) /\
             match o with
             | Fulfilled response => r = Resolved response
             | Failed error => r = Rejected error
             end).
  { unfold step. rewrite Hi. destruct o as [response|error]; unfold onAttempt.
    - now exists (Resolved response).
    - specialize (Hlast error eq_refl). apply Nat.leb_le in Hlast.
      rewrite Hlast. now exists (Rejected error). }
  destruct Hstep as (r & Hstep & Hr).
  eexists. split; [exact Hstep|].
  unfold finally, settle; simpl. rewrite Hfr. simpl.
  repeat split.
  - exists r. now split.
  - intros p k. unfold queueAIRequest, processQueue; simpl.
    destruct (requestQueue s) as [|next rest] eqn:Hq; simpl.
    + exists (Build_QueueItem p k), []. repeat split.
    + exists next, (rest ++ [Build_QueueItem p k]). repeat split.
  - intros next rest dt Hq Hdt. simpl.
    rewrite list_lookup_middle by reflexivity.
    assert (Hdue : (clock s + rateLimitDelay s <=? clock s + dt) = true)
      by (apply Nat.leb_le; lia).
    rewrite Hdue. unfold processQueue; simpl. rewrite Hq; simpl.
    eexists. split; [reflexivity|]. simpl. now split.
Qed.

(** C10 at work: the third failure of the only item. *)
Lemma C10_exit_rearms_witness :
  let item := Build_QueueItem "p" 0 in
  let s :=
    Loop [] true 1000 [AwaitSend item 2] [] 3000
         [Sent item 3000; Backoff item 2000 1000; Sent item 1000;
          Backoff item 1000 0; Sent item 0; Dispatched item 0] in
  run [Submit "p" 0; Respond 0 (Failed "503"); Tick 1000; Wake 0;
       Respond 0 (Failed "503"); Tick 2000; Wake 0] init = Some s /\
  exists s',
    step (Respond 0 (Failed "503")) s = Some s' /\ processingQueue s' = false.
Proof.
  intros item s.
  assert (Hrun : run [Submit "p" 0; Respond 0 (Failed "503"); Tick 1000; Wake 0;
                      Respond 0 (Failed "503"); Tick 2000; Wake 0] init = Some s)
    by (vm_compute; reflexivity).
  split; [exact Hrun|].
  destruct (C10_exit_rearms _ s 0 item 2 (Failed "503") Hrun eq_refl)
    as (s' & Hstep & Hflag & _).
  - intros e _. unfold maxAttempts. lia.
  - exists s'. split; assumption.
Defined.

End QueueProperties.

(* ===================================================================== *)
(** ** Properties of the response parser *)
(* ===================================================================== *)

Section ParserProperties.
Import JS AIProcessor.

Lemma fromFirst_Some (c : ascii) (s t : string) :
  fromFirst c s = Some t ->
  exists pre rest, s = pre +:+ String c rest /\ t = String c rest.
Proof.
  revert t. induction s as [|a s IH]; intros t Hs; simpl in Hs; [discriminate|].
  destruct (Ascii.eqb_spec a c) as [->|Hne].
  - injection Hs as <-. now exists EmptyString, s.
  - destruct (IH _ Hs) as (pre & rest & -> & ->).
    now exists (String a pre), rest.
Qed.

Lemma fromFirst_app (c : ascii) (pre rest : string) :
  occurs c pre = false ->
  fromFirst c (pre +:+ String c rest) = Some (String c rest).
Proof.
  induction pre as [|a pre IH]; simpl; intros Hpre.
  - now rewrite Ascii.eqb_refl.
  - apply orb_false_iff in Hpre as [Ha Hpre]. rewrite Ha. now apply IH.
Qed.

Lemma upToLast_Some (c : ascii) (s t : string) :
  upToLast c s = Some t ->
  exists mid post, t = mid +:+ String c EmptyString /\ s = mid +:+ String c post.
Proof.
  revert t. induction s as [|a s IH]; intros t Hs; simpl in Hs; [discriminate|].
  destruct (upToLast c s) as [t'|] eqn:Ht'.
  - injection Hs as <-. destruct (IH _ eq_refl) as (mid & post & -> & ->).
    now exists (String a mid), post.
  - destruct (Ascii.eqb_spec a c) as [->|Hne]; [|discriminate].
    injection Hs as <-. now exists EmptyString, s.
Qed.

Lemma upToLast_None (c : ascii) (s : string) :
  occurs c s = false -> upToLast c s = None.
Proof.
  induction s as [|a s IH]; simpl; intros Hs; [reflexivity|].
  apply orb_false_iff in Hs as [Ha Hs]. now rewrite IH, Ha.
Qed.

Lemma upToLast_app (c : ascii) (mid post : string) :
  occurs c post = false ->
  upToLast c (mid +:+ String c post) = Some (mid +:+ String c EmptyString).
Proof.
  intros Hpost. induction mid as [|a mid IH]; simpl.
  - now rewrite upToLast_None, Ascii.eqb_refl.
  - now rewrite IH.
Qed.

(** The block is there exactly when a closing brace follows the first
    opening brace; it runs from that brace to the last closing one. *)
Lemma jsonMatch_Some (text block : string) :
  jsonMatch text = Some block ->
  exists pre mid post,
    text = pre +:+ String "{" (mid +:+ String "}" post) /\
    block = String "{" (mid +:+ String "}" EmptyString).
Proof.
  unfold jsonMatch. intros Hm.
  destruct (fromFirst "{" text) as [t|] eqn:Ht; [|discriminate].
  destruct (fromFirst_Some _ _ _ Ht) as (pre & rest & -> & ->).
  simpl in Hm. destruct (upToLast "}" rest) as [t'|] eqn:Ht'; [|discriminate].
  injection Hm as <-.
  destruct (upToLast_Some _ _ _ Ht') as (mid & post & -> & ->).
  now exists pre, mid, post.
Qed.

Lemma jsonMatch_block (pre mid post : string) :
  occurs "{" pre = false -> occurs "}" post = false ->
  jsonMatch (pre +:+ String "{" (mid +:+ String "}" post))
    = Some (String "{" (mid +:+ String "}" EmptyString)).
Proof.
  intros Hpre Hpost. unfold jsonMatch. rewrite fromFirst_app by exact Hpre.
  simpl. now rewrite upToLast_app.
Qed.

(** C4 does not hold as the specification words it. A response whose
    braces hold something [JSON.parse] refuses gets the error variant, not
    the five sections. *)
Lemma C4_unparsable_block_is_an_error :
  ~ (forall (J : JSON) (text now : string),
        (jsonMatch text = None \/
         exists block, jsonMatch text = Some block /\ JSON_parse block = None) ->
        isSections (parseAIResponse text now) = true).
Proof.
  intros Hclaim.
  specialize (Hclaim {| object := unit; JSON_parse := fun _ => None |}
                     "Skills: {oops}" "2025-01-01T00:00:00.000Z").
  assert (Hblock : jsonMatch "Skills: {oops}" = Some "{oops}") by reflexivity.
  discriminate Hclaim.
  right. exists "{oops}". now split.
Qed.

(** C4, amended. A response in which no closing brace follows an
    opening brace is read by the scan of the five labelled sections. A
    response with a block, from its first opening brace to its last
    closing brace, that [JSON.parse] refuses gets the error variant,
    which carries the raw text; the sections are not scanned. *)
Theorem C4_fallback_only_without_block (J : JSON) (text now : string) :
  ((forall pre mid post, text <> pre +:+ String "{" (mid +:+ String "}" post)) ->
   parseAIResponse text now =
     Sections (extractSection (split LF text) "Primary skills")
              (extractSection (split LF text) "Tech stack")
              (extractSection (split LF text) "Experience level")
              (extractSection (split LF text) "Notable contributions")
              (extractSection (split LF text) "Brief professional summary")
              text now) /\
  (forall pre mid post,
      text = pre +:+ String "{" (mid +:+ String "}" post) ->
      occurs "{" pre = false -> occurs "}" post = false ->
      JSON_parse (String "{" (mid +:+ String "}" EmptyString)) = None ->
      parseAIResponse text now = ParseError "Failed to parse AI response" text now).
Proof.
  unfold parseAIResponse, parseBody. split.
  - intros Habsent. destruct (jsonMatch text) as [block|] eqn:Hm; [|reflexivity].
    destruct (jsonMatch_Some _ _ Hm) as (pre & mid & post & Htext & _).
    now destruct (Habsent pre mid post).
  - intros pre mid post -> Hpre Hpost Hparse.
    rewrite jsonMatch_block by assumption. now rewrite Hparse.
Qed.

(** C4 at work: a response of labelled lines, and one with a broken
    block. *)
Lemma C4_fallback_only_without_block_witness :
  @parseAIResponse {| object := unit; JSON_parse := fun _ => None |}
     "Tech stack: go" "t"
    = Sections "" "go" "" "" "" "Tech stack: go" "t" /\
  @parseAIResponse {| object := unit; JSON_parse := fun _ => None |}
     "Skills: {oops}" "t"
    = ParseError "Failed to parse AI response" "Skills: {oops}" "t".
Proof.
  pose proof (C4_fallback_only_without_block
                {| object := unit; JSON_parse := fun _ => None |}
                "Skills: {oops}" "t") as [_ Hbroken].
  split; [reflexivity|].
  apply (Hbroken "Skills: " "oops" ""); reflexivity.
Defined.

End ParserProperties.

(* ===================================================================== *)
(** ** Properties of the fetch scheduler *)
(* ===================================================================== *)

Section SchedulerProperties.
Import JS GitHubScraper.
Context {H : Host} {C : Cheerio}.

Lemma forEach_length {A B : Type} (f : A -> scraper -> B * scraper)
    (l : list A) (s : scraper) :
  length (forEach f l s).1 = length l.
Proof.
  revert s. induction l as [|a l IH]; intros s; simpl; [reflexivity|].
  destruct (f a s) as [b s1]. specialize (IH s1).
  destruct (forEach f l s1) as [bs s2]. simpl in *. now rewrite IH.
Qed.

Lemma requestsFor_cons_hit (c : gmap string User) (u cached : User) (l : list User) :
  c !! profileKey u = Some cached -> requestsFor c (u :: l) = requestsFor c l.
Proof.
  intros Hc. unfold requestsFor. rewrite filter_cons.
  destruct (decide _) as [Hd|Hd]; [|reflexivity].
  unfold profileKey in Hc. congruence.
Qed.

Lemma requestsFor_cons_miss (c : gmap string User) (u : User) (l : list User) :
  c !! profileKey u = None ->
  requestsFor c (u :: l) = Get (profile_url u) :: requestsFor c l.
Proof.
  intros Hc. unfold requestsFor. rewrite filter_cons.
  destruct (decide _) as [Hd|Hd]; [reflexivity|].
  unfold profileKey in Hc. congruence.
Qed.

Lemma requestsFor_all_miss (c : gmap string User) (l : list User) :
  (forall u, u ∈ l -> c !! profileKey u = None) ->
  requestsFor c l = map (fun u => Get (profile_url u)) l.
Proof.
  induction l as [|u l IH]; intros Hmiss; [reflexivity|].
  rewrite requestsFor_cons_miss by (apply Hmiss; left).
  simpl. f_equal. apply IH. intros v Hv. apply Hmiss. now right.
Qed.

Lemma requestsFor_length (c : gmap string User) (l : list User) :
  length (requestsFor c l) <= length l.
Proof. unfold requestsFor. rewrite length_map. apply length_filter. Qed.

Lemma requestsFor_gets (c : gmap string User) (l : list User) :
  filter isGet (requestsFor c l) = requestsFor c l /\
  filter isSleep (requestsFor c l) = [].
Proof.
  unfold requestsFor.
  induction (filter (fun u => c !! ("profile:" +:+ username u) = None) l)
    as [|u l' [IH1 IH2]]; [done|].
  simpl. rewrite filter_cons_True by done. rewrite filter_cons_False by (simpl; auto).
  now rewrite IH1, IH2.
Qed.

(** The first half of a batch: what is sent, and what is left alone. *)
Lemma begin_phase (batch : list User) (s : scraper) :
  forall ps s',
    forEach scrapeUserProfile_begin batch s = (ps, s') ->
    length ps = length batch /\
    rateLimitDelay s' = rateLimitDelay s /\ batchSize s' = batchSize s /\
    searchCache s' = searchCache s /\ profileCache s' = profileCache s /\
    issued s' = issued s + length (requestsFor (profileCache s) batch) /\
    trace s' = trace s ++ requestsFor (profileCache s) batch.
Proof.
  revert s. induction batch as [|u batch IH]; intros s ps s' Hrun; simpl in Hrun.
  - injection Hrun as <- <-. unfold requestsFor; simpl.
    rewrite app_nil_r. repeat split; lia.
  - unfold scrapeUserProfile_begin in Hrun at 1.
    destruct (profileCache s !! profileKey u) as [cached|] eqn:Hc.
    + destruct (forEach scrapeUserProfile_begin batch s) as [bs s2] eqn:Hrest.
      injection Hrun as <- <-.
      destruct (IH _ _ _ Hrest) as (Hl & Hd & Hb & Hsc & Hpc & Hi & Ht).
      rewrite (requestsFor_cons_hit _ _ _ _ Hc). simpl. repeat split; auto.
    + simpl in Hrun.
      destruct (forEach scrapeUserProfile_begin batch _) as [bs s2] eqn:Hrest.
      injection Hrun as <- <-.
      destruct (IH _ _ _ Hrest) as (Hl & Hd & Hb & Hsc & Hpc & Hi & Ht).
      simpl in *. rewrite (requestsFor_cons_miss _ _ _ Hc). simpl.
      repeat split; auto; [lia|]. rewrite Ht, <- app_assoc. reflexivity.
Qed.

(** What a call returns once its answer has come does not depend on the
    state in which it goes on. *)
Lemma end_value (job : User * pending User) (s : scraper) :
  (scrapeUserProfile_end job s).1 = (scrapeUserProfile_end job init).1.
Proof.
  destruct job as [u [cached|[message|data]]]; cbn; try reflexivity.
  now destruct (negb (truthy data) || (String.length data =? 0)).
Qed.

Lemma not_empty_truthy (data : string) :
  negb (truthy data) || (String.length data =? 0) = false -> truthy data = true.
Proof. now destruct data. Qed.

Lemma batchRecords_length (c : gmap string User) (n : nat) (chunk : list User) :
  length (batchRecords c n chunk) = length chunk.
Proof.
  revert n. induction chunk as [|u chunk IH]; intros n; [reflexivity|].
  cbn [batchRecords]. destruct (c !! profileKey u); cbn [length]; now rewrite IH.
Qed.

Lemma batchRecords_all_miss (c : gmap string User) (n : nat) (chunk : list User) :
  (forall u, u ∈ chunk -> c !! profileKey u = None) ->
  batchRecords c n chunk = fetchedFrom n chunk.
Proof.
  revert n. induction chunk as [|u chunk IH]; intros n Hmiss; [reflexivity|].
  cbn [batchRecords fetchedFrom]. rewrite (Hmiss u) by left.
  f_equal. apply IH. intros v Hv. apply Hmiss. now right.
Qed.

Lemma batchRecords_lookup (c : gmap string User) (chunk : list User) :
  forall n j u,
    chunk !! j = Some u ->
    batchRecords c n chunk !! j
      = Some match c !! profileKey u with
             | Some cached => cached
             | None =>
                 fetchedRecord u
                   (get (n + length (requestsFor c (take j chunk))) (profile_url u))
             end.
Proof.
  induction chunk as [|v chunk IH]; intros n j u Hj; [done|].
  destruct j as [|j].
  - injection Hj as ->. cbn [batchRecords take]. unfold requestsFor at 1.
    cbn [filter map length]. rewrite Nat.add_0_r.
    now destruct (c !! profileKey u).
  - cbn [lookup list_lookup] in Hj. cbn [batchRecords take].
    destruct (c !! profileKey v) as [cached|] eqn:Hv.
    + rewrite (requestsFor_cons_hit _ _ _ _ Hv). cbn. now apply IH.
    + rewrite (requestsFor_cons_miss _ _ _ Hv). cbn [length].
      replace (n + S (length (requestsFor c (take j chunk))))
        with (S n + length (requestsFor c (take j chunk))) by lia.
      cbn. now apply IH.
Qed.

(** The first half of a batch, again: what each call waits for. *)
Lemma begin_records (batch : list User) (s : scraper) :
  map (fun job => (scrapeUserProfile_end job init).1)
      (combine batch (forEach scrapeUserProfile_begin batch s).1)
    = batchRecords (profileCache s) (issued s) batch.
Proof.
  revert s. induction batch as [|u batch IH]; intros s; [reflexivity|].
  cbn [forEach batchRecords]. unfold scrapeUserProfile_begin at 1.
  destruct (profileCache s !! profileKey u) as [cached|] eqn:Hc.
  - specialize (IH s).
    destruct (forEach scrapeUserProfile_begin batch s) as [ps s1].
    cbn [fst combine map] in *. now rewrite IH.
  - cbn [send].
    specialize (IH (Scraper (rateLimitDelay s) (batchSize s) (searchCache s)
                            (profileCache s) (S (issued s))
                            (trace s ++ [Get (profile_url u)]))).
    destruct (forEach scrapeUserProfile_begin batch _) as [ps s1].
    cbn [fst combine map profileCache issued] in *. now rewrite IH.
Qed.

Lemma begin_awaiting (batch : list User) (u : User) (r : response) :
  forall s,
    (u, Awaiting r) ∈ combine batch (forEach scrapeUserProfile_begin batch s).1 ->
    u ∈ batch /\ profileCache s !! profileKey u = None.
Proof.
  induction batch as [|v batch IH]; intros s Hin; [cbn in Hin; inversion Hin|].
  cbn [forEach] in Hin. unfold scrapeUserProfile_begin in Hin at 1.
  destruct (profileCache s !! profileKey v) as [cached|] eqn:Hc.
  - specialize (IH s).
    destruct (forEach scrapeUserProfile_begin batch s) as [ps s1].
    cbn [fst combine] in *. apply elem_of_cons in Hin as [Heq|Hin]; [discriminate|].
    destruct (IH Hin) as [Hu Hmiss]. split; [now right|exact Hmiss].
  - cbn [send] in Hin.
    specialize (IH (Scraper (rateLimitDelay s) (batchSize s) (searchCache s)
                            (profileCache s) (S (issued s))
                            (trace s ++ [Get (profile_url v)]))).
    destruct (forEach scrapeUserProfile_begin batch _) as [ps s1].
    cbn [fst combine profileCache] in *. apply elem_of_cons in Hin as [Heq|Hin].
    + injection Heq as -> _. split; [left|exact Hc].
    + destruct (IH Hin) as [Hu Hmiss]. split; [now right|exact Hmiss].
Qed.

(** The second half of a batch, in any order of the calls: the values
    settled, nothing sent, and what becomes of the cache: it changes only
    at the keys of the calls that waited for an answer, and what it gains
    is the record read from such an answer. *)
Lemma resume_phase (l : list waiting) :
  forall s settled s',
    forEach resume l s = (settled, s') ->
    settled = map (fun w => (place w, (scrapeUserProfile_end (task w) init).1)) l /\
    rateLimitDelay s' = rateLimitDelay s /\ batchSize s' = batchSize s /\
    searchCache s' = searchCache s /\ issued s' = issued s /\
    trace s' = trace s /\
    (forall k,
        (forall w u r, w ∈ l -> task w = (u, Awaiting r) -> profileKey u <> k) ->
        profileCache s' !! k = profileCache s !! k) /\
    (forall k v,
        profileCache s' !! k = Some v ->
        profileCache s !! k = Some v \/
        exists w u data,
          w ∈ l /\ task w = (u, Awaiting (Body data)) /\ truthy data = true /\
          k = profileKey u /\ v = extractProfile u data).
Proof.
  induction l as [|w l IH]; intros s settled s' Hrun; cbn [forEach] in Hrun.
  - injection Hrun as <- <-. repeat split; auto.
  - destruct (resume w s) as [[p r] s1] eqn:Hone.
    destruct (forEach resume l s1) as [rest s2] eqn:Hrest.
    injection Hrun as <- <-.
    destruct (IH _ _ _ Hrest) as (Hs & Hd & Hb & Hsc & Hi & Ht & Hsame & Hnew).
    unfold resume in Hone.
    pose proof (end_value (task w) s) as Hval.
    destruct (scrapeUserProfile_end (task w) s) as [r' s1'] eqn:Hend.
    injection Hone as <- <- <-. cbn [fst] in Hval.
    assert (Hs1 : rateLimitDelay s1' = rateLimitDelay s /\
                  batchSize s1' = batchSize s /\
                  searchCache s1' = searchCache s /\ issued s1' = issued s /\
                  trace s1' = trace s /\
                  (profileCache s1' = profileCache s \/
                   exists u data,
                     task w = (u, Awaiting (Body data)) /\ truthy data = true /\
                     profileCache s1'
                       = <[profileKey u := extractProfile u data]> (profileCache s))).
    { unfold scrapeUserProfile_end in Hend.
      destruct (task w) as [u [cached|[message|data]]].
      - injection Hend as _ <-. repeat split; auto.
      - injection Hend as _ <-. repeat split; auto.
      - destruct (negb (truthy data) || (String.length data =? 0)) eqn:Hdata;
          injection Hend as _ <-; repeat split; auto.
        right. exists u, data. split; [reflexivity|].
        split; [now apply not_empty_truthy|reflexivity]. }
    destruct Hs1 as (Hd1 & Hb1 & Hsc1 & Hi1 & Ht1 & Hpc1).
    split; [cbn [map]; now rewrite Hval, Hs|].
    repeat split; try congruence.
    + intros k Hk. rewrite Hsame.
      * destruct Hpc1 as [->|(u & data & Htask & _ & ->)]; [reflexivity|].
        apply lookup_insert_ne. apply (Hk w u (Body data)); [left|exact Htask].
      * intros w' u r0 Hw'. apply Hk. now right.
    + intros k v Hk. destruct (Hnew k v Hk) as [Hold|(w' & u & data & Hw' & Hrest')].
      * destruct Hpc1 as [Heq|(u & data & Htask & Hdata & Heq)].
        -- left. now rewrite <- Heq.
        -- rewrite Heq in Hold.
           destruct (decide (profileKey u = k)) as [<-|Hne].
           ++ rewrite lookup_insert_eq in Hold. injection Hold as <-.
              right. exists w, u, data. repeat split; auto. left.
           ++ rewrite lookup_insert_ne in Hold by exact Hne. now left.
      * right. exists w', u, data. split; [now right|exact Hrest'].
Qed.

(** *** The order of the answers *)

Lemma insertByDue_perm (w : waiting) (l : list waiting) :
  Permutation (insertByDue w l) (w :: l).
Proof.
  induction l as [|v l IH]; cbn [insertByDue]; [reflexivity|].
  destruct (due w <=? due v); [reflexivity|].
  rewrite IH. apply perm_swap.
Qed.

Lemma byArrival_perm (l : list waiting) : Permutation (byArrival l) l.
Proof.
  induction l as [|w l IH]; [reflexivity|].
  cbn [byArrival fold_right]. fold (byArrival l).
  rewrite insertByDue_perm. now constructor.
Qed.

Lemma inFlight_places (jobs : list (User * pending User)) :
  forall k n, map place (inFlight k n jobs) = seq k (length jobs).
Proof.
  induction jobs as [|[u [cached|r]] jobs IH]; intros k n; [reflexivity| |];
    cbn [inFlight map place length seq]; now rewrite IH.
Qed.

Lemma inFlight_tasks (jobs : list (User * pending User)) :
  forall k n w, w ∈ inFlight k n jobs -> task w ∈ jobs.
Proof.
  induction jobs as [|[u [cached|r]] jobs IH]; intros k n w Hw;
    [cbn in Hw; inversion Hw| |];
    cbn [inFlight] in Hw; apply elem_of_cons in Hw as [->|Hw];
    first [left | right; eapply IH; exact Hw].
Qed.

Lemma valueAt_perm (k : nat) (l l' : list (nat * User)) :
  Permutation l l' -> NoDup (map fst l) -> valueAt k l = valueAt k l'.
Proof.
  induction 1 as [|[p r] l l' Hperm IH|[p r] [q t] l|l l' l'' H1 IH1 H2 IH2];
    intros Hnd.
  - reflexivity.
  - cbn [valueAt]. destruct (p =? k); [reflexivity|].
    apply IH. cbn [map] in Hnd. now apply NoDup_cons in Hnd as [_ Hnd].
  - cbn [valueAt]. destruct (p =? k) eqn:Hp, (q =? k) eqn:Hq; try reflexivity.
    apply Nat.eqb_eq in Hp, Hq. subst p q. cbn [map fst] in Hnd.
    apply NoDup_cons in Hnd as [Hnot _]. exfalso. apply Hnot. left.
  - rewrite IH1 by exact Hnd. apply IH2.
    assert (Hp : Permutation (map fst l) (map fst l')) by now apply Permutation_map.
    now rewrite <- Hp.
Qed.

Lemma valueAt_entries (g : User * pending User -> User)
    (jobs : list (User * pending User)) :
  forall k n j job,
    jobs !! j = Some job ->
    valueAt (k + j) (map (fun w => (place w, g (task w))) (inFlight k n jobs))
      = Some (g job).
Proof.
  induction jobs as [|[u p] jobs IH]; intros k n j job Hj; [done|].
  assert (Hstep : forall n', valueAt (k + j)
                    ((k, g (u, p))
                       :: map (fun w => (place w, g (task w))) (inFlight (S k) n' jobs))
                  = Some (g job)).
  { intros n'. cbn [valueAt]. destruct j as [|j].
    - injection Hj as <-. now rewrite Nat.add_0_r, Nat.eqb_refl.
    - cbn [lookup list_lookup] in Hj.
      replace (k =? k + S j) with false by (symmetry; apply Nat.eqb_neq; lia).
      replace (k + S j) with (S k + j) by lia. now apply IH. }
  destruct p as [cached|r]; cbn [inFlight map place task]; apply Hstep.
Qed.

Lemma omap_seq_lookup {A : Type} (f : nat -> option A) (l : list A) :
  forall k,
    (forall j a, l !! j = Some a -> f (k + j) = Some a) ->
    omap f (seq k (length l)) = l.
Proof.
  induction l as [|a l IH]; intros k Hf; [reflexivity|].
  assert (Hk : f k = Some a) by (rewrite <- (Nat.add_0_r k); now apply Hf).
  cbn [length seq]. cbn. rewrite Hk. f_equal. apply IH.
  intros j b Hj. replace (S k + j) with (k + S j) by lia. now apply Hf.
Qed.

(** [Promise.all] puts the values back in the order of the batch. *)
Lemma inBatchOrder_settled (g : User * pending User -> User) (n : nat)
    (jobs : list (User * pending User)) :
  inBatchOrder (length jobs)
    (map (fun w => (place w, g (task w))) (byArrival (inFlight 0 n jobs)))
    = map g jobs.
Proof.
  unfold inBatchOrder. rewrite <- (length_map g jobs).
  apply omap_seq_lookup. intros j a Hj.
  apply list_lookup_fmap_Some in Hj as (job & -> & Hjob).
  rewrite <- (valueAt_perm (0 + j)
                (map (fun w => (place w, g (task w))) (inFlight 0 n jobs))).
  - now apply valueAt_entries.
  - apply Permutation_map. symmetry. apply byArrival_perm.
  - rewrite map_map. cbn [fst]. rewrite inFlight_places. apply NoDup_seq.
Qed.

(** *** Cutting a list into batches *)

Lemma chunks_nil {A : Type} (fuel B : nat) : chunks fuel B (@nil A) = [].
Proof. now destruct fuel. Qed.

Lemma chunks_fuel {A : Type} (B fuel1 fuel2 : nat) (l : list A) :
  0 < B -> length l <= fuel1 -> length l <= fuel2 ->
  chunks fuel1 B l = chunks fuel2 B l.
Proof.
  intros HB. revert fuel2 l.
  induction fuel1 as [|fuel1 IH]; intros fuel2 l H1 H2.
  - destruct l; [|simpl in H1; lia]. now rewrite !chunks_nil.
  - destruct l as [|a l]; [now rewrite !chunks_nil|].
    destruct fuel2 as [|fuel2]; [simpl in H2; lia|].
    cbn [chunks]. f_equal. apply IH; rewrite length_drop; simpl in *; lia.
Qed.

Lemma batches_nil {A : Type} (B : nat) : batches B (@nil A) = [].
Proof. reflexivity. Qed.

Lemma batches_cons {A : Type} (B : nat) (l : list A) :
  0 < B -> l <> [] -> batches B l = take B l :: batches B (drop B l).
Proof.
  intros HB Hl. unfold batches. destruct l as [|a l]; [done|].
  cbn [length chunks]. f_equal.
  apply chunks_fuel; [exact HB| |lia]. rewrite length_drop. simpl. lia.
Qed.

Lemma ceilDiv_0 (B : nat) : 0 < B -> ceilDiv 0 B = 0.
Proof. intros HB. unfold ceilDiv. apply Nat.div_small. lia. Qed.

Lemma ceilDiv_step (M B : nat) :
  0 < B -> 0 < M -> ceilDiv M B = S (ceilDiv (M - B) B).
Proof.
  intros HB HM. unfold ceilDiv.
  destruct (Nat.le_gt_cases M B) as [Hle|Hgt].
  - replace (M - B) with 0 by lia. rewrite (Nat.div_small (0 + B - 1)) by lia.
    symmetry. apply (Nat.div_unique _ _ 1 (M - 1)); lia.
  - replace (M + B - 1) with ((M - B + B - 1) + 1 * B) by lia.
    rewrite Nat.div_add by lia. lia.
Qed.

Lemma batches_length {A : Type} (B : nat) (l : list A) :
  0 < B -> length (batches B l) = ceilDiv (length l) B.
Proof.
  intros HB. remember (length l) as M eqn:HM. revert l HM.
  induction M as [M IH] using lt_wf_ind. intros l HM.
  destruct l as [|a l].
  - subst M. now rewrite ceilDiv_0.
  - rewrite batches_cons by done. cbn [length].
    rewrite ceilDiv_step by (subst M; simpl; lia). f_equal.
    apply (IH (M - B)); [subst M; simpl; lia|].
    rewrite length_drop. now subst M.
Qed.

Lemma joinWith_cons {A : Type} (sep l : list A) (ls : list (list A)) :
  ls <> [] -> joinWith sep (l :: ls) = l ++ sep ++ joinWith sep ls.
Proof. now destruct ls. Qed.

(** *** One batch *)

Lemma scrapeBatch_spec (batch : list User) (s : scraper) :
  forall rs s',
    scrapeBatch batch s = (rs, s') ->
    rs = batchRecords (profileCache s) (issued s) batch /\
    length rs = length batch /\
    rateLimitDelay s' = rateLimitDelay s /\ batchSize s' = batchSize s /\
    searchCache s' = searchCache s /\
    issued s' = issued s + length (requestsFor (profileCache s) batch) /\
    trace s' = trace s ++ requestsFor (profileCache s) batch /\
    (forall k,
        (forall u, u ∈ batch -> profileCache s !! profileKey u = None ->
                   profileKey u <> k) ->
        profileCache s' !! k = profileCache s !! k) /\
    (forall k v,
        profileCache s' !! k = Some v ->
        profileCache s !! k = Some v \/
        exists u data,
          u ∈ batch /\ profileCache s !! profileKey u = None /\
          truthy data = true /\ k = profileKey u /\ v = extractProfile u data).
Proof.
  intros rs s' Hrun. unfold scrapeBatch in Hrun.
  pose proof (begin_records batch s) as Hrecords.
  pose proof (fun u r => begin_awaiting batch u r s) as Hwait.
  destruct (forEach scrapeUserProfile_begin batch s) as [ps s1] eqn:Hbegin.
  cbn [fst] in Hrecords, Hwait.
  destruct (begin_phase _ _ _ _ Hbegin) as (Hl & Hd & Hb & Hsc & Hpc & Hi & Ht).
  destruct (forEach resume _ s1) as [settled s2] eqn:Hend.
  injection Hrun as <- <-.
  destruct (resume_phase _ _ _ _ Hend) as (Hs & Hd' & Hb' & Hsc' & Hi' & Ht' & Hsame & Hnew).
  assert (Hjob : forall w u r,
             w ∈ byArrival (inFlight 0 (issued s) (combine batch ps)) ->
             task w = (u, Awaiting r) ->
             u ∈ batch /\ profileCache s !! profileKey u = None).
  { intros w u r Hw Htask. apply (Hwait u r). rewrite <- Htask.
    apply (inFlight_tasks _ 0 (issued s)).
    now rewrite <- (byArrival_perm (inFlight 0 (issued s) (combine batch ps))). }
  assert (Hrs : inBatchOrder (length batch) settled
                = batchRecords (profileCache s) (issued s) batch).
  { rewrite Hs, <- Hrecords.
    replace (length batch) with (length (combine batch ps))
      by (rewrite length_combine; lia).
    apply (inBatchOrder_settled (fun job => (scrapeUserProfile_end job init).1)). }
  split; [exact Hrs|]. split; [rewrite Hrs; apply batchRecords_length|].
  split; [congruence|]. split; [congruence|]. split; [congruence|].
  split; [lia|]. split; [congruence|]. split.
  - intros k Hk. rewrite Hsame, Hpc; [reflexivity|].
    intros w u r Hw Htask. destruct (Hjob w u r Hw Htask) as [Hu Hmiss].
    now apply Hk.
  - intros k v Hk. rewrite <- Hpc.
    destruct (Hnew k v Hk) as [Hold|(w & u & data & Hw & Htask & Hdata & -> & ->)];
      [now left|].
    destruct (Hjob w u _ Hw Htask) as [Hu Hmiss].
    right. exists u, data. rewrite Hpc. repeat split; auto.
Qed.

Lemma scrapeBatch_all_miss (batch : list User) (s : scraper) :
  (forall u, u ∈ batch -> profileCache s !! profileKey u = None) ->
  (scrapeBatch batch s).1 = fetchedFrom (issued s) batch.
Proof.
  intros Hmiss. destruct (scrapeBatch batch s) as [rs s'] eqn:Hrun.
  destruct (scrapeBatch_spec _ _ _ _ Hrun) as (-> & _). cbn [fst].
  now apply batchRecords_all_miss.
Qed.

(** *** The loop over the batches *)

Lemma batchStarts_length (chunks : list (list User)) :
  forall s, length (batchStarts chunks s) = length chunks.
Proof.
  induction chunks as [|chunk chunks IH]; intros s; [reflexivity|].
  cbn [batchStarts length]. now rewrite IH.
Qed.

Lemma batchStarts_step (chunks : list (list User)) :
  forall s k chunk w w',
    chunks !! k = Some chunk ->
    batchStarts chunks s !! k = Some w ->
    batchStarts chunks s !! S k = Some w' ->
    w' = sleep (rateLimitDelay (scrapeBatch chunk w).2) (scrapeBatch chunk w).2.
Proof.
  induction chunks as [|c chunks IH]; intros s k chunk w w' Hc Hw Hw'; [done|].
  destruct k as [|k].
  - injection Hc as <-. cbn in Hw. injection Hw as <-.
    cbn [batchStarts lookup list_lookup] in Hw'.
    destruct chunks as [|c' chunks]; [done|].
    cbn [batchStarts lookup list_lookup] in Hw'. now injection Hw' as <-.
  - cbn [batchStarts lookup list_lookup] in Hc, Hw, Hw'.
    exact (IH _ _ _ _ _ Hc Hw Hw').
Qed.

Lemma zip_with_nonempty {A B D : Type} (f : A -> B -> D) (l : list A) (k : list B) :
  l <> [] -> k <> [] -> zip_with f l k <> [].
Proof. now destruct l, k. Qed.

(** The loop, batch after batch: the records and the requests of each
    batch are those of its candidates against the cache of the state in
    which it starts. *)
Lemma batchLoop_exact (users : list User) :
  forall fuel i acc s,
    0 < batchSize s -> length users - i < fuel ->
    exists s',
      batchLoop fuel i users acc s
        = Some (acc ++ concat
                         (zip_with (fun chunk w =>
                                      batchRecords (profileCache w) (issued w) chunk)
                            (batches (batchSize s) (drop i users))
                            (batchStarts (batches (batchSize s) (drop i users)) s)),
                s') /\
      rateLimitDelay s' = rateLimitDelay s /\ batchSize s' = batchSize s /\
      trace s' =
        trace s ++ joinWith [Sleep (rateLimitDelay s)]
                     (zip_with (fun chunk w => requestsFor (profileCache w) chunk)
                        (batches (batchSize s) (drop i users))
                        (batchStarts (batches (batchSize s) (drop i users)) s)).
Proof.
  induction fuel as [|fuel IH]; intros i acc s HB Hfuel; [lia|].
  cbn [batchLoop]. destruct (i <? length users) eqn:Hi.
  - apply Nat.ltb_lt in Hi.
    set (rest := drop i users) in *. set (batch := take (batchSize s) rest).
    assert (Hne : rest <> []).
    { intros Hnil. apply (f_equal length) in Hnil. unfold rest in Hnil.
      rewrite length_drop in Hnil. simpl in Hnil. lia. }
    assert (Hdd : drop (i + batchSize s) users = drop (batchSize s) rest)
      by (unfold rest; now rewrite drop_drop).
    rewrite (batches_cons _ rest) by done. fold batch. cbn [batchStarts zip_with concat].
    destruct (scrapeBatch batch s) as [brs s1] eqn:Hb. cbn [snd].
    destruct (scrapeBatch_spec _ _ _ _ Hb) as (-> & _ & Hd & Hbs & _ & _ & Ht & _).
    rewrite Hbs, Hd.
    destruct (i + batchSize s <? length users) eqn:Hmore.
    + apply Nat.ltb_lt in Hmore.
      destruct (IH (i + batchSize s)
                   (acc ++ batchRecords (profileCache s) (issued s) batch)
                   (sleep (rateLimitDelay s) s1))
        as (s' & Hrun & Hd' & Hbs' & Ht'); [simpl; lia | lia |].
      cbn [sleep rateLimitDelay batchSize trace] in Hrun, Hd', Hbs', Ht'.
      cbn [sleep batchSize]. rewrite ?Hbs, ?Hd, ?Hdd in *.
      exists s'. split; [now rewrite app_assoc|].
      split; [congruence|]. split; [congruence|].
      rewrite joinWith_cons.
      * rewrite Ht', Ht. now rewrite <- !app_assoc.
      * assert (Hchunks : batches (batchSize s) (drop (batchSize s) rest) <> []).
        { rewrite batches_cons; [discriminate|exact HB|].
          intros Hnil. apply (f_equal length) in Hnil. unfold rest in Hnil.
          rewrite !length_drop in Hnil. simpl in Hnil. lia. }
        apply zip_with_nonempty; [exact Hchunks|].
        intros Hnil. apply (f_equal length) in Hnil.
        rewrite batchStarts_length in Hnil.
        destruct (batches (batchSize s) (drop (batchSize s) rest)); done.
    + apply Nat.ltb_ge in Hmore.
      destruct (IH (i + batchSize s)
                   (acc ++ batchRecords (profileCache s) (issued s) batch) s1)
        as (s' & Hrun & Hd' & Hbs' & Ht'); [lia | lia |].
      rewrite ?Hbs, ?Hd, ?Hdd in *.
      assert (Hnil : drop (batchSize s) rest = []).
      { rewrite <- Hdd. apply drop_ge. lia. }
      rewrite Hnil, batches_nil in *. cbn [batchStarts zip_with concat joinWith] in *.
      rewrite !app_nil_r in *.
      exists s'. split; [exact Hrun|]. split; [congruence|]. split; [congruence|].
      congruence.
  - apply Nat.ltb_ge in Hi. exists s.
    rewrite drop_ge by lia. rewrite batches_nil. cbn. rewrite !app_nil_r.
    repeat split; reflexivity.
Qed.

Lemma batches_lookup {A : Type} (B : nat) :
  0 < B ->
  forall k (l chunk : list A),
    batches B l !! k = Some chunk -> chunk = take B (drop (k * B) l).
Proof.
  intros HB. induction k as [|k IH]; intros l chunk Hk.
  - destruct l as [|a l]; [done|]. rewrite batches_cons in Hk by done.
    now injection Hk as <-.
  - destruct l as [|a l]; [done|]. rewrite batches_cons in Hk by done.
    cbn [lookup list_lookup] in Hk. apply IH in Hk. rewrite Hk, drop_drop.
    now replace (S k * B) with (B + k * B) by lia.
Qed.

(** The records of the loop stand in the order of the candidates, each
    one against the candidate of its place. *)
Lemma records_aligned (chunks : list (list User)) :
  forall starts : list scraper,
    length starts = length chunks ->
    Forall2 (fun u r =>
               exists k j chunk w,
                 chunks !! k = Some chunk /\ starts !! k = Some w /\
                 chunk !! j = Some u /\
                 batchRecords (profileCache w) (issued w) chunk !! j = Some r)
      (concat chunks)
      (concat (zip_with (fun chunk w => batchRecords (profileCache w) (issued w) chunk)
                 chunks starts)).
Proof.
  induction chunks as [|chunk chunks IH]; intros starts Hlen; [constructor|].
  destruct starts as [|w starts]; [discriminate|].
  cbn [zip_with concat]. apply Forall2_app.
  - apply Forall2_same_length_lookup_2.
    + now rewrite batchRecords_length.
    + intros j u r Hu Hr. exists 0, j, chunk, w. now repeat split.
  - eapply Forall2_impl; [apply IH; cbn in Hlen; lia|].
    intros u r (k & j & c & w' & Hc & Hw & Hu & Hr).
    exists (S k), j, c, w'. now repeat split.
Qed.

Lemma fetchedFrom_app (n : nat) (l1 l2 : list User) :
  fetchedFrom n (l1 ++ l2) = fetchedFrom n l1 ++ fetchedFrom (n + length l1) l2.
Proof.
  revert n. induction l1 as [|u l1 IH]; intros n; simpl.
  - now rewrite Nat.add_0_r.
  - rewrite IH. now replace (S n + length l1) with (n + S (length l1)) by lia.
Qed.

Lemma fetchedFrom_lookup (n k : nat) (l : list User) (u : User) :
  l !! k = Some u ->
  fetchedFrom n l !! k = Some (fetchedRecord u (get (n + k) (profile_url u))).
Proof.
  revert n k. induction l as [|v l IH]; intros n k Hk; [done|].
  destruct k as [|k]; simpl in *.
  - injection Hk as ->. now rewrite Nat.add_0_r.
  - rewrite (IH (S n) k Hk). now replace (S n + k) with (n + S k) by lia.
Qed.

Lemma fetchedRecord_username (u : User) (r : response) :
  username (fetchedRecord u r) = username u.
Proof.
  unfold fetchedRecord, scrapeUserProfile_end.
  destruct r as [message|data]; [reflexivity|].
  now destruct (negb (truthy data) || (String.length data =? 0)).
Qed.

Lemma fetchedFrom_usernames (n : nat) (l : list User) :
  map username (fetchedFrom n l) = map username l.
Proof.
  revert n. induction l as [|u l IH]; intros n; simpl; [reflexivity|].
  now rewrite fetchedRecord_username, IH.
Qed.

Lemma profileKey_inj (u v : User) :
  profileKey u = profileKey v -> username u = username v.
Proof. unfold profileKey. simpl. intros Heq. now injection Heq. Qed.

Lemma batchLoop_all_miss (users : list User) :
  forall fuel i acc s,
    0 < batchSize s -> length users - i < fuel ->
    NoDup (map username (drop i users)) ->
    (forall u, u ∈ drop i users -> profileCache s !! profileKey u = None) ->
    exists s',
      batchLoop fuel i users acc s
        = Some (acc ++ fetchedFrom (issued s) (drop i users), s') /\
      trace s' =
        trace s ++ joinWith [Sleep (rateLimitDelay s)]
                     (map (map (fun u => Get (profile_url u)))
                          (batches (batchSize s) (drop i users))) /\
      issued s' = issued s + (length users - i).
Proof.
  induction fuel as [|fuel IH]; intros i acc s HB Hfuel Hnodup Hmiss; [lia|].
  cbn [batchLoop]. destruct (i <? length users) eqn:Hi.
  - apply Nat.ltb_lt in Hi.
    set (rest := drop i users) in *. set (batch := take (batchSize s) rest).
    assert (Hrest : rest = batch ++ drop (batchSize s) rest)
      by (symmetry; apply take_drop).
    assert (Hbatch : forall u, u ∈ batch -> profileCache s !! profileKey u = None).
    { intros u Hu. apply Hmiss. rewrite Hrest. apply elem_of_app. now left. }
    pose proof (scrapeBatch_all_miss batch s Hbatch) as Hbrs.
    destruct (scrapeBatch batch s) as [brs s1] eqn:Hb. simpl in Hbrs. subst brs.
    destruct (scrapeBatch_spec _ _ _ _ Hb) as (_ & _ & Hd & Hbs & _ & Hiss & Ht & Hpc & _).
    rewrite (requestsFor_all_miss _ _ Hbatch) in Hiss, Ht.
    rewrite length_map in Hiss.
    assert (Hlb : length batch = batchSize s `min` (length users - i)).
    { unfold batch, rest. now rewrite length_take, length_drop. }
    assert (Hne : rest <> []).
    { intros Hnil. apply (f_equal length) in Hnil. unfold rest in Hnil.
      rewrite length_drop in Hnil. simpl in Hnil. lia. }
    assert (Hdd : drop (i + batchSize s) users = drop (batchSize s) rest)
      by (unfold rest; now rewrite drop_drop).
    rewrite Hrest, map_app in Hnodup.
    apply NoDup_app in Hnodup as (_ & Hdisj & Hnodup').
    assert (Hmiss' : forall u, u ∈ drop (batchSize s) rest ->
                               profileCache s1 !! profileKey u = None).
    { intros u Hu. rewrite Hpc.
      - apply Hmiss. rewrite Hrest. apply elem_of_app. now right.
      - intros v Hv _ Hkey. apply profileKey_inj in Hkey.
        apply (Hdisj (username v)).
        + apply list_elem_of_In, in_map, list_elem_of_In, Hv.
        + rewrite Hkey. apply list_elem_of_In, in_map, list_elem_of_In, Hu. }
    rewrite Hbs, Hd.
    rewrite (batches_cons _ rest) by done. cbn [map]. fold batch.
    replace (fetchedFrom (issued s) rest)
      with (fetchedFrom (issued s) batch
              ++ fetchedFrom (issued s + length batch) (drop (batchSize s) rest))
      by (now rewrite <- fetchedFrom_app, <- Hrest).
    rewrite app_assoc.
    destruct (i + batchSize s <? length users) eqn:Hmore.
    + apply Nat.ltb_lt in Hmore.
      destruct (IH (i + batchSize s) (acc ++ fetchedFrom (issued s) batch)
                   (sleep (rateLimitDelay s) s1))
        as (s' & Hrun & Ht' & Hiss').
      { simpl. lia. }
      { lia. }
      { now rewrite Hdd. }
      { simpl. rewrite Hdd. exact Hmiss'. }
      cbn [sleep issued trace rateLimitDelay batchSize] in Hrun, Ht', Hiss'.
      cbn [sleep batchSize].
      rewrite ?Hbs, ?Hd, ?Hdd, ?Hiss in *.
      exists s'. split; [exact Hrun|]. split; [|lia].
      rewrite joinWith_cons.
      * rewrite Ht', Ht. now rewrite <- !app_assoc.
      * rewrite batches_cons; [discriminate|exact HB|].
        intros Hnil. apply (f_equal length) in Hnil. unfold rest in Hnil.
        rewrite !length_drop in Hnil. simpl in Hnil. lia.
    + apply Nat.ltb_ge in Hmore.
      destruct (IH (i + batchSize s) (acc ++ fetchedFrom (issued s) batch) s1)
        as (s' & Hrun & Ht' & Hiss').
      { lia. }
      { lia. }
      { now rewrite Hdd. }
      { rewrite Hdd. exact Hmiss'. }
      rewrite ?Hbs, ?Hd, ?Hdd, ?Hiss in *.
      exists s'. split; [exact Hrun|]. split; [|lia].
      assert (Hnil : drop (batchSize s) rest = []).
      { rewrite <- Hdd. apply drop_ge. lia. }
      rewrite Hnil, batches_nil in *. simpl in *.
      rewrite app_nil_r in Ht'. congruence.
  - apply Nat.ltb_ge in Hi. exists s.
    rewrite drop_ge by lia. simpl. rewrite !app_nil_r.
    repeat split; lia.
Qed.

(** *** Counting requests and pauses *)

Lemma fetches_app (t1 t2 : list effect) :
  fetches (t1 ++ t2) = fetches t1 + fetches t2.
Proof. unfold fetches. now rewrite filter_app, length_app. Qed.

Lemma pauses_app (t1 t2 : list effect) :
  pauses (t1 ++ t2) = pauses t1 + pauses t2.
Proof. unfold pauses. now rewrite filter_app, length_app. Qed.

Lemma joinWith_counts (d : nat) (gs : list (list effect)) :
  Forall (fun g => fetches g = length g /\ pauses g = 0) gs ->
  fetches (joinWith [Sleep d] gs) = length (concat gs) /\
  pauses (joinWith [Sleep d] gs) = length gs - 1.
Proof.
  induction 1 as [|g gs [Hf Hp] Hgs [IHf IHp]]; [done|].
  destruct gs as [|g' gs].
  - simpl. rewrite app_nil_r. split; [exact Hf | exact Hp].
  - rewrite joinWith_cons by done.
    rewrite !fetches_app, !pauses_app, IHf, IHp, Hf, Hp.
    cbn [concat]. rewrite !length_app. cbn [length]. unfold fetches, pauses; simpl.
    split; lia.
Qed.

Lemma requestsFor_counts (c : gmap string User) (l : list User) :
  fetches (requestsFor c l) = length (requestsFor c l) /\
  pauses (requestsFor c l) = 0.
Proof.
  destruct (requestsFor_gets c l) as [Hg Hs]. unfold fetches, pauses.
  now rewrite Hg, Hs.
Qed.

Lemma gets_counts (l : list User) :
  fetches (map (fun u => Get (profile_url u)) l) = length l /\
  pauses (map (fun u => Get (profile_url u)) l) = 0.
Proof.
  unfold fetches, pauses. induction l as [|u l [IH1 IH2]]; [done|].
  cbn [map]. rewrite filter_cons_True by done.
  rewrite filter_cons_False by (simpl; auto).
  cbn [length]. now rewrite IH1, IH2.
Qed.

Lemma batches_concat {A : Type} (B : nat) (l : list A) :
  0 < B -> concat (batches B l) = l.
Proof.
  intros HB. remember (length l) as M eqn:HM. revert l HM.
  induction M as [M IH] using lt_wf_ind. intros l HM.
  destruct l as [|a l]; [reflexivity|].
  rewrite batches_cons by done. cbn [concat].
  rewrite (IH (length (drop B (a :: l)))); [apply take_drop| |reflexivity].
  rewrite length_drop. subst M. simpl. lia.
Qed.

Lemma requests_counts (chunks : list (list User)) :
  forall starts : list scraper,
    Forall (fun g => fetches g = length g /\ pauses g = 0)
      (zip_with (fun chunk w => requestsFor (profileCache w) chunk) chunks starts) /\
    length (concat (zip_with (fun chunk w => requestsFor (profileCache w) chunk)
                      chunks starts))
      <= length (concat chunks).
Proof.
  induction chunks as [|chunk chunks IH]; intros starts; [split; [constructor|done]|].
  destruct starts as [|w starts]; [split; [constructor|cbn; lia]|].
  destruct (IH starts) as [IH1 IH2]. cbn [zip_with concat]. split.
  - constructor; [apply requestsFor_counts|exact IH1].
  - rewrite !length_app. pose proof (requestsFor_length (profileCache w) chunk). lia.
Qed.

(** With a batch size of at least one the loop ends, with a record for
    each candidate. *)
Lemma batchLoop_returns (fuel : nat) (users : list User) (s : scraper) :
  0 < batchSize s -> length users < fuel ->
  exists rs s',
    processUserProfilesInBatches fuel users s = Some (rs, s') /\
    length rs = length users.
Proof.
  intros HB Hfuel. unfold processUserProfilesInBatches.
  destruct (batchLoop_exact users fuel 0 [] s HB) as (s' & Hrun & _); [lia|].
  rewrite drop_0 in Hrun. cbn [app] in Hrun. eexists _, s'. split; [exact Hrun|].
  pose proof (records_aligned (batches (batchSize s) users)
                (batchStarts (batches (batchSize s) users) s)
                (batchStarts_length _ _)) as Haligned.
  apply Forall2_length in Haligned. rewrite <- Haligned.
  now rewrite batches_concat.
Qed.

(** *** Search pages *)

Lemma truthy_length (data : string) :
  truthy data = true -> negb (truthy data) || (String.length data =? 0) = false.
Proof. now destruct data. Qed.

Lemma page_record (query : string) (page : nat) (r : response) (s : scraper) :
  (scrapeUsersPage_end ((query, page), Awaiting r) s).1 = fetchedPage query page r.
Proof.
  unfold fetchedPage, scrapeUsersPage_end.
  destruct r as [message|data]; [reflexivity|].
  now destruct (negb (truthy data) || (String.length data =? 0)).
Qed.

Lemma pages_both (query : string) (pages : list nat) :
  forall s ps s1,
    forEach scrapeUsersPage_begin (map (fun page => (query, page)) pages) s = (ps, s1) ->
    forall s2,
      (forEach scrapeUsersPage_end
         (combine (map (fun page => (query, page)) pages) ps) s2).1
        = pageContributions (searchCache s) query (issued s) pages.
Proof.
  induction pages as [|page pages IH]; intros s ps s1 Hbegin s2;
    cbn [map forEach] in Hbegin.
  - now injection Hbegin as <- <-.
  - unfold scrapeUsersPage_begin in Hbegin at 1. cbn [pageContributions].
    destruct (searchCache s !! usersKey query page) as [cached|] eqn:Hc.
    + destruct (forEach scrapeUsersPage_begin _ s) as [ps' s1'] eqn:Hrest.
      injection Hbegin as <- <-. cbn [map combine forEach].
      cbn [scrapeUsersPage_end].
      specialize (IH _ _ _ Hrest s2).
      destruct (forEach scrapeUsersPage_end _ s2) as [rs s3].
      cbn [fst] in *. now rewrite IH.
    + cbn [send] in Hbegin.
      destruct (forEach scrapeUsersPage_begin _ _) as [ps' s1'] eqn:Hrest.
      injection Hbegin as <- <-. cbn [map combine forEach].
      pose proof (page_record query page (get (issued s) (usersUrl query page)) s2) as Hr.
      destruct (scrapeUsersPage_end _ s2) as [r s3]. cbn [fst] in Hr. subst r.
      specialize (IH _ _ _ Hrest s3). cbn [searchCache issued] in IH.
      destruct (forEach scrapeUsersPage_end _ s3) as [rs s4].
      cbn [fst] in *. now rewrite IH.
Qed.

Lemma fetchAllUsers_contributions (query : string) (pages : nat) (s : scraper) :
  (fetchAllUsers query pages s).1
    = concat (pageContributions (searchCache s) query (issued s) (seq 1 pages)).
Proof.
  unfold fetchAllUsers.
  destruct (forEach scrapeUsersPage_begin _ s) as [ps s1] eqn:Hbegin.
  pose proof (pages_both query (seq 1 pages) s ps s1 Hbegin s1) as Hboth.
  destruct (forEach scrapeUsersPage_end _ s1) as [rs s2]. cbn [fst] in *.
  now rewrite Hboth.
Qed.

Lemma pageContributions_app (c : gmap string (list User)) (query : string)
    (n : nat) (l1 l2 : list nat) :
  pageContributions c query n (l1 ++ l2)
    = pageContributions c query n l1
        ++ pageContributions c query (n + length (uncachedPages c query l1)) l2.
Proof.
  revert n. induction l1 as [|page l1 IH]; intros n; cbn [app pageContributions].
  - unfold uncachedPages. simpl. now rewrite Nat.add_0_r.
  - unfold uncachedPages in *. rewrite filter_cons.
    destruct (c !! usersKey query page) as [cached|] eqn:Hc.
    + destruct (decide _) as [Hd|Hd]; [congruence|]. now rewrite IH.
    + destruct (decide _) as [Hd|Hd]; [|congruence].
      rewrite IH. cbn [length app]. 
      now replace (S n + length (filter (fun page0 => c !! usersKey query page0 = None) l1))
        with (n + S (length (filter (fun page0 => c !! usersKey query page0 = None) l1)))
        by lia.
Qed.

Lemma forEach_preserves {A B : Type} (P : scraper -> Prop)
    (f : A -> scraper -> B * scraper) :
  (forall a s, P s -> P (f a s).2) ->
  forall l s, P s -> P (forEach f l s).2.
Proof.
  intros Hf. induction l as [|a l IH]; intros s Hs; cbn [forEach]; [exact Hs|].
  specialize (Hf a s Hs). destruct (f a s) as [b s1].
  specialize (IH s1 Hf). now destruct (forEach f l s1) as [bs s2].
Qed.

Lemma fetchAllUsers_batchSize (query : string) (pages : nat) (s : scraper) :
  batchSize (fetchAllUsers query pages s).2 = batchSize s.
Proof.
  unfold fetchAllUsers.
  pose proof (forEach_preserves (fun s' => batchSize s' = batchSize s)
                scrapeUsersPage_begin) as Hbegin.
  pose proof (forEach_preserves (fun s' => batchSize s' = batchSize s)
                scrapeUsersPage_end) as Hend.
  specialize (Hbegin ltac:(intros [q p] w Hw; unfold scrapeUsersPage_begin;
                           destruct (searchCache w !! usersKey q p); exact Hw)
                     (map (fun page => (query, page)) (seq 1 pages)) s eq_refl).
  destruct (forEach scrapeUsersPage_begin _ s) as [ps s1]. cbn [snd] in Hbegin.
  specialize (Hend ltac:(intros [[q p] [cached|[message|data]]] w Hw;
                         unfold scrapeUsersPage_end; try exact Hw;
                         destruct (negb (truthy data) || (String.length data =? 0));
                         exact Hw)
                   (combine (map (fun page => (query, page)) (seq 1 pages)) ps)
                   s1 Hbegin).
  now destruct (forEach scrapeUsersPage_end _ s1) as [rs s2].
Qed.

Lemma fetchedPage_body (query : string) (page : nat) (data : string) :
  truthy data = true -> fetchedPage query page (Body data) = extractUsers data.
Proof.
  intros Hdata. unfold fetchedPage, scrapeUsersPage_end.
  now rewrite truthy_length.
Qed.

(** C7. What [fetchAllUsers] returns is, page after page, what each page
    brings: its cached list, or the candidates read from the answer to
    its own request. A page whose request fails brings the empty list,
    and the pages before and after it bring what they bring anyway. With
    two pages, one failing and the other holding three candidates,
    [searchUsers] finds exactly these three, hands them to
    [processUserProfilesInBatches] and returns its three records. *)
Theorem C7_failed_page_is_empty (query : string) (pages : nat) (s : scraper) :
  (fetchAllUsers query pages s).1
    = concat (pageContributions (searchCache s) query (issued s) (seq 1 pages)) /\
  (forall before page after message,
      seq 1 pages = before ++ page :: after ->
      searchCache s !! usersKey query page = None ->
      get (issued s + length (uncachedPages (searchCache s) query before))
          (usersUrl query page) = NetError message ->
      (fetchAllUsers query pages s).1
        = concat (pageContributions (searchCache s) query (issued s) before)
            ++ []
            ++ concat (pageContributions (searchCache s) query
                         (S (issued s
                             + length (uncachedPages (searchCache s) query before)))
                         after)) /\
  (forall fuel home data message c1 c2 c3,
      invalid (Str query) = false -> 0 < batchSize s -> 3 < fuel ->
      get (issued s) "https://github.com/" = Body home -> truthy home = true ->
      searchCache s !! usersKey query 1 = None ->
      searchCache s !! usersKey query 2 = None ->
      truthy data = true -> extractUsers data = [c1; c2; c3] ->
      (get (S (issued s)) (usersUrl query 1) = NetError message /\
       get (S (S (issued s))) (usersUrl query 2) = Body data) \/
      (get (S (issued s)) (usersUrl query 1) = Body data /\
       get (S (S (issued s))) (usersUrl query 2) = NetError message) ->
      exists s1 s2 detailedUsers s3,
        testGitHubConnectivity s = (Returned true, s1) /\
        fetchAllUsers query 2 s1 = ([c1; c2; c3], s2) /\
        processUserProfilesInBatches fuel [c1; c2; c3] s2 = Some (detailedUsers, s3) /\
        searchUsers fuel (Str query) 2 s = Some (Returned detailedUsers, s3) /\
        length detailedUsers = 3).
Proof.
  split; [apply fetchAllUsers_contributions|]. split.
  - intros before page after message Hpages Hmiss Hfail.
    rewrite fetchAllUsers_contributions, Hpages, pageContributions_app.
    cbn [pageContributions]. rewrite Hmiss, Hfail.
    rewrite concat_app. cbn [concat]. reflexivity.
  - intros fuel home data message c1 c2 c3 Hvalid HB Hfuel Hhome Hhome' Hc1 Hc2
           Hdata Hextract Hanswers.
    set (s1 := Scraper (rateLimitDelay s) (batchSize s) (searchCache s)
                       (profileCache s) (S (issued s))
                       (trace s ++ [Get "https://github.com/"])).
    assert (Hconn : testGitHubConnectivity s = (Returned true, s1)).
    { unfold testGitHubConnectivity, send. rewrite Hhome.
      now rewrite truthy_length. }
    assert (Husers : (fetchAllUsers query 2 s1).1 = [c1; c2; c3]).
    { rewrite fetchAllUsers_contributions. cbn [seq pageContributions].
      subst s1. cbn [searchCache issued]. rewrite Hc1, Hc2.
      destruct Hanswers as [[-> ->]|[-> ->]];
        rewrite fetchedPage_body by exact Hdata; rewrite Hextract; reflexivity. }
    pose proof (fetchAllUsers_batchSize query 2 s1) as Hbs.
    destruct (fetchAllUsers query 2 s1) as [users s2] eqn:Hfetch.
    cbn [fst snd] in Husers, Hbs. subst users.
    destruct (batchLoop_returns fuel [c1; c2; c3] s2)
      as (rs & s3 & Hrun & Hlen); [rewrite Hbs; exact HB | simpl; lia |].
    exists s1, s2, rs, s3. split; [exact Hconn|]. split; [exact Hfetch|].
    split; [exact Hrun|]. split; [|exact Hlen].
    unfold searchUsers. cbn [interpolate]. rewrite Hvalid, Hconn, Hfetch.
    cbn [length Nat.eqb]. now rewrite Hrun.
Qed.

(** *** Counts on a profile page *)

Lemma stripNonDigits_digits (t : string) : allChars isDigit (stripNonDigits t) = true.
Proof.
  induction t as [|c t IH]; [reflexivity|]. simpl.
  destruct (isDigit c) eqn:Hc; [simpl; now rewrite Hc|exact IH].
Qed.

Lemma stripNonDigits_none (t : string) :
  anyChar isDigit t = false -> stripNonDigits t = EmptyString.
Proof.
  induction t as [|c t IH]; [reflexivity|]. simpl. intros Hno.
  apply orb_false_iff in Hno as [Hc Ht]. rewrite Hc. now apply IH.
Qed.

Lemma stripNonDigits_some (t : string) :
  anyChar isDigit t = true -> truthy (stripNonDigits t) = true.
Proof.
  induction t as [|c t IH]; [discriminate|]. simpl.
  destruct (isDigit c); [reflexivity|exact IH].
Qed.

Lemma digitsOrZero_cases (t : string) :
  digitsOrZero t = (if anyChar isDigit t then stripNonDigits t else "0").
Proof.
  unfold digitsOrZero, orElse. destruct (anyChar isDigit t) eqn:Hany.
  - now rewrite stripNonDigits_some.
  - now rewrite stripNonDigits_none.
Qed.

Lemma digitsOrZero_digits (t : string) : allChars isDigit (digitsOrZero t) = true.
Proof.
  rewrite digitsOrZero_cases. destruct (anyChar isDigit t); [|reflexivity].
  apply stripNonDigits_digits.
Qed.

Lemma countTail_shape (t : string) :
  allChars isDigitOrComma (countTail t) = true /\
  exists post, t = countTail t +:+ post.
Proof.
  induction t as [|c t [IHall [post IHpost]]]; [split; [reflexivity|now exists EmptyString]|].
  cbn [countTail]. unfold isDigitOrComma in *.
  destruct (isDigit c) eqn:Hc.
  - split; [simpl; now rewrite Hc|]. exists post.
    change (String c t = String c (countTail t +:+ post)). now f_equal.
  - destruct (Ascii.eqb c ",") eqn:Hcomma.
    + destruct t as [|d t']; [split; [reflexivity|now exists (String c EmptyString)]|].
      destruct (isDigit d) eqn:Hd.
      * split; [cbn [allChars]; now rewrite Hc, Hcomma|].
        exists post.
        change (String c (String d t')
                = String c (countTail (String d t') +:+ post)). now f_equal.
      * split; [reflexivity|]. now exists (String c (String d t')).
    + split; [reflexivity|]. now exists (String c t).
Qed.

Lemma firstCount_None (t : string) :
  anyChar isDigit t = false <-> firstCount t = None.
Proof.
  induction t as [|c t IH]; [done|]. simpl.
  destruct (isDigit c); simpl; [split; discriminate|exact IH].
Qed.

Lemma firstCount_shape (t m : string) :
  firstCount t = Some m ->
  exists pre post,
    t = pre +:+ m +:+ post /\ anyChar isDigit pre = false /\
    allChars isDigitOrComma m = true /\ anyChar isDigit m = true.
Proof.
  revert m. induction t as [|c t IH]; intros m Hm; [discriminate|].
  simpl in Hm. destruct (isDigit c) eqn:Hc.
  - injection Hm as <-. destruct (countTail_shape t) as [Hall [post Hpost]].
    exists EmptyString, post.
    split; [change (String c t = String c (countTail t +:+ post)); now f_equal|].
    split; [reflexivity|]. cbn [allChars anyChar]. unfold isDigitOrComma at 1.
    now rewrite Hc.
  - destruct (IH m Hm) as (pre & post & -> & Hpre & Hall & Hany).
    exists (String c pre), post. split; [reflexivity|].
    cbn [anyChar]. now rewrite Hc.
Qed.

Lemma countTail_accepts (t : string) : accepts InDigits (countTail t) = true.
Proof.
  induction t as [|c t IH]; [reflexivity|]. cbn [countTail].
  destruct (isDigit c) eqn:Hc.
  - cbn [accepts]. now rewrite Hc.
  - destruct (Ascii.eqb c ",") eqn:Hcomma; [|reflexivity].
    destruct t as [|d t']; [reflexivity|].
    destruct (isDigit d) eqn:Hd; [|reflexivity].
    cbn [accepts]. rewrite Hc, Hcomma.
    cbn [countTail] in *. rewrite Hd in *. cbn [accepts] in *. now rewrite Hd in *.
Qed.

Lemma countTail_stops (t : string) :
  exists post, t = countTail t +:+ post /\ extends post = false.
Proof.
  induction t as [|c t (post & Hpost & Hstop)];
    [exists EmptyString; split; reflexivity|].
  cbn [countTail]. destruct (isDigit c) eqn:Hc.
  - exists post.
    split; [change (String c t = String c (countTail t +:+ post)); now f_equal|].
    exact Hstop.
  - destruct (Ascii.eqb c ",") eqn:Hcomma.
    + destruct t as [|d t'].
      * exists (String c EmptyString). split; [reflexivity|].
        cbn [extends]. now rewrite Hc, Hcomma.
      * destruct (isDigit d) eqn:Hd.
        -- exists post.
           split; [change (String c (String d t')
                           = String c (countTail (String d t') +:+ post));
                   now f_equal|].
           exact Hstop.
        -- exists (String c (String d t')). split; [reflexivity|].
           cbn [extends]. now rewrite Hc, Hcomma, Hd.
    + exists (String c t). split; [reflexivity|].
      cbn [extends]. now rewrite Hc, Hcomma.
Qed.

Lemma append_String (c : ascii) (x y : string) :
  String c x +:+ y = String c (x +:+ y).
Proof. reflexivity. Qed.

Lemma append_Empty (y : string) : EmptyString +:+ y = y.
Proof. reflexivity. Qed.

Lemma countTail_exact (m post : string) :
  accepts InDigits m = true -> extends post = false ->
  countTail (m +:+ post) = m.
Proof.
  induction m as [|c m IH]; intros Hm Hpost.
  - rewrite append_Empty. destruct post as [|c rest]; [reflexivity|].
    cbn [extends] in Hpost. cbn [countTail].
    apply orb_false_iff in Hpost as [Hc Hrest]. rewrite Hc.
    destruct (Ascii.eqb c ","); [|reflexivity]. cbn [andb] in Hrest.
    destruct rest as [|d rest']; [reflexivity|]. now rewrite Hrest.
  - rewrite append_String. cbn [countTail]. cbn [accepts] in Hm.
    destruct (isDigit c) eqn:Hc.
    + f_equal. now apply IH.
    + destruct (Ascii.eqb c ",") eqn:Hcomma; [|discriminate].
      destruct m as [|d m']; [discriminate|]. cbn [accepts] in Hm.
      destruct (isDigit d) eqn:Hd; [|now destruct (Ascii.eqb d ",")].
      rewrite append_String. rewrite Hd. f_equal. rewrite <- append_String.
      apply IH; [|exact Hpost]. cbn [accepts]. now rewrite Hd.
Qed.

Lemma firstCount_skip (pre x : string) :
  anyChar isDigit pre = false -> firstCount (pre +:+ x) = firstCount x.
Proof.
  induction pre as [|c pre IH]; intros Hpre; [reflexivity|].
  cbn [anyChar] in Hpre. apply orb_false_iff in Hpre as [Hc Hpre].
  rewrite append_String. cbn [firstCount]. rewrite Hc. now apply IH.
Qed.

(** The match of a count is the leftmost and the longest: it starts at
    the first digit of the text, it has the shape of the pattern, and it
    cannot be made longer. These three things fix it. *)
Lemma firstCount_exact (t m : string) :
  firstCount t = Some m <->
  exists pre post,
    t = pre +:+ m +:+ post /\ anyChar isDigit pre = false /\
    isCount m = true /\ extends post = false.
Proof.
  split.
  - revert m. induction t as [|c t IH]; intros m Hm; [discriminate|].
    cbn [firstCount] in Hm. destruct (isDigit c) eqn:Hc.
    + injection Hm as <-. destruct (countTail_stops t) as (post & Hpost & Hstop).
      exists EmptyString, post.
      split; [change (String c t = String c (countTail t +:+ post)); now f_equal|].
      split; [reflexivity|]. split; [|exact Hstop].
      unfold isCount. cbn [accepts]. rewrite Hc. apply countTail_accepts.
    + destruct (IH m Hm) as (pre & post & -> & Hpre & Hcount & Hstop).
      exists (String c pre), post. split; [reflexivity|].
      split; [cbn [anyChar]; now rewrite Hc|]. split; assumption.
  - intros (pre & post & -> & Hpre & Hcount & Hstop).
    rewrite firstCount_skip by exact Hpre.
    destruct m as [|c m']; [discriminate|].
    unfold isCount in Hcount. cbn [accepts] in Hcount.
    rewrite append_String. cbn [firstCount].
    destruct (isDigit c); [|now destruct (Ascii.eqb c ",")].
    now rewrite countTail_exact.
Qed.

(** C8, amended. The followers and following counts are the text of
    the first matching link with every character that is not a digit
    removed, and ["0"] when that text has no digit; they hold digits
    only. The contribution count is the first count matched in the
    heading, else the first one matched in the yearly-contributions
    element when there is one, else ["0"]. A matched count is a piece of
    the text, after a part without digits; it holds a digit, and digits
    and commas only: its commas are kept. It is the first run of groups
    of digits separated by single commas, and the whole of it: the match
    starts at the first digit of the text, it is made of one or more
    digits and then of any number of groups of a comma and one or more
    digits, and what follows it is neither a digit nor a comma before a
    digit; one piece of the text only is such. A text matches if and
    only if it has a digit. Each of these is a total function of the
    page. *)
Theorem C8_counts (user : User) (data : string) :
  let root := load data in
  let tF := text (take 1 (query root followersSelector)) in
  let tG := text (take 1 (query root followingSelector)) in
  let tH :=
    text (query root ("h2:contains(" +:+ dq +:+ "contributions" +:+ dq +:+ ")")) in
  let alt := query root ".js-yearly-contributions" in
  exists followers following organizations readme count,
    raw_data (extractProfile user data)
      = Facts followers following organizations readme /\
    contribution_count (extractProfile user data) = Some count /\
    followers = (if anyChar isDigit tF then stripNonDigits tF else "0") /\
    following = (if anyChar isDigit tG then stripNonDigits tG else "0") /\
    allChars isDigit followers = true /\
    allChars isDigit following = true /\
    (forall m, firstCount tH = Some m -> count = m) /\
    (forall m, anyChar isDigit tH = false -> alt <> [] ->
               firstCount (text alt) = Some m -> count = m) /\
    (anyChar isDigit tH = false ->
     alt = [] \/ anyChar isDigit (text alt) = false -> count = "0") /\
    (forall t m,
        firstCount t = Some m ->
        exists pre post,
          t = pre +:+ m +:+ post /\ anyChar isDigit pre = false /\
          allChars isDigitOrComma m = true /\ anyChar isDigit m = true) /\
    (forall t m,
        firstCount t = Some m <->
        exists pre post,
          t = pre +:+ m +:+ post /\ anyChar isDigit pre = false /\
          isCount m = true /\ extends post = false) /\
    (forall t, anyChar isDigit t = false <-> firstCount t = None).
Proof.
  intros root tF tG tH alt. do 5 eexists.
  split; [reflexivity|]. split; [reflexivity|].
  split; [apply digitsOrZero_cases|]. split; [apply digitsOrZero_cases|].
  split; [apply digitsOrZero_digits|]. split; [apply digitsOrZero_digits|].
  unfold contributionCount. fold root. fold tH. fold alt.
  split; [now intros m ->|]. split; [|split; [|split]].
  - intros m HtH Halt Hm. apply firstCount_None in HtH. rewrite HtH.
    destruct alt as [|a alt']; [done|]. cbn [length Nat.ltb Nat.leb]. now rewrite Hm.
  - intros HtH Halt. apply firstCount_None in HtH. rewrite HtH.
    destruct Halt as [->|Halt]; [reflexivity|].
    apply firstCount_None in Halt. rewrite Halt. now destruct (0 <? length alt).
  - apply firstCount_shape.
  - split; [apply firstCount_exact|apply firstCount_None].
Qed.

(** *** Validation of the query *)

Lemma trim_white (q : string) : allChars isWhite q = true -> trim q = EmptyString.
Proof.
  unfold trim. induction q as [|c q IH]; [reflexivity|]. simpl.
  intros Hall. apply andb_true_iff in Hall as [Hc Hq]. rewrite Hc. now apply IH.
Qed.

(** C9, amended. For an invalid query that the first log line can turn
    into text, [searchUsers] returns the empty list at once: the state is
    unchanged, so nothing is requested, and the caller gets a list, as
    for a search that finds nobody, and no failure. The empty string, a
    string of white space and a value that is not a string are invalid,
    and every string can be turned into text. A value that cannot be
    turned into text makes the call fail with the error of the
    conversion, before the guard is reached; the state is unchanged then
    as well. So for every invalid query the call ends in the state in
    which it started. *)
Theorem C9_invalid_query_sends_nothing (fuel : nat) (query : arg) (pages : nat)
    (s : scraper) :
  (invalid query = true -> interpolate query = None ->
   searchUsers fuel query pages s = Some (Returned [], s)) /\
  (forall message,
      interpolate query = Some message ->
      searchUsers fuel query pages s = Some (Thrown message, s)) /\
  (invalid query = true ->
   exists c, searchUsers fuel query pages s = Some (c, s) /\
             (c = Returned [] \/ exists message, c = Thrown message)) /\
  invalid (Str EmptyString) = true /\
  (forall q, allChars isWhite q = true -> invalid (Str q) = true) /\
  (forall c conversion, invalid (NotAString c conversion) = true) /\
  (forall q, interpolate (Str q) = None) /\
  (forall c conversion, interpolate (NotAString c conversion) = conversion).
Proof.
  split; [|split; [|split; [|split; [reflexivity|split; [|split; [|split]]]]]].
  - intros Hinv Htext. unfold searchUsers. now rewrite Htext, Hinv.
  - intros message Htext. unfold searchUsers. now rewrite Htext.
  - intros Hinv. unfold searchUsers.
    destruct (interpolate query) as [message|].
    + eexists. split; [reflexivity|]. right. now exists message.
    + rewrite Hinv. eexists. split; [reflexivity|]. now left.
  - intros q Hq. unfold invalid. rewrite trim_white by exact Hq.
    simpl. apply orb_true_r.
  - intros c conversion. unfold invalid. apply orb_true_r.
  - reflexivity.
  - reflexivity.
Qed.

(** *** Profile batching *)

Lemma withError_errorRecord (u : User) (message : string) :
  errorRecord u message (withError u message).
Proof. now repeat split. Qed.

Lemma fetchedRecord_cases (u : User) :
  (forall message, fetchedRecord u (NetError message) = withError u message) /\
  fetchedRecord u (Body EmptyString) = u /\
  (forall data, fetchedRecord u (Body data)
                = if truthy data then extractProfile u data else u).
Proof.
  unfold fetchedRecord, scrapeUserProfile_end. repeat split.
  intros data. now destruct data.
Qed.

Lemma recordFor_batchRecords (w : scraper) (chunk : list User) (j : nat) (u r : User) :
  chunk !! j = Some u ->
  batchRecords (profileCache w) (issued w) chunk !! j = Some r ->
  recordFor w chunk j u r.
Proof.
  intros Hu Hr. rewrite (batchRecords_lookup _ _ _ _ _ Hu) in Hr.
  injection Hr as <-. unfold recordFor.
  destruct (profileCache w !! profileKey u) as [cached|]; [reflexivity|].
  destruct (fetchedRecord_cases u) as (Herr & _ & Hbody).
  destruct (get _ (profile_url u)) as [message|data].
  - rewrite Herr. apply withError_errorRecord.
  - apply Hbody.
Qed.


(** C5, amended. With a batch size [B] of at least one and [M]
    candidates, the loop ends with [M] records after [ceil(M/B)] batches
    run one after the other, batch number [k] being the [B] candidates
    that follow the first [k * B] (fewer in the last batch). The first
    batch starts in the state of the call and each next one in the state
    that the batch before it left, after the sleep. The requests of a
    batch are those of its candidates that the cache does not hold in the
    state in which the batch starts, in the order of the batch, so at
    most [M] requests are sent in all; one sleep of [rateLimitDelay]
    stands between two consecutive batches, none inside a batch and none
    after the last. From one batch to the next the cache keeps what it
    held, and gains nothing but profiles read for uncached candidates of
    the batch. When the candidates have distinct usernames and none is
    cached, every candidate is requested: exactly [M] requests, in the
    order of the candidates. *)
Theorem C5_batches_and_pauses (fuel : nat) (users : list User) (s : scraper) :
  0 < batchSize s -> length users < fuel ->
  exists rs s',
    processUserProfilesInBatches fuel users s = Some (rs, s') /\
    length rs = length users /\
    concat (batches (batchSize s) users) = users /\
    length (batches (batchSize s) users) = ceilDiv (length users) (batchSize s) /\
    (forall k chunk,
        batches (batchSize s) users !! k = Some chunk ->
        chunk = take (batchSize s) (drop (k * batchSize s) users)) /\
    length (batchStarts (batches (batchSize s) users) s)
      = ceilDiv (length users) (batchSize s) /\
    (users <> [] -> batchStarts (batches (batchSize s) users) s !! 0 = Some s) /\
    (forall k chunk w w',
        batches (batchSize s) users !! k = Some chunk ->
        batchStarts (batches (batchSize s) users) s !! k = Some w ->
        batchStarts (batches (batchSize s) users) s !! S k = Some w' ->
        w' = sleep (rateLimitDelay (scrapeBatch chunk w).2) (scrapeBatch chunk w).2 /\
        (forall key v, profileCache w !! key = Some v ->
                       profileCache w' !! key = Some v) /\
        (forall key v,
            profileCache w' !! key = Some v ->
            profileCache w !! key = Some v \/
            exists u data,
              u ∈ chunk /\ profileCache w !! profileKey u = None /\
              truthy data = true /\ key = profileKey u /\
              v = extractProfile u data)) /\
    trace s' =
      trace s ++ joinWith [Sleep (rateLimitDelay s)]
                   (zip_with (fun chunk w => requestsFor (profileCache w) chunk)
                      (batches (batchSize s) users)
                      (batchStarts (batches (batchSize s) users) s)) /\
    pauses (trace s') = pauses (trace s) + (ceilDiv (length users) (batchSize s) - 1) /\
    fetches (trace s') <= fetches (trace s) + length users /\
    (NoDup (map username users) ->
     (forall u, u ∈ users -> profileCache s !! profileKey u = None) ->
     trace s' =
       trace s ++ joinWith [Sleep (rateLimitDelay s)]
                    (map (map (fun u => Get (profile_url u)))
                         (batches (batchSize s) users)) /\
     fetches (trace s') = fetches (trace s) + length users).
Proof.
  intros HB Hfuel. unfold processUserProfilesInBatches.
  destruct (batchLoop_exact users fuel 0 [] s HB) as (s' & Hrun & _ & _ & Ht); [lia|].
  rewrite drop_0 in Hrun, Ht. cbn [app] in Hrun.
  set (chunks := batches (batchSize s) users) in *.
  set (starts := batchStarts chunks s) in *.
  pose proof (records_aligned chunks starts (batchStarts_length _ _)) as Haligned.
  apply Forall2_length in Haligned.
  pose proof (batches_concat (batchSize s) users HB) as Hconcat. fold chunks in Hconcat.
  pose proof (batches_length (batchSize s) users HB) as Hchunks. fold chunks in Hchunks.
  destruct (requests_counts chunks starts) as [Hall Htotal].
  destruct (joinWith_counts (rateLimitDelay s) _ Hall) as [Hf Hp].
  assert (Hzip : length (zip_with (fun chunk w => requestsFor (profileCache w) chunk)
                           chunks starts) = length chunks).
  { rewrite length_zip_with_l_eq; [reflexivity|].
    unfold starts. now rewrite batchStarts_length. }
  eexists _, s'. split; [exact Hrun|].
  split; [rewrite <- Haligned; now rewrite Hconcat|].
  split; [exact Hconcat|]. split; [exact Hchunks|].
  split; [intros k chunk Hk; now apply (batches_lookup _ HB k users)|].
  split; [unfold starts; now rewrite batchStarts_length|].
  split.
  { intros Hne. unfold starts, chunks. rewrite batches_cons by done. reflexivity. }
  split.
  { intros k chunk w w' Hc Hw Hw'.
    pose proof (batchStarts_step chunks s k chunk w w' Hc Hw Hw') as Hstep.
    split; [exact Hstep|].
    destruct (scrapeBatch chunk w) as [brs w1] eqn:Hb. cbn [snd] in Hstep.
    destruct (scrapeBatch_spec _ _ _ _ Hb) as (_ & _ & _ & _ & _ & _ & _ & Hsame & Hnew).
    subst w'. cbn [sleep profileCache]. split.
    - intros key v Hv. rewrite Hsame; [exact Hv|].
      intros u _ Hmiss Hkey. subst key. congruence.
    - exact Hnew. }
  split; [exact Ht|].
  split; [rewrite Ht, pauses_app, Hp, Hzip, Hchunks; lia|].
  split; [rewrite Ht, fetches_app, Hf; rewrite Hconcat in Htotal; lia|].
  intros Hnodup Hmiss.
  destruct (batchLoop_all_miss users fuel 0 [] s HB) as (s'' & Hrun' & Ht' & _);
    [lia | exact Hnodup | exact Hmiss |].
  rewrite drop_0 in Hrun', Ht'. cbn [app] in Hrun'. rewrite Hrun in Hrun'.
  injection Hrun' as _ <-. fold chunks in Ht'. split; [exact Ht'|].
  rewrite Ht', fetches_app.
  assert (Hgets : Forall (fun g => fetches g = length g /\ pauses g = 0)
                    (map (map (fun u => Get (profile_url u))) chunks)).
  { apply Forall_forall. intros g Hg.
    apply list_elem_of_In, in_map_iff in Hg as (chunk & <- & _).
    rewrite length_map. apply gets_counts. }
  destruct (joinWith_counts (rateLimitDelay s) _ Hgets) as [Hf' _].
  rewrite Hf'. f_equal.
  rewrite <- Hconcat.
  generalize chunks. intros l.
  induction l as [|c l IH]; [reflexivity|].
  cbn [map concat]. now rewrite !length_app, length_map, IH.
Qed.

End SchedulerProperties.

(* ===================================================================== *)
(** ** The scheduler on the sample hosts *)
(* ===================================================================== *)

Section SchedulerExamples.
Import JS GitHubScraper Samples.

(** C5 does not hold as the specification words it. The candidate
    [ann] is scraped, which caches the profile; scraped again, it is
    served from the cache: one candidate, no request. Four candidates of
    the same name, from a cold cache, make three requests: the fourth is
    in the second batch and finds the profile cached by the first. *)
Lemma C5_cached_candidate_not_fetched :
  (exists rs1 s1 rs2 s2,
      @processUserProfilesInBatches steadyHost sampleCheerio 10 [ann] init
        = Some (rs1, s1) /\
      @processUserProfilesInBatches steadyHost sampleCheerio 10 [ann] s1
        = Some (rs2, s2) /\
      length [ann] = 1 /\
      fetches (trace s2) - fetches (trace s1) = 0) /\
  (exists rs s',
      @processUserProfilesInBatches steadyHost sampleCheerio 10
        [ann; ann; ann; ann] init = Some (rs, s') /\
      fetches (trace s') = 3 /\
      trace s' = [Get "https://github.com/ann"; Get "https://github.com/ann";
                  Get "https://github.com/ann"; Sleep 3000]).
Proof.
  split.
  - do 4 eexists. split; [vm_compute; reflexivity|].
    split; [vm_compute; reflexivity|]. split; vm_compute; reflexivity.
  - do 2 eexists. split; [vm_compute; reflexivity|].
    split; vm_compute; reflexivity.
Qed.



(** C5 at work: three candidates in one batch. *)
Lemma C5_batches_and_pauses_witness :
  0 < batchSize init /\ length [ann; bob; cyd] < 10 /\
  exists rs s',
    @processUserProfilesInBatches flakyHost sampleCheerio 10 [ann; bob; cyd] init
      = Some (rs, s') /\
    fetches (trace s') <= fetches (trace init) + 3.
Proof.
  split; [simpl; lia|]. split; [simpl; lia|].
  destruct (@C5_batches_and_pauses flakyHost sampleCheerio 10
              [ann; bob; cyd] init)
    as (rs & s' & Hrun & _ & _ & _ & _ & _ & _ & _ & _ & _ & Hfetches & _);
    [simpl; lia | simpl; lia |].
  exists rs, s'. split; assumption.
Defined.

(** C7 at work: the query of the scenario on the host where page 1
    fails and page 2 holds three candidates. *)
Lemma C7_failed_page_is_empty_witness :
  exists detailedUsers s3,
    @searchUsers flakyHost sampleCheerio 10 (Str "rust developer") 2 init
      = Some (Returned detailedUsers, s3) /\
    length detailedUsers = 3.
Proof.
  destruct (@C7_failed_page_is_empty flakyHost sampleCheerio "rust developer" 2 init)
    as (_ & _ & Hscenario).
  destruct (Hscenario 10 "home" "results" "ETIMEDOUT" ann bob cyd)
    as (s1 & s2 & detailedUsers & s3 & _ & _ & _ & Hsearch & Hlen);
    try (vm_compute; reflexivity); try (simpl; lia).
  - left. split; vm_compute; reflexivity.
  - exists detailedUsers, s3. split; assumption.
Defined.

(** C8 does not hold as the specification words it, for the
    contribution count. On the sample profile the heading reads 1,234
    contributions; the count is the matched text with its comma, not its
    digits alone. *)
Lemma C8_contribution_count_keeps_commas :
  contribution_count (@extractProfile sampleCheerio ann "profile") = Some "1,234" /\
  stripNonDigits "1,234 contributions in the last year" = "1234" /\
  stripNonDigits "1,234" = "1234" /\
  contribution_count (@extractProfile sampleCheerio ann "profile")
    <> Some (digitsOrZero "1,234 contributions in the last year").
Proof. repeat split; vm_compute; congruence. Qed.

(** C8 at work: the count of the sample profile, from the theorem. *)
Lemma C8_counts_witness :
  contribution_count (@extractProfile sampleCheerio ann "profile") = Some "1,234".
Proof.
  destruct (@C8_counts sampleCheerio ann "profile")
    as (followers & following & orgs & readme & count & _ & Hcount & _ & _ & _ & _
        & Hmatch & _).
  rewrite Hcount. f_equal. apply Hmatch. vm_compute. reflexivity.
Defined.

(** C9 does not hold as the specification words it. For the empty
    query the caller gets the empty list, never a failure, and no request
    is made; a valid query on a host that is down gets the same list. *)
Lemma C9_invalid_query_returns_a_list :
  @searchUsers downHost sampleCheerio 10 (Str "") 3 init = Some (Returned [], init) /\
  (forall message s,
      @searchUsers downHost sampleCheerio 10 (Str "") 3 init
        <> Some (Thrown message, s)) /\
  fst <$> @searchUsers downHost sampleCheerio 10 (Str "") 3 init
    = fst <$> @searchUsers downHost sampleCheerio 10 (Str "rust developer") 3 init.
Proof. repeat split; try (vm_compute; reflexivity). intros message s. discriminate. Qed.

(** C9 at work: a query of three spaces. *)
Lemma C9_invalid_query_sends_nothing_witness :
  invalid (Str "   ") = true /\
  @searchUsers flakyHost sampleCheerio 10 (Str "   ") 2 init = Some (Returned [], init).
Proof.
  split; [reflexivity|].
  apply (@C9_invalid_query_sends_nothing flakyHost sampleCheerio 10 (Str "   ") 2 init);
    reflexivity.
Defined.

End SchedulerExamples.

(* ===================================================================== *)
(** ** More on the enrichment queue *)
(* ===================================================================== *)

Section QueueHistoryProperties.
Import AIProcessor QueueHistory.

Lemma processQueue_order (s : loop) :
  rev (dispatchedOf (history (processQueue s))) ++ requestQueue (processQueue s)
    = rev (dispatchedOf (history s)) ++ requestQueue s.
Proof.
  unfold processQueue. destruct (processingQueue s); [reflexivity|].
  destruct (requestQueue s) as [|item rest] eqn:Hq; cbn; [now rewrite Hq|].
  now rewrite <- app_assoc.
Qed.

Lemma step_order (a : input) (s s' : loop) :
  step a s = Some s' ->
  rev (dispatchedOf (history s')) ++ requestQueue s'
    = (rev (dispatchedOf (history s)) ++ requestQueue s) ++ submitted [a].
Proof.
  intros Hstep. destruct a as [p k|i o|i|i|dt]; cbn [step submitted] in *.
  - injection Hstep as <-. unfold queueAIRequest. rewrite processQueue_order.
    cbn. now rewrite app_assoc.
  - rewrite app_nil_r.
    destruct (frames s !! i) as [[item attempts|? ? ?]|]; try discriminate.
    destruct (onAttempt _ _ _); now injection Hstep as <-.
  - rewrite app_nil_r.
    destruct (frames s !! i) as [[? ?|item attempts wake]|]; try discriminate.
    destruct (wake <=? clock s); [|discriminate].
    destruct (attempts <? maxAttempts); now injection Hstep as <-.
  - rewrite app_nil_r. destruct (timers s !! i) as [due|]; [|discriminate].
    destruct (due <=? clock s); [|discriminate].
    injection Hstep as <-. now rewrite processQueue_order.
  - rewrite app_nil_r. now injection Hstep as <-.
Qed.

Lemma submitted_cons (a : input) (ins : list input) :
  submitted (a :: ins) = submitted [a] ++ submitted ins.
Proof. now destruct a. Qed.

(** X1. First in, first out, without loss: whatever the moves, the items
    dispatched so far, oldest first, followed by the items still queued,
    are the items submitted, in the order of their submission. *)
Theorem queue_is_fifo (ins : list input) (s : loop) :
  run ins init = Some s ->
  rev (dispatchedOf (history s)) ++ requestQueue s = submitted ins.
Proof.
  assert (Hgen : forall ins s0 s,
             run ins s0 = Some s ->
             rev (dispatchedOf (history s)) ++ requestQueue s
               = (rev (dispatchedOf (history s0)) ++ requestQueue s0) ++ submitted ins).
  { clear. induction ins as [|a ins IH]; intros s0 s Hrun; cbn [run] in Hrun.
    - injection Hrun as <-. now rewrite app_nil_r.
    - destruct (step a s0) as [s1|] eqn:Hstep; [|discriminate].
      rewrite (IH _ _ Hrun), (step_order _ _ _ Hstep), (submitted_cons a ins).
      symmetry. apply app_assoc. }
  intros Hrun. now rewrite (Hgen _ _ _ Hrun).
Qed.

(** X1 at work: three items, the first answered, the second dispatched
    by the timer. *)
Lemma queue_is_fifo_witness :
  exists s,
    run [Submit "a" 0; Submit "b" 1; Respond 0 (Fulfilled "t"); Submit "c" 2;
         Tick 1000; Fire 0] init = Some s /\
    rev (dispatchedOf (history s)) ++ requestQueue s
      = [Build_QueueItem "a" 0; Build_QueueItem "b" 1; Build_QueueItem "c" 2].
Proof.
  eexists. split; [vm_compute; reflexivity|].
  apply (queue_is_fifo
           [Submit "a" 0; Submit "b" 1; Respond 0 (Fulfilled "t"); Submit "c" 2;
            Tick 1000; Fire 0]).
  vm_compute. reflexivity.
Defined.

Lemma processQueue_consistent (s : loop) :
  consistent s -> consistent (processQueue s).
Proof.
  intros (Hsf & Hrange & Hsettled & Hdisp & Hsent).
  pose proof (processQueue_singleFlight s Hsf) as Hsf'.
  unfold consistent. split; [exact Hsf'|]. clear Hsf'.
  unfold processQueue.
  destruct (processingQueue s) eqn:Hflag; cbn [orb]; [now repeat split|].
  destruct (requestQueue s) as [|item rest]; cbn; [now repeat split|].
  destruct Hsf as [_ Hidle]. specialize (Hidle Hflag).
  rewrite Hidle in *. cbn in *. rewrite Hdisp.
  repeat split; try done; try lia;
    try (repeat constructor; unfold maxAttempts; lia).
Qed.

Ltac close_consistent :=
  repeat split; try done; try lia; try congruence;
  try (unfold maxAttempts in *; lia);
  try (apply Forall_singleton; cbn; unfold maxAttempts in *; lia).

Lemma step_consistent (a : input) (s s' : loop) :
  consistent s -> step a s = Some s' -> consistent s'.
Proof.
  intros Hc Hstep. destruct a as [p k|i o|i|i|dt]; cbn [step] in Hstep.
  - injection Hstep as <-. apply processQueue_consistent.
    destruct Hc as (Hsf & Hrest). split; [exact Hsf|exact Hrest].
  - destruct Hc as (Hsf & Hrange & Hsettled & Hdisp & Hsent).
    destruct (frames s !! i) as [[item attempts|? ? ?]|] eqn:Hi; try discriminate.
    destruct (singleFlight_lookup _ _ _ Hsf Hi) as (-> & Hfr & Hflag).
    rewrite Hfr in Hrange, Hdisp, Hsent.
    apply Forall_inv in Hrange. cbn in Hrange, Hdisp, Hsent.
    unfold onAttempt in Hstep. destruct o as [response|error].
    + injection Hstep as <-. unfold consistent, singleFlight, finally, settle, record.
      cbn. rewrite Hfr, Hsettled. cbn. close_consistent.
    + destruct (maxAttempts <=? S attempts) eqn:Hmax; injection Hstep as <-.
      * unfold consistent, singleFlight, finally, settle, record.
        cbn. rewrite Hfr, Hsettled. cbn. close_consistent.
      * apply Nat.leb_gt in Hmax.
        unfold consistent, singleFlight, setFrame, record.
        cbn. rewrite Hfr, Hflag. cbn. close_consistent.
  - destruct Hc as (Hsf & Hrange & Hsettled & Hdisp & Hsent).
    destruct (frames s !! i) as [[? ?|item attempts wake]|] eqn:Hi; try discriminate.
    destruct (singleFlight_lookup _ _ _ Hsf Hi) as (-> & Hfr & Hflag).
    rewrite Hfr in Hrange, Hdisp, Hsent.
    apply Forall_inv in Hrange. cbn in Hrange, Hdisp, Hsent.
    destruct (wake <=? clock s); [|discriminate].
    apply Nat.ltb_lt in Hrange as Hlt. rewrite Hlt in Hstep.
    injection Hstep as <-. unfold consistent, singleFlight.
    cbn. rewrite Hfr, Hflag. cbn. close_consistent.
  - destruct (timers s !! i) as [due|]; [|discriminate].
    destruct (due <=? clock s); [|discriminate].
    injection Hstep as <-. apply processQueue_consistent.
    destruct Hc as (Hsf & Hrest). split; [exact Hsf|exact Hrest].
  - injection Hstep as <-. exact Hc.
Qed.

Lemma run_consistent (ins : list input) (s s' : loop) :
  consistent s -> run ins s = Some s' -> consistent s'.
Proof.
  revert s. induction ins as [|a ins IH]; intros s Hc Hrun; cbn [run] in Hrun.
  - now injection Hrun as <-.
  - destruct (step a s) as [s1|] eqn:Hstep; [|discriminate].
    eapply IH; [|exact Hrun]. eapply step_consistent; eauto.
Qed.

Lemma init_consistent : consistent init.
Proof.
  split; [apply init_singleFlight|]. cbn. repeat split; try done; try constructor.
Qed.

(** X2. No silent drop and no double settlement: in every reachable
    state the promises settled are those of the items whose handling has
    ended, one settlement for each and in the same order; a dispatched
    item has either ended or is the one being handled; and the attempt
    counter of the item being handled is below the maximum. *)
Theorem every_finished_item_is_settled_once (ins : list input) (s : loop) :
  run ins init = Some s ->
  settledSinks (history s) = map sink (finishedOf (history s)) /\
  dispatchedOf (history s) = map frameItem (frames s) ++ finishedOf (history s) /\
  Forall attemptsInRange (frames s).
Proof.
  intros Hrun.
  destruct (run_consistent _ _ _ init_consistent Hrun)
    as (_ & Hrange & Hsettled & Hdisp & _).
  now repeat split.
Qed.

(** X2 at work: an item that fails three times and one that is
    answered. *)
Lemma every_finished_item_is_settled_once_witness :
  exists s,
    run [Submit "a" 7; Submit "b" 8; Respond 0 (Failed "e1"); Tick 1000; Wake 0;
         Respond 0 (Failed "e2"); Tick 2000; Wake 0; Respond 0 (Failed "e3");
         Tick 1000; Fire 0; Respond 0 (Fulfilled "t")] init = Some s /\
    settledSinks (history s) = [8; 7] /\
    settledSinks (history s) = map sink (finishedOf (history s)).
Proof.
  eexists. split; [vm_compute; reflexivity|]. split; [vm_compute; reflexivity|].
  apply (every_finished_item_is_settled_once
           [Submit "a" 7; Submit "b" 8; Respond 0 (Failed "e1"); Tick 1000; Wake 0;
            Respond 0 (Failed "e2"); Tick 2000; Wake 0; Respond 0 (Failed "e3");
            Tick 1000; Fire 0; Respond 0 (Fulfilled "t")]).
  vm_compute. reflexivity.
Defined.

(** X3. Over any run, the calls made to the generation API number at
    most three for each item dispatched. *)
Theorem calls_bounded_by_dispatches (ins : list input) (s : loop) :
  run ins init = Some s ->
  sentCount (history s) <= maxAttempts * length (dispatchedOf (history s)).
Proof.
  intros Hrun.
  destruct (run_consistent _ _ _ init_consistent Hrun)
    as (Hsf & Hrange & _ & Hdisp & Hsent).
  rewrite Hdisp, length_app, length_map.
  destruct Hsf as [Hlen _]. unfold maxAttempts in *.
  destruct (frames s) as [|f [|f' l]]; cbn in *; [lia| |lia].
  apply Forall_inv in Hrange.
  destruct f; cbn in *; unfold maxAttempts in *; lia.
Qed.

(** X3 at work. *)
Lemma calls_bounded_by_dispatches_witness :
  exists s,
    run [Submit "a" 7; Respond 0 (Failed "e1"); Tick 1000; Wake 0;
         Respond 0 (Failed "e2"); Tick 2000; Wake 0; Respond 0 (Failed "e3")]
        init = Some s /\
    sentCount (history s) = 3 /\
    sentCount (history s) <= maxAttempts * length (dispatchedOf (history s)).
Proof.
  eexists. split; [vm_compute; reflexivity|]. split; [vm_compute; reflexivity|].
  apply (calls_bounded_by_dispatches
           [Submit "a" 7; Respond 0 (Failed "e1"); Tick 1000; Wake 0;
            Respond 0 (Failed "e2"); Tick 2000; Wake 0; Respond 0 (Failed "e3")]).
  vm_compute. reflexivity.
Defined.

Lemma processQueue_timers (s : loop) :
  timers (processQueue s) = timers s /\
  finishedOf (history (processQueue s)) = finishedOf (history s).
Proof.
  unfold processQueue. destruct (processingQueue s); [done|].
  now destruct (requestQueue s).
Qed.

Lemma step_timers (a : input) (s s' : loop) :
  step a s = Some s' ->
  length (timers s') + fired [a] + length (finishedOf (history s))
    = length (timers s) + length (finishedOf (history s')).
Proof.
  intros Hstep. destruct a as [p k|i o|i|i|dt]; cbn [step fired] in *.
  - injection Hstep as <-. unfold queueAIRequest.
    destruct (processQueue_timers
                (Loop (requestQueue s ++ [Build_QueueItem p k]) (processingQueue s)
                      (rateLimitDelay s) (frames s) (timers s) (clock s) (history s)))
      as [-> ->]. cbn. lia.
  - destruct (frames s !! i) as [[item attempts|? ? ?]|]; try discriminate.
    destruct (onAttempt _ _ _); injection Hstep as <-; cbn;
      rewrite ?length_app; cbn; lia.
  - destruct (frames s !! i) as [[? ?|item attempts wake]|]; try discriminate.
    destruct (wake <=? clock s); [|discriminate].
    destruct (attempts <? maxAttempts); injection Hstep as <-; cbn;
      rewrite ?length_app; cbn; lia.
  - destruct (timers s !! i) as [due|] eqn:Hi; [|discriminate].
    destruct (due <=? clock s); [|discriminate].
    injection Hstep as <-.
    destruct (processQueue_timers
                (Loop (requestQueue s) (processingQueue s) (rateLimitDelay s)
                      (frames s) (delete i (timers s)) (clock s) (history s)))
      as [-> ->]. cbn.
    rewrite length_delete by (now exists due).
    apply lookup_lt_Some in Hi. lia.
  - injection Hstep as <-. cbn. lia.
Qed.

Lemma fired_cons (a : input) (ins : list input) :
  fired (a :: ins) = fired [a] + fired ins.
Proof. now destruct a. Qed.

(** X4. The queue does not poll: every ended dispatch arms one timer
    and a timer that fires arms none, so over any run the timers pending
    and the timers fired together number the dispatches ended. *)
Theorem one_timer_per_finished_dispatch (ins : list input) (s : loop) :
  run ins init = Some s ->
  length (timers s) + fired ins = length (finishedOf (history s)).
Proof.
  assert (Hgen : forall ins s0 s,
             run ins s0 = Some s ->
             length (timers s) + fired ins + length (finishedOf (history s0))
               = length (timers s0) + length (finishedOf (history s))).
  { clear. induction ins as [|a ins IH]; intros s0 s Hrun; cbn [run] in Hrun.
    - injection Hrun as <-. cbn. lia.
    - destruct (step a s0) as [s1|] eqn:Hstep; [|discriminate].
      pose proof (IH _ _ Hrun). pose proof (step_timers _ _ _ Hstep).
      rewrite (fired_cons a ins). lia. }
  intros Hrun. specialize (Hgen _ _ _ Hrun). cbn in Hgen. lia.
Qed.

(** X4 at work: the timer of the only dispatch fires on the empty queue
    and leaves no timer behind. *)
Lemma one_timer_per_finished_dispatch_witness :
  exists s,
    run [Submit "a" 0; Respond 0 (Fulfilled "t"); Tick 1000; Fire 0] init = Some s /\
    timers s = [] /\
    length (timers s) + 1 = length (finishedOf (history s)).
Proof.
  eexists. split; [vm_compute; reflexivity|]. split; [vm_compute; reflexivity|].
  apply (one_timer_per_finished_dispatch
           [Submit "a" 0; Respond 0 (Fulfilled "t"); Tick 1000; Fire 0]).
  vm_compute. reflexivity.
Defined.

End QueueHistoryProperties.

(* ===================================================================== *)
(** ** More on the response parser *)
(* ===================================================================== *)

Section ParserMore.
Import JS AIProcessor.

Lemma includes_char (c : ascii) (l : string) :
  includes l (String c EmptyString) = occurs c l.
Proof.
  induction l as [|a l IH]; [reflexivity|].
  cbn [includes occurs String.prefix]. rewrite IH.
  destruct (ascii_dec c a) as [->|Hne].
  - rewrite Ascii.eqb_refl. now destruct l.
  - destruct (Ascii.eqb_spec a c) as [->|_]; [done|reflexivity].
Qed.

Lemma split_no_sep (sep : ascii) (a : string) :
  occurs sep a = false -> split sep a = [a].
Proof.
  induction a as [|c a IH]; [reflexivity|]. cbn [occurs split]. intros Hno.
  apply orb_false_iff in Hno as [Hc Ha]. now rewrite Hc, IH.
Qed.

Lemma split_app (sep : ascii) (a rest : string) :
  occurs sep a = false ->
  split sep (a +:+ String sep rest) = a :: split sep rest.
Proof.
  induction a as [|c a IH]; cbn [occurs]; intros Hno.
  - change (EmptyString +:+ String sep rest) with (String sep rest).
    cbn [split]. now rewrite Ascii.eqb_refl.
  - apply orb_false_iff in Hno as [Hc Ha].
    change (String c a +:+ String sep rest) with (String c (a +:+ String sep rest)).
    cbn [split]. now rewrite Hc, IH.
Qed.

(** X5. A response with a block that [JSON.parse] accepts gives the
    parsed object, with the raw text and the time: the block is the text
    from the first opening brace to the last closing brace, whatever
    stands before and after it, and it is the only thing parsed. *)
Theorem structured_block_is_parsed (J : JSON) (text now pre mid post : string)
    (o : object) :
  text = pre +:+ String "{" (mid +:+ String "}" post) ->
  occurs "{" pre = false -> occurs "}" post = false ->
  JSON_parse (String "{" (mid +:+ String "}" EmptyString)) = Some o ->
  parseAIResponse text now = Structured o text now.
Proof.
  intros -> Hpre Hpost Hparse. unfold parseAIResponse, parseBody.
  rewrite jsonMatch_block by assumption. now rewrite Hparse.
Qed.

(** X5 at work: the block between two sentences, with a parser that
    knows this block. *)
Lemma structured_block_is_parsed_witness :
  @parseAIResponse MoreSamples.oneJSON "Here: {1} Done." "t"
    = @Structured MoreSamples.oneJSON 1 "Here: {1} Done." "t".
Proof.
  apply (structured_block_is_parsed MoreSamples.oneJSON
           "Here: {1} Done." "t" "Here: " "1" " Done." 1); reflexivity.
Defined.

(** X6. [extractSection] reads the first line that holds the label: the
    lines before it, which do not hold the label, are skipped whatever
    they are, and the lines after it matter only as its continuation.
    When no line holds the label the section is the empty string. *)
Theorem extractSection_first_match (sectionName : string) :
  (forall before l rest,
      Forall (fun b => includes b sectionName = false) before ->
      includes l sectionName = true ->
      extractSection (before ++ l :: rest) sectionName
        = afterColon l +:+ continuation rest) /\
  (forall lines,
      Forall (fun b => includes b sectionName = false) lines ->
      extractSection lines sectionName = EmptyString).
Proof.
  split.
  - intros before l rest Hbefore Hl.
    induction Hbefore as [|b before Hb _ IH]; cbn [app extractSection].
    + now rewrite Hl.
    + now rewrite Hb.
  - intros lines Hlines.
    induction Hlines as [|b lines Hb _ IH]; cbn [extractSection]; [reflexivity|].
    now rewrite Hb.
Qed.

(** X6 at work. *)
Lemma extractSection_first_match_witness :
  extractSection ["Intro"; "Tech stack: go"; "Tech stack: rust"] "Tech stack" = "go".
Proof.
  destruct (extractSection_first_match "Tech stack") as [Hfirst _].
  apply (Hfirst ["Intro"] "Tech stack: go" ["Tech stack: rust"]).
  - repeat constructor.
  - reflexivity.
Defined.

(** X7. The text taken from the label's line is what stands between
    its first and its second colon, trimmed: with one colon it is the
    rest of the line, with two or more the text after the second colon
    is left out, and with none it is empty. *)
Theorem afterColon_between_colons (a b c : string) :
  occurs ":" a = false -> occurs ":" b = false ->
  afterColon a = EmptyString /\
  afterColon (a +:+ String ":" b) = trim b /\
  afterColon (a +:+ String ":" (b +:+ String ":" c)) = trim b.
Proof.
  intros Ha Hb. unfold afterColon. repeat split.
  - now rewrite split_no_sep.
  - now rewrite split_app, split_no_sep.
  - now rewrite split_app, split_app.
Qed.

(** X7 at work: a version number keeps its first part only. *)
Lemma afterColon_between_colons_witness :
  afterColon "Tech stack: Node 18: LTS" = "Node 18".
Proof.
  destruct (afterColon_between_colons "Tech stack" " Node 18" " LTS")
    as (_ & _ & Htwo); [reflexivity | reflexivity |].
  exact Htwo.
Defined.

(** X8. The continuation of a section is made of the lines that follow
    the label's line, as long as they hold no colon and are not blank,
    each trimmed and preceded by one space; it ends at the first line
    that holds a colon or is blank, and nothing after that line is
    read. *)
Theorem continuation_stops (ls : list string) (stop : string) (rest : list string) :
  Forall (fun l => occurs ":" l = false /\ truthy (trim l) = true) ls ->
  occurs ":" stop = true \/ trim stop = EmptyString ->
  continuation (ls ++ stop :: rest)
    = String.concat EmptyString (map (fun l => " " +:+ trim l) ls) /\
  continuation ls
    = String.concat EmptyString (map (fun l => " " +:+ trim l) ls).
Proof.
  intros Hls Hstop.
  assert (Hconcat : forall (x : string) (xs : list string),
             String.concat EmptyString (x :: xs)
               = x +:+ String.concat EmptyString xs).
  { intros x [|y xs]; cbn [String.concat]; [|reflexivity].
    induction x as [|ch x IHx]; [reflexivity|].
    change (String ch x +:+ EmptyString) with (String ch (x +:+ EmptyString)).
    now f_equal. }
  assert (Hassoc : forall x y z : string, (x +:+ y) +:+ z = x +:+ (y +:+ z)).
  { induction x as [|ch x IHx]; intros y z; [reflexivity|].
    change (String ch ((x +:+ y) +:+ z) = String ch (x +:+ (y +:+ z))).
    now f_equal. }
  induction Hls as [|l ls [Hl Ht] _ [IH1 IH2]].
  - cbn [app map continuation]. rewrite includes_char. split; [|reflexivity].
    destruct Hstop as [-> | ->]; [reflexivity|]. cbn. now rewrite andb_false_r.
  - cbn [app map continuation]. rewrite includes_char, Hl, Ht. cbn [negb andb].
    rewrite !Hconcat, IH1, IH2, !Hassoc. split; reflexivity.
Qed.

(** X8 at work: two lines of continuation, then a blank line. *)
Lemma continuation_stops_witness :
  continuation ["  rust"; "go  "; "   "; "not read"] = " rust go".
Proof.
  destruct (continuation_stops ["  rust"; "go  "] "   " ["not read"]) as [Hc _].
  - repeat constructor.
  - right. reflexivity.
  - exact Hc.
Defined.

End ParserMore.

(* ===================================================================== *)
(** ** More on the structural extractor *)
(* ===================================================================== *)

Section ExtractorProperties.
Import JS GitHubScraper.
Context {C : Cheerio}.

Lemma slash_prefix_includes (href : string) :
  String.prefix "/" href = true -> includes href "/" = true.
Proof. intros Hp. destruct href as [|c href]; [discriminate|]. cbn [includes]. now rewrite Hp. Qed.

Lemma tryLink_id (acc : string * list node) (link : node) : tryLink acc link = acc.
Proof.
  unfold tryLink. destruct acc as [username usernameLink].
  destruct (attr link "href") as [href|]; [|reflexivity].
  destruct (truthy href); [|reflexivity]. cbn [andb].
  destruct (String.prefix "/" href) eqn:Hp; [|reflexivity].
  now rewrite (slash_prefix_includes href Hp).
Qed.

Lemma fold_tryLink (links : list node) (acc : string * list node) :
  fold_left tryLink links acc = acc.
Proof.
  revert acc. induction links as [|link links IH]; intros acc; [reflexivity|].
  cbn [fold_left]. now rewrite tryLink_id.
Qed.

(** X9. The scan over all the links of a result never finds a
    username: it asks for a link whose [href] starts with a slash and
    holds no slash, and a string that starts with a slash holds one. The
    username and its link come out of the scan as they went in, whatever
    the links and whatever their addresses and texts. *)
Theorem link_scan_changes_nothing (links : list node) (username : string)
    (usernameLink : list node) :
  fold_left tryLink links (username, usernameLink) = (username, usernameLink) /\
  (forall href, (String.prefix "/" href && negb (includes href "/")) = false).
Proof.
  split; [apply fold_tryLink|].
  intros href. destruct (String.prefix "/" href) eqn:Hp; [|reflexivity].
  now rewrite (slash_prefix_includes href Hp).
Qed.

Lemma orNull_not_empty (t : string) : orNull t <> Some EmptyString.
Proof. unfold orNull. destruct t; cbn; congruence. Qed.

Lemma candidate_Some (userElement : node) (u : User) :
  candidate userElement = Some u ->
  truthy (username u) = true /\
  String.prefix "http" (profile_url u) = true /\
  raw_data u = NoRaw /\ contribution_count u = None /\
  pinned_repositories u = None /\
  display_name u <> Some EmptyString /\ bio u <> Some EmptyString.
Proof.
  unfold candidate. rewrite fold_tryLink.
  set (username0 := trim (text (query userElement "span.gbmbF"))).
  set (link0 := lastOf (query userElement "a.prc-Link-Link-85e08")).
  assert (Hsame : (if truthy username0 then (username0, link0) else (username0, link0))
                  = (username0, link0)) by now destruct (truthy username0).
  rewrite Hsame. clear Hsame.
  match goal with
  | |- context [if truthy username0 then (username0, link0) else ?other] =>
      destruct (if truthy username0 then (username0, link0) else other)
        as [username usernameLink]
  end.
  destruct (truthy username) eqn:Hname; [|discriminate].
  intros Hu. injection Hu as <-. cbn.
  split; [exact Hname|]. split.
  - destruct usernameLink as [|n l]; [reflexivity|].
    destruct (attr n "href") as [href|]; [|reflexivity].
    destruct (truthy href && String.prefix "http" href) eqn:Habs; [|reflexivity].
    now apply andb_true_iff in Habs as [_ ->].
  - repeat split; apply orNull_not_empty.
Qed.

Lemma length_omap_le {A B : Type} (f : A -> option B) (l : list A) :
  length (omap f l) <= length l.
Proof.
  induction l as [|a l IH]; [reflexivity|]. cbn.
  destruct (f a); cbn; lia.
Qed.

(** X10. Every candidate read from a search page has a username that
    is not empty, an absolute profile address (it starts with [http]), no
    profile facts yet, and a display name and a bio that are absent
    rather than empty; and a page gives at most one candidate for each
    element of the selection in use. *)
Theorem extracted_candidates_are_well_formed (data : string) :
  (forall u, u ∈ extractUsers data ->
     truthy (username u) = true /\
     String.prefix "http" (profile_url u) = true /\
     raw_data u = NoRaw /\ contribution_count u = None /\
     pinned_repositories u = None /\
     display_name u <> Some EmptyString /\ bio u <> Some EmptyString) /\
  length (extractUsers data) <= length (userElements (load data)).
Proof.
  split.
  - intros u Hu. unfold extractUsers in Hu.
    apply list_elem_of_omap in Hu as (el & _ & Hel).
    now apply candidate_Some in Hel.
  - apply length_omap_le.
Qed.

Lemma firstMatch_none (root : node) (selectors : list string) (current : list node) :
  (forall selector, query root selector = []) ->
  firstMatch root selectors current = current.
Proof.
  intros Hnone. induction selectors as [|sel selectors IH]; [reflexivity|].
  cbn [firstMatch]. now rewrite Hnone.
Qed.


Lemma pinnedElements_none (root : node) (selectors : list string) (current : list node) :
  (forall selector, selector ∈ selectors -> query root selector = []) ->
  current = [] ->
  pinnedElements root selectors current = [].
Proof.
  revert current. induction selectors as [|sel selectors IH]; intros current Hnone Hcur;
    [exact Hcur|].
  cbn [pinnedElements]. rewrite (Hnone sel) by left. cbn [length Nat.ltb Nat.leb].
  apply IH; [|reflexivity]. intros s Hs. apply Hnone. now right.
Qed.

Lemma orElse_truthy (a b : string) : truthy b = true -> truthy (orElse a b) = true.
Proof. unfold orElse. now destruct (truthy a) eqn:Ha. Qed.

(** X12. The record made from a profile page keeps the candidate's
    username, display name, address and bio. Its pinned repositories are
    a list, empty when none of the three pinned selectors selects
    anything; every repository in it has a name that is not empty, and a
    description and a language that are absent rather than empty; and no
    organization name in it is empty. *)
Theorem extracted_profile_is_well_formed (user : User) (data : string) :
  username (extractProfile user data) = username user /\
  display_name (extractProfile user data) = display_name user /\
  profile_url (extractProfile user data) = profile_url user /\
  bio (extractProfile user data) = bio user /\
  (exists repos followers following organizations readme,
      pinned_repositories (extractProfile user data) = Some repos /\
      raw_data (extractProfile user data)
        = Facts followers following organizations readme /\
      Forall (fun r => truthy (name r) = true /\
                       description r <> Some EmptyString /\
                       language r <> Some EmptyString) repos /\
      Forall (fun o => truthy o = true) organizations /\
      readme <> Some EmptyString /\
      ((forall selector, selector ∈ pinnedSelectors ->
                         query (load data) selector = []) -> repos = [])).
Proof.
  repeat split. do 5 eexists.
  split; [reflexivity|]. split; [reflexivity|]. repeat split.
  - apply Forall_forall. intros r Hr.
    apply list_elem_of_In, in_map_iff in Hr as (el & <- & _).
    unfold pinnedRepo. cbn [name description language].
    split; [now apply orElse_truthy|]. split; apply orNull_not_empty.
  - apply Forall_forall. intros o Ho.
    apply list_elem_of_filter in Ho as [Ho _]. exact Ho.
  - apply orNull_not_empty.
  - intros Hnone. now rewrite pinnedElements_none.
Qed.

End ExtractorProperties.

(* ===================================================================== *)
(** ** More on the fetch scheduler and its cache *)
(* ===================================================================== *)

Section CacheProperties.
Import JS GitHubScraper.
Context {H : Host} {C : Cheerio}.

Lemma profileKey_username (u v : User) :
  username v = username u -> profileKey v = profileKey u.
Proof. unfold profileKey. now intros ->. Qed.

(** X13. A profile read from a body that is not empty is cached under
    its username: the call sends one request and returns the record made
    from the page, and from then on a call for any candidate of that
    username returns this very record and changes nothing: no request,
    no new cache entry, whatever the other fields of the candidate. *)
Theorem profile_cache_round_trip (u : User) (s : scraper) (data : string) :
  profileCache s !! profileKey u = None ->
  get (issued s) (profile_url u) = Body data -> truthy data = true ->
  exists s',
    scrapeUserProfile u s = (extractProfile u data, s') /\
    profileCache s' !! profileKey u = Some (extractProfile u data) /\
    issued s' = S (issued s) /\
    trace s' = trace s ++ [Get (profile_url u)] /\
    (forall v, username v = username u ->
               scrapeUserProfile v s' = (extractProfile u data, s')).
Proof.
  intros Hmiss Hget Hdata.
  unfold scrapeUserProfile, scrapeUserProfile_begin. rewrite Hmiss.
  cbn [send]. rewrite Hget. unfold scrapeUserProfile_end.
  rewrite truthy_length by exact Hdata.
  eexists. split; [reflexivity|]. cbn.
  split; [apply lookup_insert_eq|]. repeat split.
  intros v Hv. rewrite (profileKey_username u v Hv).
  now rewrite lookup_insert_eq.
Qed.

(** X14. A profile whose request fails, or whose body is empty, is not
    cached: the caches are as before, and the next call for the same
    candidate sends its request again. *)
Theorem failed_profile_is_not_cached (u : User) (s : scraper) :
  profileCache s !! profileKey u = None ->
  (exists message, get (issued s) (profile_url u) = NetError message) \/
  get (issued s) (profile_url u) = Body EmptyString ->
  profileCache (scrapeUserProfile u s).2 = profileCache s /\
  searchCache (scrapeUserProfile u s).2 = searchCache s /\
  trace (scrapeUserProfile u s).2 = trace s ++ [Get (profile_url u)] /\
  trace (scrapeUserProfile u (scrapeUserProfile u s).2).2
    = trace s ++ [Get (profile_url u); Get (profile_url u)].
Proof.
  intros Hmiss Hfail.
  assert (Hfirst : exists r,
             scrapeUserProfile u s
               = (r, Scraper (rateLimitDelay s) (batchSize s) (searchCache s)
                             (profileCache s) (S (issued s))
                             (trace s ++ [Get (profile_url u)]))).
  { unfold scrapeUserProfile, scrapeUserProfile_begin. rewrite Hmiss. cbn [send].
    destruct Hfail as [[message ->] | ->]; eexists; reflexivity. }
  destruct Hfirst as [r ->]. cbn [snd profileCache searchCache trace].
  repeat split.
  unfold scrapeUserProfile, scrapeUserProfile_begin. cbn [profileCache].
  rewrite Hmiss. cbn [send issued]. unfold scrapeUserProfile_end.
  destruct (get (S (issued s)) (profile_url u)) as [message|data].
  - cbn. now rewrite <- app_assoc.
  - destruct (negb (truthy data) || (String.length data =? 0)); cbn;
      now rewrite <- app_assoc.
Qed.

(** X15. A search page read from a body that is not empty is cached,
    with the candidates it gave, even when it gave none: the call sends
    one request and sleeps once, and a later call for the same query and
    page returns the same candidates and changes nothing. A page whose
    request fails or whose body is empty gives the empty list and is not
    cached, and the call does not sleep. *)
Theorem search_page_cache_round_trip (query : string) (page : nat) (s : scraper) :
  searchCache s !! usersKey query page = None ->
  (forall data,
      get (issued s) (usersUrl query page) = Body data -> truthy data = true ->
      exists s',
        scrapeUsersPage query page s = (extractUsers data, s') /\
        searchCache s' !! usersKey query page = Some (extractUsers data) /\
        trace s' = trace s ++ [Get (usersUrl query page); Sleep (rateLimitDelay s)] /\
        scrapeUsersPage query page s' = (extractUsers data, s')) /\
  ((exists message, get (issued s) (usersUrl query page) = NetError message) \/
   get (issued s) (usersUrl query page) = Body EmptyString ->
   (scrapeUsersPage query page s).1 = [] /\
   searchCache (scrapeUsersPage query page s).2 = searchCache s /\
   trace (scrapeUsersPage query page s).2 = trace s ++ [Get (usersUrl query page)]).
Proof.
  intros Hmiss. split.
  - intros data Hget Hdata.
    unfold scrapeUsersPage, scrapeUsersPage_begin. rewrite Hmiss.
    cbn [send]. rewrite Hget. unfold scrapeUsersPage_end.
    rewrite truthy_length by exact Hdata.
    eexists. split; [reflexivity|]. cbn.
    split; [apply lookup_insert_eq|]. split; [now rewrite <- app_assoc|].
    now rewrite lookup_insert_eq.
  - intros Hfail.
    unfold scrapeUsersPage, scrapeUsersPage_begin. rewrite Hmiss. cbn [send].
    destruct Hfail as [[message ->] | ->]; cbn; repeat split.
Qed.

(** X16. [clearCache] empties the cache for profiles and pages alike:
    after it the next call for any candidate, and for any page of any
    query, sends its request, whatever had been cached. *)
Theorem clearCache_forgets_everything (s : scraper) :
  (forall u, trace (scrapeUserProfile u (clearCache s)).2
             = trace s ++ [Get (profile_url u)]) /\
  (forall query page,
      exists sleeps,
        trace (scrapeUsersPage query page (clearCache s)).2
          = trace s ++ Get (usersUrl query page) :: sleeps /\
        Forall (fun e => isSleep e = true) sleeps).
Proof.
  split.
  - intros u. unfold scrapeUserProfile, scrapeUserProfile_begin, clearCache.
    cbn [profileCache]. rewrite lookup_empty. cbn [send issued].
    unfold scrapeUserProfile_end.
    destruct (get (issued s) (profile_url u)) as [message|data]; [reflexivity|].
    now destruct (negb (truthy data) || (String.length data =? 0)).
  - intros query page. unfold scrapeUsersPage, scrapeUsersPage_begin, clearCache.
    cbn [searchCache]. rewrite lookup_empty. cbn [send issued].
    unfold scrapeUsersPage_end.
    destruct (get (issued s) (usersUrl query page)) as [message|data].
    + exists []. cbn. split; [reflexivity|constructor].
    + destruct (negb (truthy data) || (String.length data =? 0)).
      * exists []. cbn. split; [reflexivity|constructor].
      * exists [Sleep (rateLimitDelay s)]. cbn.
        split; [now rewrite <- app_assoc|]. repeat constructor.
Qed.

(** X17. A call of [searchUsers] with a number of pages fails towards
    its caller in one case only: when the query cannot be turned into
    text by the first log line, and then with the error of that
    conversion and before anything is requested. In every other case,
    and so for every string, the call returns a list when it ends: the
    failure of the connectivity test and whatever happens after it are
    caught. For a valid query whose connectivity test fails, by an error
    or by an empty body, it returns the empty list after that one
    request: no search page is asked for and the caches are as before. *)
Theorem searchUsers_fails_only_on_conversion (fuel : nat) (query : arg) (pages : nat)
    (s : scraper) :
  (forall c s',
      searchUsers fuel query pages s = Some (c, s') ->
      match interpolate query with
      | Some message => c = Thrown message /\ s' = s
      | None => exists users, c = Returned users
      end) /\
  (forall q c s',
      searchUsers fuel (Str q) pages s = Some (c, s') ->
      exists users, c = Returned users) /\
  (forall q,
      query = Str q -> invalid query = false ->
      (exists message, get (issued s) "https://github.com/" = NetError message) \/
      get (issued s) "https://github.com/" = Body EmptyString ->
      exists s',
        searchUsers fuel query pages s = Some (Returned [], s') /\
        trace s' = trace s ++ [Get "https://github.com/"] /\
        searchCache s' = searchCache s /\ profileCache s' = profileCache s).
Proof.
  assert (Hlist : forall query c s',
             interpolate query = None ->
             searchUsers fuel query pages s = Some (c, s') ->
             exists users, c = Returned users).
  { intros query' c s' Htext Hrun. unfold searchUsers in Hrun. rewrite Htext in Hrun.
    destruct (invalid query'); [injection Hrun as <- _; now eexists|].
    destruct query' as [q|b e]; [|injection Hrun as <- _; now eexists].
    destruct (testGitHubConnectivity s) as [[ok|message] s1];
      [|injection Hrun as <- _; now eexists].
    destruct (fetchAllUsers q pages s1) as [users s2].
    destruct (length users =? 0); [injection Hrun as <- _; now eexists|].
    destruct (processUserProfilesInBatches fuel users s2) as [[detailed s3]|];
      [|discriminate].
    injection Hrun as <- _. now eexists. }
  split; [|split].
  - intros c s' Hrun. destruct (interpolate query) as [message|] eqn:Htext.
    + unfold searchUsers in Hrun. rewrite Htext in Hrun. now injection Hrun as <- <-.
    + exact (Hlist query c s' Htext Hrun).
  - intros q c s' Hrun. exact (Hlist (Str q) c s' eq_refl Hrun).
  - intros q -> Hvalid Hdown. unfold searchUsers. cbn [interpolate]. rewrite Hvalid.
    unfold testGitHubConnectivity, send.
    destruct Hdown as [[message ->] | ->]; eexists; cbn; repeat split.
Qed.

Lemma scrapeBatch_nil (s : scraper) : scrapeBatch [] s = ([], s).
Proof. reflexivity. Qed.

Lemma batchLoop_zero (users : list User) :
  users <> [] ->
  forall fuel acc s, batchSize s = 0 -> batchLoop fuel 0 users acc s = None.
Proof.
  intros Hne. induction fuel as [|fuel IH]; intros acc s HB; [reflexivity|].
  assert (Hlt : (0 <? length users) = true).
  { apply Nat.ltb_lt. destruct users; [done|cbn; lia]. }
  cbn [batchLoop]. rewrite Hlt, HB.
  change (take 0 (drop 0 users)) with (@nil User).
  rewrite scrapeBatch_nil. rewrite HB. cbn [Nat.add].
  rewrite Hlt. cbn [sleep batchSize]. rewrite HB. apply IH. exact HB.
Qed.

(** X18. With a batch size of zero and at least one candidate the loop
    over the batches never ends: the index does not advance, each turn
    processes an empty batch and sleeps, and no amount of turns returns a
    result. *)
Theorem zero_batch_size_never_returns (fuel : nat) (users : list User) (s : scraper) :
  batchSize s = 0 -> users <> [] ->
  processUserProfilesInBatches fuel users s = None.
Proof.
  intros HB Hne. unfold processUserProfilesInBatches. now apply batchLoop_zero.
Qed.

Lemma pages_begin_issued (query : string) (pages : list nat) :
  forall s ps s1,
    forEach scrapeUsersPage_begin (map (fun page => (query, page)) pages) s = (ps, s1) ->
    issued s1 = issued s + length (uncachedPages (searchCache s) query pages) /\
    fetches (trace s1)
      = fetches (trace s) + length (uncachedPages (searchCache s) query pages).
Proof.
  induction pages as [|page pages IH]; intros s ps s1 Hbegin;
    cbn [map forEach] in Hbegin.
  - injection Hbegin as <- <-. cbn. lia.
  - unfold scrapeUsersPage_begin in Hbegin at 1. unfold uncachedPages in *.
    rewrite filter_cons.
    destruct (searchCache s !! usersKey query page) as [cached|] eqn:Hc.
    + destruct (forEach scrapeUsersPage_begin _ s) as [ps' s1'] eqn:Hrest.
      injection Hbegin as <- <-.
      destruct (decide _) as [Hd|Hd]; [congruence|]. now apply IH in Hrest.
    + cbn [send] in Hbegin.
      destruct (forEach scrapeUsersPage_begin _ _) as [ps' s1'] eqn:Hrest.
      injection Hbegin as <- <-.
      destruct (decide _) as [Hd|Hd]; [|congruence].
      apply IH in Hrest as [Hi Hf]. cbn [searchCache issued trace] in Hi, Hf.
      rewrite fetches_app in Hf.
      change (fetches [Get (usersUrl query page)]) with 1 in Hf.
      cbn [length]. split; lia.
Qed.

(** X19. [fetchAllUsers] sends one request for each page from 1 to
    [pages] that is not cached and none for a cached page, so at most
    [pages] requests; for zero pages it returns the empty list and
    changes nothing. *)
Theorem fetchAllUsers_requests (query : string) (pages : nat) (s : scraper) :
  issued (fetchAllUsers query pages s).2
    = issued s + length (uncachedPages (searchCache s) query (seq 1 pages)) /\
  fetches (trace (fetchAllUsers query pages s).2)
    = fetches (trace s) + length (uncachedPages (searchCache s) query (seq 1 pages)) /\
  length (uncachedPages (searchCache s) query (seq 1 pages)) <= pages /\
  fetchAllUsers query 0 s = ([], s).
Proof.
  assert (Hend : forall jobs w,
             issued (forEach scrapeUsersPage_end jobs w).2 = issued w /\
             fetches (trace (forEach scrapeUsersPage_end jobs w).2) = fetches (trace w)).
  { intros jobs w.
    apply (forEach_preserves
             (fun w' => issued w' = issued w /\ fetches (trace w') = fetches (trace w))
             scrapeUsersPage_end); [|now split].
    intros [[q p] [cached|[message|data]]] w' Hw'; unfold scrapeUsersPage_end;
      try exact Hw'.
    destruct (negb (truthy data) || (String.length data =? 0)); [exact Hw'|].
    cbn [snd sleep setSearch issued trace rateLimitDelay]. rewrite fetches_app.
    change (fetches [Sleep _]) with 0.
    destruct Hw' as [-> ->]. split; lia. }
  repeat split.
  - unfold fetchAllUsers.
    destruct (forEach scrapeUsersPage_begin _ s) as [ps s1] eqn:Hbegin.
    apply pages_begin_issued in Hbegin as [Hi _].
    destruct (Hend (combine (map (fun page => (query, page)) (seq 1 pages)) ps) s1)
      as [Hi' _].
    destruct (forEach scrapeUsersPage_end _ s1) as [rs s2]. cbn in *. lia.
  - unfold fetchAllUsers.
    destruct (forEach scrapeUsersPage_begin _ s) as [ps s1] eqn:Hbegin.
    apply pages_begin_issued in Hbegin as [_ Hf].
    destruct (Hend (combine (map (fun page => (query, page)) (seq 1 pages)) ps) s1)
      as [_ Hf'].
    destruct (forEach scrapeUsersPage_end _ s1) as [rs s2]. cbn in *. lia.
  - unfold uncachedPages. etransitivity; [apply length_filter|].
    now rewrite length_seq.
Qed.

Lemma append_inv_head (x y z : string) : x +:+ y = x +:+ z -> y = z.
Proof.
  induction x as [|c x IH]; intros Heq; [exact Heq|].
  rewrite !append_String in Heq. injection Heq as Heq. now apply IH.
Qed.

Lemma usersKey_inj (query : string) (p1 p2 : nat) :
  usersKey query p1 = usersKey query p2 -> p1 = p2.
Proof.
  unfold usersKey. intros Heq.
  do 3 apply append_inv_head in Heq. now apply pretty_nat_inj in Heq.
Qed.

Lemma forEach_cons_state {A B : Type} (f : A -> scraper -> B * scraper)
    (a : A) (l : list A) (s : scraper) :
  (forEach f (a :: l) s).2 = (forEach f l (f a s).2).2.
Proof.
  cbn [forEach]. destruct (f a s) as [b s1]. cbn [snd].
  now destruct (forEach f l s1).
Qed.

Lemma page_answers_swap (query : string) (p1 p2 : nat)
    (a1 a2 : pending (list User)) (s : scraper) :
  p1 <> p2 ->
  (scrapeUsersPage_end ((query, p2), a2)
     (scrapeUsersPage_end ((query, p1), a1) s).2).2
  = (scrapeUsersPage_end ((query, p1), a1)
       (scrapeUsersPage_end ((query, p2), a2) s).2).2.
Proof.
  intros Hne. destruct a1 as [c1|[m1|d1]], a2 as [c2|[m2|d2]];
    cbn [scrapeUsersPage_end snd]; try reflexivity;
    repeat match goal with
           | |- context [negb (truthy ?d) || (String.length ?d =? 0)] =>
               destruct (negb (truthy d) || (String.length d =? 0))
           end;
    cbn [snd]; try reflexivity.
  unfold sleep, setSearch. cbn. f_equal.
  apply insert_insert_ne. intros Heq. apply usersKey_inj in Heq. congruence.
Qed.

(** X26. The pages of one query are read at the same time, and the
    state that their answers leave does not depend on the order in which
    the answers come: taken in any order, the answers for distinct pages
    leave the same cache and the same trace. *)
Theorem page_answers_in_any_order (query : string)
    (jobs jobs' : list (nat * pending (list User))) :
  Permutation jobs jobs' -> NoDup (map fst jobs) ->
  forall s,
    (forEach scrapeUsersPage_end (map (fun j => ((query, j.1), j.2)) jobs) s).2
    = (forEach scrapeUsersPage_end (map (fun j => ((query, j.1), j.2)) jobs') s).2.
Proof.
  induction 1 as [|[p a] l l' Hperm IH|[p1 a1] [p2 a2] l|l l' l'' H1 IH1 H2 IH2];
    intros Hnd s.
  - reflexivity.
  - cbn [map]. rewrite !forEach_cons_state. apply IH.
    cbn [map] in Hnd. now apply NoDup_cons in Hnd as [_ Hnd].
  - cbn [map fst snd]. rewrite !forEach_cons_state.
    rewrite (page_answers_swap query p1 p2 a1 a2 s); [reflexivity|].
    cbn [map fst] in Hnd.
    apply NoDup_cons in Hnd as [Hnot _]. intros <-. apply Hnot. left.
  - rewrite IH1 by exact Hnd. apply IH2.
    assert (Hp : Permutation (map fst l) (map fst l')) by now apply Permutation_map.
    now rewrite <- Hp.
Qed.

(** X25. Two candidates of one username in one batch, neither cached:
    both are requested, each gets the record read from its own answer,
    and the cache is left with the record of the one whose answer comes
    last, which the order of the batch does not tell. *)
Theorem last_answer_is_cached (u v : User) (s : scraper) (data1 data2 : string) :
  username v = username u ->
  profileCache s !! profileKey u = None ->
  get (issued s) (profile_url u) = Body data1 -> truthy data1 = true ->
  get (S (issued s)) (profile_url v) = Body data2 -> truthy data2 = true ->
  (scrapeBatch [u; v] s).1 = [extractProfile u data1; extractProfile v data2] /\
  trace (scrapeBatch [u; v] s).2
    = trace s ++ [Get (profile_url u); Get (profile_url v)] /\
  profileCache (scrapeBatch [u; v] s).2 !! profileKey u
    = Some (if arrival (issued s) <=? arrival (S (issued s))
            then extractProfile v data2
            else extractProfile u data1).
Proof.
  intros Hname Hmiss Hget1 Hdata1 Hget2 Hdata2.
  pose proof (profileKey_username u v Hname) as Hkey.
  pose proof (truthy_length data1 Hdata1) as Hd1.
  pose proof (truthy_length data2 Hdata2) as Hd2.
  unfold scrapeBatch. cbn [forEach]. unfold scrapeUserProfile_begin.
  rewrite Hmiss. cbn [send profileCache issued]. rewrite Hkey, Hmiss, Hget1, Hget2.
  cbn [combine inFlight byArrival fold_right insertByDue due length].
  destruct (arrival (issued s) <=? arrival (S (issued s)));
    unfold resume; cbn [forEach task place scrapeUserProfile_end];
    rewrite Hd1, Hd2; cbn -[extractProfile profileKey]; rewrite Hkey.
  - split; [reflexivity|]. split; [now rewrite <- app_assoc|].
    apply lookup_insert_eq.
  - split; [reflexivity|]. split; [now rewrite <- app_assoc|].
    apply lookup_insert_eq.
Qed.

End CacheProperties.

(* ===================================================================== *)
(** ** The extractor and the cache on the sample hosts *)
(* ===================================================================== *)

Section CacheExamples.
Import JS GitHubScraper Samples.

(** X10 at work: the first candidate of the sample result page. *)
Lemma extracted_candidates_are_well_formed_witness :
  ann ∈ @extractUsers sampleCheerio "results" /\
  String.prefix "http" (profile_url ann) = true.
Proof.
  assert (Hin : ann ∈ @extractUsers sampleCheerio "results")
    by (vm_compute; left).
  split; [exact Hin|].
  destruct (@extracted_candidates_are_well_formed sampleCheerio "results") as [Hall _].
  now destruct (Hall ann Hin) as (_ & Hurl & _).
Defined.


(** X12 at work: the sample profile has no pinned markup. *)
Lemma extracted_profile_is_well_formed_witness :
  pinned_repositories (@extractProfile sampleCheerio ann "profile") = Some [].
Proof.
  destruct (@extracted_profile_is_well_formed sampleCheerio ann "profile")
    as (_ & _ & _ & _ & repos & followers & following & orgs & readme
        & Hpinned & _ & _ & _ & _ & Hnone).
  rewrite Hpinned. f_equal. apply Hnone.
  intros selector Hsel. unfold pinnedSelectors in Hsel.
  repeat (apply elem_of_cons in Hsel as [->|Hsel]; [reflexivity|]).
  now apply elem_of_nil in Hsel.
Defined.

(** X13 at work: [ann] on the host that always answers. *)
Lemma profile_cache_round_trip_witness :
  exists s',
    @scrapeUserProfile steadyHost sampleCheerio ann init
      = (@extractProfile sampleCheerio ann "profile", s') /\
    @scrapeUserProfile steadyHost sampleCheerio ann s'
      = (@extractProfile sampleCheerio ann "profile", s').
Proof.
  destruct (@profile_cache_round_trip steadyHost sampleCheerio ann init "profile")
    as (s' & Hfirst & _ & _ & _ & Hagain); try reflexivity.
  exists s'. split; [exact Hfirst|]. now apply Hagain.
Defined.

(** X14 at work: [ann] on the host that is down. *)
Lemma failed_profile_is_not_cached_witness :
  trace (@scrapeUserProfile downHost sampleCheerio ann
           (@scrapeUserProfile downHost sampleCheerio ann init).2).2
    = [Get "https://github.com/ann"; Get "https://github.com/ann"].
Proof.
  destruct (@failed_profile_is_not_cached downHost sampleCheerio ann init)
    as (_ & _ & _ & Htwice); [reflexivity | left; now exists "ECONNRESET" |].
  exact Htwice.
Defined.

(** X15 at work: page 2 of the sample search. *)
Lemma search_page_cache_round_trip_witness :
  exists s',
    @scrapeUsersPage flakyHost sampleCheerio "rust developer" 2 init
      = ([ann; bob; cyd], s') /\
    @scrapeUsersPage flakyHost sampleCheerio "rust developer" 2 s'
      = ([ann; bob; cyd], s').
Proof.
  destruct (@search_page_cache_round_trip flakyHost sampleCheerio
              "rust developer" 2 init) as [Hok _]; [vm_compute; reflexivity|].
  destruct (Hok "results") as (s' & Hfirst & _ & _ & Hagain);
    [vm_compute; reflexivity | reflexivity |].
  exists s'. split; [exact Hfirst | exact Hagain].
Defined.

(** X17 at work: a valid query on the host that is down. *)
Lemma searchUsers_fails_only_on_conversion_witness :
  exists s',
    @searchUsers downHost sampleCheerio 10 (Str "rust developer") 3 init
      = Some (Returned [], s') /\
    trace s' = [Get "https://github.com/"].
Proof.
  destruct (@searchUsers_fails_only_on_conversion downHost sampleCheerio 10
              (Str "rust developer") 3 init) as (_ & _ & Hdown).
  destruct (Hdown "rust developer") as (s' & Hrun & Htrace & _);
    [reflexivity | reflexivity | left; now exists "ECONNRESET" |].
  exists s'. split; [exact Hrun | exact Htrace].
Defined.

(** X18 at work: one candidate and a batch size of zero. *)
Lemma zero_batch_size_never_returns_witness :
  @processUserProfilesInBatches steadyHost sampleCheerio 50 [ann]
     (Scraper 3000 0 ∅ ∅ 0 []) = None.
Proof.
  apply (@zero_batch_size_never_returns steadyHost sampleCheerio 50 [ann]
           (Scraper 3000 0 ∅ ∅ 0 [])); [reflexivity | discriminate].
Defined.

(** X25 at work: on the host whose answers come in the reverse order of
    the requests, the record of the first of two candidates named [ann]
    is the one left in the cache. *)
Lemma last_answer_is_cached_witness :
  profileCache
    (@scrapeBatch flakyHost sampleCheerio
       [ann; Build_User "ann" (Some "Ann B") "https://github.com/ann" None NoRaw None None]
       init).2 !! "profile:ann"
    = Some (@extractProfile sampleCheerio ann "profile").
Proof.
  destruct (@last_answer_is_cached flakyHost sampleCheerio ann
              (Build_User "ann" (Some "Ann B") "https://github.com/ann" None NoRaw None None)
              init "profile" "profile") as (_ & _ & Hcache);
    [reflexivity | apply lookup_empty | reflexivity | reflexivity | reflexivity
    | reflexivity |].
  exact Hcache.
Defined.

(** X26 at work: page 1 answered with the results and page 2 failing,
    in the two orders. *)
Lemma page_answers_in_any_order_witness :
  (forEach (@scrapeUsersPage_end sampleCheerio)
     [(("q", 1), Awaiting (Body "results")); (("q", 2), Awaiting (NetError "ETIMEDOUT"))]
     init).2
  = (forEach (@scrapeUsersPage_end sampleCheerio)
       [(("q", 2), Awaiting (NetError "ETIMEDOUT")); (("q", 1), Awaiting (Body "results"))]
       init).2.
Proof.
  apply (@page_answers_in_any_order sampleCheerio "q"
           [(1, Awaiting (Body "results")); (2, Awaiting (NetError "ETIMEDOUT"))]
           [(2, Awaiting (NetError "ETIMEDOUT")); (1, Awaiting (Body "results"))]).
  - apply perm_swap.
  - apply (bool_decide_unpack _). vm_compute. exact I.
Defined.

End CacheExamples.

(* ===================================================================== *)
(** ** From a profile to its insights *)
(* ===================================================================== *)

Section PromptProperties.
Import JS AIProcessor GitHubScraper Prompt.

Lemma prefix_refl (p : string) : String.prefix p p = true.
Proof.
  induction p as [|c p IH]; [reflexivity|]. cbn [String.prefix].
  now destruct (ascii_dec c c).
Qed.

Lemma prefix_append (p c x : string) :
  String.prefix p c = true -> String.prefix p (c +:+ x) = true.
Proof.
  revert c. induction p as [|a p IH]; intros c Hp; [now destruct (c +:+ x)|].
  destruct c as [|b c]; [discriminate|].
  change (String b c +:+ x) with (String b (c +:+ x)).
  cbn [String.prefix] in *. destruct (ascii_dec a b); [|discriminate]. now apply IH.
Qed.

Lemma repoLines_prefix (p : string) (repos : list Repo) :
  forall index content,
    String.prefix p content = true ->
    String.prefix p (repoLines index repos content) = true.
Proof.
  induction repos as [|repo repos IH]; intros index content Hp; [exact Hp|].
  cbn [repoLines]. apply IH.
  destruct (description repo) as [d|]; [destruct (truthy d)|];
    repeat apply prefix_append; exact Hp.
Qed.

(** X20. The text sent about a user always starts with the line of the
    username. The message of a failed scrape never enters it: the record
    of a candidate whose profile request failed gives the same text as
    the candidate. A candidate with no display name and no bio gives that
    one line and nothing else. *)
Theorem prompt_content (user : User) :
  String.prefix ("GitHub Username: " +:+ username user +:+ nl)
                (prepareUserContent user) = true /\
  (forall message,
      raw_data user = NoRaw ->
      prepareUserContent (withError user message) = prepareUserContent user) /\
  (display_name user = None -> bio user = None ->
   contribution_count user = None -> pinned_repositories user = None ->
   raw_data user = NoRaw ->
   prepareUserContent user = "GitHub Username: " +:+ username user +:+ nl).
Proof.
  split; [|split].
  - unfold prepareUserContent.
    set (p := "GitHub Username: " +:+ username user +:+ nl).
    cbv zeta.
    repeat match goal with
           | |- String.prefix p p = true => apply prefix_refl
           | |- String.prefix _ (match ?x with _ => _ end) = true => destruct x
           | |- String.prefix _ (repoLines _ _ _) = true => apply repoLines_prefix
           | |- String.prefix _ (_ +:+ _) = true => apply prefix_append
           end.
  - intros message Hraw. unfold prepareUserContent, withError. cbn.
    now rewrite Hraw.
  - intros Hd Hb Hc Hp Hr. unfold prepareUserContent.
    now rewrite Hd, Hb, Hc, Hp, Hr.
Qed.

(** X20 at work: the sample candidate. *)
Lemma prompt_content_witness :
  prepareUserContent (withError Samples.ann "ETIMEDOUT")
    = "GitHub Username: ann" +:+ nl.
Proof.
  destruct (prompt_content Samples.ann) as (_ & Hsame & Hbare).
  rewrite Hsame by reflexivity. apply Hbare; reflexivity.
Defined.

Section WithJSON.
Context {J : JSON}.

(** X21. [processUser] ends with one of two things. When a call, the
    first, second or third, is answered with a text that is not empty
    and the calls before it failed, it returns that text parsed. When
    the three calls fail it returns the error object with the third
    error and the status [error]; in particular three answers without
    content, missing or empty, give the error [Empty response from
    Gemini] after three calls and the parser is never run. A text handed
    to the parser is never empty. *)
Theorem processUser_outcomes (fuel d : nat) (user : User) (replies : nat -> reply)
    (now : string) :
  maxAttempts <= fuel ->
  exists r,
    processUser fuel d user replies now = Some r /\
    (forall n t,
        n < 3 -> (forall k, k < n -> exists e, sendToGemini (replies k) = Failed e) ->
        replies n = Reply (Some t) -> truthy t = true ->
        r = Insights (parseAIResponse t now)) /\
    (forall e,
        (forall k, k < 3 -> exists e', sendToGemini (replies k) = Failed e') ->
        sendToGemini (replies 2) = Failed e ->
        r = Failure e "error" now) /\
    ((forall k, k < 3 -> replies k = Reply None \/ replies k = Reply (Some EmptyString)) ->
     r = Failure "Empty response from Gemini" "error" now) /\
    (forall x t, sendToGemini x = Fulfilled t -> truthy t = true).
Proof.
  intros Hfuel. unfold maxAttempts in Hfuel.
  destruct fuel as [|[|[|fuel]]]; try lia.
  assert (Hempty : forall k,
             replies k = Reply None \/ replies k = Reply (Some EmptyString) ->
             sendToGemini (replies k) = Failed "Empty response from Gemini").
  { intros k [-> | ->]; reflexivity. }
  assert (Htext : forall n t, replies n = Reply (Some t) -> truthy t = true ->
                              sendToGemini (replies n) = Fulfilled t).
  { intros n t -> Ht. cbn. now rewrite Ht. }
  assert (Hnonempty : forall x t, sendToGemini x = Fulfilled t -> truthy t = true).
  { intros [message|[content|]] t; cbn; try discriminate.
    destruct (truthy content) eqn:Hc; [|discriminate]. now intros [= <-]. }
  unfold processUser, handleItem. cbn [attemptLoop Nat.ltb Nat.leb maxAttempts].
  destruct (sendToGemini (replies 0)) as [r0|e0] eqn:A0; cbn;
    [|destruct (sendToGemini (replies 1)) as [r1|e1] eqn:A1; cbn;
      [|destruct (sendToGemini (replies 2)) as [r2|e2] eqn:A2; cbn]];
    (eexists; split; [reflexivity|]); (split; [|split; [|split; [|exact Hnonempty]]]).
  all: try (intros n t Hn Hfail Hreply Ht; pose proof (Htext n t Hreply Ht) as Hok;
            destruct n as [|[|[|n]]]; try lia;
            try (assert (exists e, sendToGemini (replies 0) = Failed e) as [? ?]
                   by (apply Hfail; lia));
            try (assert (exists e, sendToGemini (replies 1) = Failed e) as [? ?]
                   by (apply Hfail; lia));
            congruence).
  all: try (intros e Hfail He;
            try (assert (exists e', sendToGemini (replies 0) = Failed e') as [? ?]
                   by (apply Hfail; lia));
            try (assert (exists e', sendToGemini (replies 1) = Failed e') as [? ?]
                   by (apply Hfail; lia));
            congruence).
  all: intros Hall;
       pose proof (Hempty 0 (Hall 0 ltac:(lia)));
       pose proof (Hempty 1 (Hall 1 ltac:(lia)));
       pose proof (Hempty 2 (Hall 2 ltac:(lia)));
       congruence.
Qed.

End WithJSON.

(** X21 at work: three answers without content. *)
Lemma processUser_outcomes_witness :
  @processUser MoreSamples.oneJSON 3 1000 Samples.ann MoreSamples.emptyReplies "t"
    = Some (@Failure MoreSamples.oneJSON "Empty response from Gemini" "error" "t").
Proof.
  destruct (@processUser_outcomes MoreSamples.oneJSON 3 1000 Samples.ann
              MoreSamples.emptyReplies "t") as (r & Hrun & _ & _ & Hempty & _);
    [unfold maxAttempts; lia|].
  rewrite Hrun. f_equal. apply Hempty. intros k _. now left.
Defined.

End PromptProperties.

(* ===================================================================== *)
(** ** The request and result history *)
(* ===================================================================== *)

Section DataStoreProperties.
Import DataStore.
Context {Result : Type} {K : Codec Result}.

Lemma perform_requests (c : call) (s : store) :
  requests (perform c s) = requests s ++ logged [c].
Proof. destruct c; cbn; [reflexivity|now rewrite app_nil_r]. Qed.

Lemma logged_cons (c : @call Result) (cs : list call) :
  logged (c :: cs) = logged [c] ++ logged cs.
Proof. now destruct c. Qed.

(** X22. The request history only grows, at its end, and by one entry
    for each [logRequest]: after any calls it is the history before them
    followed by one entry for each request logged, in order, with the
    id, query, pages and time given. Every entry added is pending, with
    no completion time and no result count, and nothing ever changes an
    entry: a request never leaves the pending status. Saving results
    leaves the history alone. *)
Theorem request_history_is_append_only (cs : list call) (s : store) :
  getRequestHistory (performAll cs s) = getRequestHistory s ++ logged cs /\
  Forall (fun r => status r = "pending" /\ completed_at r = None /\
                   result_count r = None) (logged cs) /\
  (forall requestId now q n written,
      (logRequest requestId now q n written s).1 = requestId /\
      getRequestHistory (logRequest requestId now q n written s).2
        = getRequestHistory s
            ++ [Build_Request requestId q n now "pending" None None]).
Proof.
  split; [|split].
  - unfold getRequestHistory, performAll. revert s.
    induction cs as [|c cs IH]; intros s; cbn [fold_left].
    + cbn. now rewrite app_nil_r.
    + rewrite IH, perform_requests, (logged_cons c cs). now rewrite <- app_assoc.
  - induction cs as [|[requestId now q n written|result written] cs IH];
      cbn [logged]; [constructor| |exact IH].
    constructor; [now repeat split|exact IH].
  - intros requestId now q n written. now split.
Qed.

Lemma files_distinct : requestsFile <> resultsFile.
Proof. discriminate. Qed.

Lemma perform_saved (c : call) (s : store) :
  match c with
  | LogRequest _ _ _ _ written => written = true
  | SaveResults _ written => written = true
  end ->
  saved s -> saved (perform c s).
Proof.
  intros Hw [Hreq Hres]. destruct c as [requestId now q n written|result written];
    subst written; unfold saved, loadFromFile in *; cbn.
  - split; [left; apply lookup_insert_eq|].
    rewrite lookup_insert_ne by apply files_distinct. exact Hres.
  - split; [|left; apply lookup_insert_eq].
    rewrite lookup_insert_ne by (intros Heq; symmetry in Heq; now apply files_distinct).
    exact Hreq.
Qed.

Lemma performAll_saved (cs : list call) (s : store) :
  allWritten cs -> saved s -> saved (performAll cs s).
Proof.
  unfold performAll. intros Hall. revert s.
  induction Hall as [|c cs Hc _ IH]; intros s Hs; [exact Hs|].
  cbn [fold_left]. apply IH. now apply perform_saved.
Qed.


(** X24. A write that fails is swallowed: the request is in the history
    of the running object, the file is as it was, and a store made anew
    from the disk does not have it. The next [logRequest] whose write
    succeeds saves the whole history, the unsaved entry with it. *)
Theorem failed_write_is_lost_on_restart (requestId now q : string) (n : nat)
    (s : store) :
  let s' := (logRequest requestId now q n false s).2 in
  getRequestHistory s'
    = getRequestHistory s ++ [Build_Request requestId q n now "pending" None None] /\
  files s' = files s /\
  requests (construct (files s')) = requests (construct (files s)) /\
  (forall requestId2 now2 q2 n2,
      let s'' := (logRequest requestId2 now2 q2 n2 true s').2 in
      files s'' !! requestsFile = Some (stringifyRequests (requests s'')) /\
      requests s''
        = requests s ++ [Build_Request requestId q n now "pending" None None;
                         Build_Request requestId2 q2 n2 now2 "pending" None None]).
Proof.
  cbn. repeat split.
  - apply lookup_insert_eq.
  - now rewrite <- app_assoc.
Qed.

End DataStoreProperties.

Section DataStoreExamples.
Import DataStore.


End DataStoreExamples.
